(** * cut_detector: mid-body detection, tracking and best-track selection

    A shallow embedding of [MidBodyDetectionFactory]
    (src/cut_detector/factories/mid_body_detection_factory.py) and the
    properties its specification states about it.

    Numbers.  Python [int]s are [Z].  Python and NumPy floats are idealised:
    a finite float is an exact rational ([Q]), and the three special values
    the code produces or tests for ([np.inf], [-np.inf] and the NaN of an
    invalid operation) are kept as separate constructors of [fval], with the
    IEEE rules for them.  Rounding is not modelled.  The pixels of a movie
    are unsigned integers of a fixed number of bits, and a sum of NumPy
    scalars of that type wraps around.

    The Euclidean distance between two positions is a square root, which has
    no exact rational value in general: it is a parameter ([euclidean]) of
    the sections that need it, and the concrete inputs further down use an
    instance that is exact on them. *)

From Stdlib Require Import ZArith QArith Qabs Qround Lia Lqa String List.
From stdpp Require Import base option list sorting strings gmap.

Local Open Scope Z_scope.

(** ** Exceptions and the error monad *)

Inductive exn : Type :=
| ValueError (msg : string)
| RuntimeError (msg : string)
| KeyError (key : string)
| TypeError
| IndexError
| ZeroDivisionError.

Definition result (A : Type) : Type := exn + A.

Definition ret {A} (a : A) : result A := inr a.
Definition raise {A} (e : exn) : result A := inl e.
Definition bind {A B} (m : result A) (k : A → result B) : result B :=
  match m with
  | inl e => inl e
  | inr a => k a
  end.

Notation "'let!' x ':=' m 'in' k" := (bind m (fun x => k))
  (at level 10, x pattern, m at level 100, k at level 200).

(** [[f(x) for x in l]]: the first exception aborts the comprehension. *)
Fixpoint mapE {A B} (f : A → result B) (l : list A) : result (list B) :=
  match l with
  | [] => ret []
  | a :: l' => let! b := f a in let! bs := mapE f l' in ret (b :: bs)
  end.

Definition raises {A} (m : result A) : Prop := ∃ e, m = inl e.

(** ** Floats *)

Module Float.

Inductive fval : Type :=
| Fin (q : Q)
| PInf
| NInf
| NaN.

(** The two floats denote the same value. *)
Definition feq (a b : fval) : Prop :=
  match a, b with
  | Fin p, Fin q => (p == q)%Q
  | PInf, PInf | NInf, NInf | NaN, NaN => True
  | _, _ => False
  end.

Definition is_finite (a : fval) : bool :=
  match a with Fin _ => true | _ => false end.

Definition is_nan (a : fval) : bool :=
  match a with NaN => true | _ => false end.

Definition fneg (a : fval) : fval :=
  match a with
  | Fin q => Fin (- q)%Q
  | PInf => NInf
  | NInf => PInf
  | NaN => NaN
  end.

Definition fabs (a : fval) : fval :=
  match a with
  | Fin q => Fin (Qabs q)
  | PInf | NInf => PInf
  | NaN => NaN
  end.

Definition fadd (a b : fval) : fval :=
  match a, b with
  | NaN, _ | _, NaN => NaN
  | Fin p, Fin q => Fin (p + q)%Q
  | PInf, NInf | NInf, PInf => NaN
  | PInf, _ | _, PInf => PInf
  | NInf, _ | _, NInf => NInf
  end.

Definition fsub (a b : fval) : fval := fadd a (fneg b).

(** An infinity of the sign of [s] times the sign of [q]; NaN when [q] is 0. *)
Definition inf_signed (positive : bool) (q : Q) : fval :=
  match (0 ?= q)%Q with
  | Eq => NaN
  | Lt => if positive then PInf else NInf
  | Gt => if positive then NInf else PInf
  end.

Definition fmul (a b : fval) : fval :=
  match a, b with
  | NaN, _ | _, NaN => NaN
  | Fin p, Fin q => Fin (p * q)%Q
  | Fin p, PInf | PInf, Fin p => inf_signed true p
  | Fin p, NInf | NInf, Fin p => inf_signed false p
  | PInf, PInf | NInf, NInf => PInf
  | PInf, NInf | NInf, PInf => NInf
  end.

(** NumPy's true division: a division by zero is an infinity of the sign of
    the numerator, and 0/0 is NaN (a warning, no exception). *)
Definition fdiv (a b : fval) : fval :=
  match a, b with
  | NaN, _ | _, NaN => NaN
  | Fin p, Fin q =>
      if Qeq_bool q 0 then inf_signed true p else Fin (p / q)%Q
  | Fin _, (PInf | NInf) => Fin 0
  | PInf, Fin q => if Qle_bool 0 q then PInf else NInf
  | NInf, Fin q => if Qle_bool 0 q then NInf else PInf
  | (PInf | NInf), (PInf | NInf) => NaN
  end.

(** [x ** n] for a literal exponent. *)
Fixpoint fpow (a : fval) (n : nat) : fval :=
  match n with
  | O => Fin 1
  | S O => a
  | S n' => fmul a (fpow a n')
  end.

(** [a < b]; every comparison with NaN is false. *)
Definition flt (a b : fval) : bool :=
  match a, b with
  | NaN, _ | _, NaN => false
  | Fin p, Fin q => negb (Qle_bool q p)
  | NInf, NInf | PInf, _ => false
  | NInf, _ => true
  | Fin _, PInf => true
  | Fin _, NInf => false
  end.

Definition fgt (a b : fval) : bool := flt b a.

(** [a == b] of Python: NaN differs from everything, itself included. *)
Definition feqb (a b : fval) : bool :=
  match a, b with
  | Fin p, Fin q => Qeq_bool p q
  | PInf, PInf | NInf, NInf => true
  | _, _ => false
  end.

Definition fneb (a b : fval) : bool := negb (feqb a b).

(** Python's builtin [max(a, b)]: [b] only when [b > a]. *)
Definition py_max (a b : fval) : fval := if fgt b a then b else a.

(** [np.max] and [np.min] of a flattened array: NaN propagates; [None] is the
    [ValueError] of a zero-size array. *)
Definition np_max2 (a b : fval) : fval :=
  if is_nan a then a else if is_nan b then b else if flt a b then b else a.

Definition np_min2 (a b : fval) : fval :=
  if is_nan a then a else if is_nan b then b else if flt b a then b else a.

Definition np_max (l : list fval) : option fval :=
  match l with
  | [] => None
  | a :: l' => Some (fold_left np_max2 l' a)
  end.

Definition np_min (l : list fval) : option fval :=
  match l with
  | [] => None
  | a :: l' => Some (fold_left np_min2 l' a)
  end.

(** [int(x)] of a finite float: truncation toward zero. *)
Definition py_int (q : Q) : Z := Z.quot (Qnum q) (Zpos (Qden q)).

End Float.
Import Float.

(** ** Data model *)

(** [MidBodySpot]: the fields the factory reads.  Positions and intensities
    are Python [int]s ([_get_average_intensity] returns [int(np.mean(crop))]). *)
Record MidBodySpot : Type := {
  frame : Z;
  x : Z;
  y : Z;
  intensity : Z;
  sir_intensity : Z;
}.

#[global] Instance MidBodySpot_eq_dec : EqDecision MidBodySpot.
Proof. solve_decision. Defined.

(** The attributes set by [MidBodyDetectionFactory.__init__]. *)
Record Factory : Type := {
  weight_mklp_intensity_factor : Q;
  weight_sir_intensity_factor : Q;
  mid_body_linking_max_distance : Z;
  h_maxima_threshold : Q;
  sigma : Q;
  threshold : Q;
  cytokinesis_duration : Z;
  minimum_mid_body_track_length : Z;
}.

(** The default arguments of [__init__]; [CYTOKINESIS_DURATION] is a constant
    of [constants/tracking.py]. *)
Definition default_factory (CYTOKINESIS_DURATION : Z) : Factory := {|
  weight_mklp_intensity_factor := 5;
  weight_sir_intensity_factor := 15 # 10;
  mid_body_linking_max_distance := 175;
  h_maxima_threshold := 5;
  sigma := 2;
  threshold := 1;
  cytokinesis_duration := CYTOKINESIS_DURATION;
  minimum_mid_body_track_length := 10;
|}.

(** ** Link costs *)

Section LinkCost.

(** [sqrt((x1 - x2)**2 + (y1 - y2)**2)], as the arguments [x1 y1 x2 y2]. *)
Variable euclidean : Q → Q → Q → Q → Q.

Variable self : Factory.

(** Modelled from the spec: [MidBodySpot.distance_to] (utils/mid_body_spot.py)
    is the Euclidean distance between the positions of the two spots. *)
Definition distance_to (spot1 spot2 : MidBodySpot) : Q :=
  euclidean (inject_Z (x spot1)) (inject_Z (y spot1))
            (inject_Z (x spot2)) (inject_Z (y spot2)).

(** [3 * w * np.abs(a - b) / (a + b)] *)
Definition relative_penalty (w a b : Q) : fval :=
  fdiv (Fin (3 * w * Qabs (a - b))%Q) (Fin (a + b)%Q).

(** The cost of one cell of the cost matrix of [_update_spots_hereditary]
    (the body of the two nested loops). *)
Definition link_cost (spot1 spot2 : MidBodySpot) : fval :=
  let intensity_penalty :=
    relative_penalty (weight_mklp_intensity_factor self)
      (inject_Z (intensity spot1)) (inject_Z (intensity spot2)) in
  let sir_intensity_penalty :=
    relative_penalty (weight_sir_intensity_factor self)
      (inject_Z (sir_intensity spot1)) (inject_Z (sir_intensity spot2)) in
  let penalty := fadd (fadd (Fin 1) intensity_penalty) sir_intensity_penalty in
  let distance := distance_to spot1 spot2 in
  if fgt (Fin distance) (Fin (inject_Z (mid_body_linking_max_distance self)))
  then PInf
  else fpow (fmul penalty (Fin distance)) 1.

(** A row of [spots_df] without its frame: the coordinates
    [x, y, mlkp_intensity, sir_intensity] of a spot, or the all-[None] (NaN)
    placeholder written for a frame without spots. *)
Inductive coords : Type :=
| Placeholder
| Coords (cx cy mlkp sir : Q).

Definition coords_of_spot (s : MidBodySpot) : coords :=
  Coords (inject_Z (x s)) (inject_Z (y s))
         (inject_Z (intensity s)) (inject_Z (sir_intensity s)).

(** The closure [dist_metric] of [_gen_laptrack_tracking]. *)
Definition dist_metric (c1 c2 : coords) : fval :=
  match c1, c2 with
  | Coords x1 y1 mlkp1 sir1, Coords x2 y2 mlkp2 sir2 =>
      let spatial_e := euclidean x1 y1 x2 y2 in
      let mkpl_penalty :=
        relative_penalty (weight_mklp_intensity_factor self) mlkp1 mlkp2 in
      let sir_penalty :=
        relative_penalty (weight_sir_intensity_factor self) sir1 sir2 in
      let penalty := fadd (fadd (Fin 1) sir_penalty) mkpl_penalty in
      fpow (fmul (Fin spatial_e) penalty) 2
  | _, _ => Fin (inject_Z (mid_body_linking_max_distance self * 2))
  end.

End LinkCost.

(** An instance of the distance that is exact whenever the squared distance is
    a perfect square (a Pythagorean triple, or two points on one axis). *)
Definition grid_euclidean (x1 y1 x2 y2 : Q) : Q :=
  inject_Z (Z.sqrt (Qfloor ((x1 - x2) * (x1 - x2) + (y1 - y2) * (y1 - y2)))).

(** ** The linking backend *)

Inductive linker_class : Type :=
| LapTrack
| SpatialLapTrack.

(** The keyword arguments the factory passes to the constructor of the
    linker ([False] for a cutoff disables that kind of link). *)
Record Linker : Type := {
  linker_type : linker_class;
  track_dist_metric : coords → coords → fval;
  track_cost_cutoff : Z;
  gap_closing_dist_metric : coords → coords → fval;
  gap_closing_cost_cutoff : Z;
  gap_closing_max_frame_count : Z;
  splitting_cost_cutoff : option Z;
  merging_cost_cutoff : option Z;
  alternative_cost_percentile : Q;
}.

(** The default value of the parameter [tracking_method] of
    [update_mid_body_spots] ([mb_tracking_method]),
    [generate_tracks_from_spots] and [_gen_laptrack_tracking]. *)
Definition default_tracking_method : string := "laptrack".

Section TrackBuilder.

Variable euclidean : Q → Q → Q → Q → Q.
Variable self : Factory.

(** The choice of the linker in [_gen_laptrack_tracking]. *)
Definition select_linker (tracking_method : string) : result Linker :=
  let max_distance := mid_body_linking_max_distance self in
  if String.eqb tracking_method "laptrack" then
    ret {| linker_type := LapTrack;
           track_dist_metric := dist_metric euclidean self;
           track_cost_cutoff := max_distance ^ 2;
           gap_closing_dist_metric := dist_metric euclidean self;
           gap_closing_cost_cutoff := max_distance ^ 2;
           gap_closing_max_frame_count := 2;
           splitting_cost_cutoff := None;
           merging_cost_cutoff := None;
           alternative_cost_percentile := 1 # 100 |}
  else if String.eqb tracking_method "spatial_laptrack" then
    ret {| linker_type := SpatialLapTrack;
           track_dist_metric := dist_metric euclidean self;
           track_cost_cutoff := max_distance;
           gap_closing_dist_metric := dist_metric euclidean self;
           gap_closing_cost_cutoff := max_distance;
           gap_closing_max_frame_count := 3;
           splitting_cost_cutoff := None;
           merging_cost_cutoff := None;
           alternative_cost_percentile := 100 |}
  else
    raise (RuntimeError ("Invalid tracking method '" ++ tracking_method ++ "'")).

(** The linker [_gen_laptrack_tracking] runs: the selected one, unless a
    custom linker overrides it (after the method name has been checked).
    [tracking_method = None] is a call that leaves the argument out. *)
Definition linker_in_use (tracking_method : option string)
    (use_custom_laptrack : option Linker) : result Linker :=
  let! lt := select_linker (default default_tracking_method tracking_method) in
  match use_custom_laptrack with
  | Some custom => ret custom
  | None => ret lt
  end.

End TrackBuilder.

(** ** The frame-to-frame cost matrix *)

Abbreviation matrix := (list (list fval)).

(** [np.zeros((rows, cols))] *)
Definition np_zeros (rows cols : nat) : matrix :=
  replicate rows (replicate cols (Fin 0)).


(** [m[i, j] = v] *)
Definition mat_set (i j : nat) (v : fval) (m : matrix) : matrix :=
  alter (λ row, <[j := v]> row) i m.

(** [m[r0:r1, c0:c1] = v] for a scalar [v]. *)
Definition mat_fill (r0 r1 c0 c1 : nat) (v : fval) (m : matrix) : matrix :=
  imap (λ i row,
          if bool_decide (r0 ≤ i < r1)%nat
          then imap (λ j c, if bool_decide (c0 ≤ j < c1)%nat then v else c) row
          else row) m.

(** [m[np.nonzero(m)]]: the entries that differ from 0, row by row. *)
Definition nonzero_entries (m : matrix) : list fval :=
  filter (λ c, fneb c (Fin 0) = true) (concat m).

Section CostMatrix.

Variable euclidean : Q → Q → Q → Q → Q.
Variable self : Factory.

(** The state of the two nested loops: [cost_matrix] and [max_cost]. *)
Definition loop_state : Type := matrix * fval.

(** The body of the inner loop, at [i, spot1] and [j, spot2]. *)
Definition cost_step (i j : nat) (spot1 spot2 : MidBodySpot)
    (st : loop_state) : loop_state :=
  let '(cost_matrix, max_cost) := st in
  let c := link_cost euclidean self spot1 spot2 in
  if fgt (Fin (distance_to euclidean spot1 spot2))
         (Fin (inject_Z (mid_body_linking_max_distance self)))
  then (mat_set i j c cost_matrix, max_cost)
  else (mat_set i j c cost_matrix, py_max max_cost c).

(** [for j, spot2 in enumerate(spots2)], from index [j] on. *)
Fixpoint inner_loop (i : nat) (spot1 : MidBodySpot) (j : nat)
    (spots2 : list MidBodySpot) (st : loop_state) : loop_state :=
  match spots2 with
  | [] => st
  | spot2 :: rest => inner_loop i spot1 (S j) rest (cost_step i j spot1 spot2 st)
  end.

(** [for i, spot1 in enumerate(spots1)], from index [i] on. *)
Fixpoint outer_loop (i : nat) (spots1 spots2 : list MidBodySpot)
    (st : loop_state) : loop_state :=
  match spots1 with
  | [] => st
  | spot1 :: rest => outer_loop (S i) rest spots2 (inner_loop i spot1 0 spots2 st)
  end.

(** [0 if np.max(m) == 0 else np.min(m[np.nonzero(m)])] *)
Definition min_cost_of (m : matrix) : result fval :=
  match np_max (concat m) with
  | None => raise (ValueError "zero-size array to reduction operation maximum")
  | Some mx =>
      if feqb mx (Fin 0) then ret (Fin 0)
      else match np_min (nonzero_entries m) with
           | None => raise (ValueError "zero-size array to reduction operation minimum")
           | Some mn => ret mn
           end
  end.

(** The cost matrix [_update_spots_hereditary] hands to the assignment
    solver, for two lists that passed the emptiness test. *)
Definition padded_cost_matrix (spots1 spots2 : list MidBodySpot) : result matrix :=
  let n1 := length spots1 in
  let n2 := length spots2 in
  let '(cost_matrix, max_cost) :=
    outer_loop 0 spots1 spots2 (np_zeros (n1 + n2) (n1 + n2), Fin 0) in
  let! min_cost := min_cost_of cost_matrix in
  let no_link := fmul max_cost (Fin (105 # 100)) in
  let cost_matrix := mat_fill n1 (n1 + n2) 0 n2 no_link cost_matrix in
  let cost_matrix := mat_fill 0 n1 n2 (n1 + n2) no_link cost_matrix in
  let cost_matrix := mat_fill n1 (n1 + n2) n2 (n1 + n2) min_cost cost_matrix in
  ret cost_matrix.

(** [linear_sum_assignment] of SciPy: the row and column indices of an
    optimal assignment, zipped. *)
Variable linear_sum_assignment : matrix → result (list (nat * nat)).

(** [_update_spots_hereditary]: the pairs [(i, j)] for which the function
    sets [spots1[i].child_spot = spots2[j]] and
    [spots2[j].parent_spot = spots1[i]]. *)
Definition _update_spots_hereditary (spots1 spots2 : list MidBodySpot)
    : result (list (nat * nat)) :=
  if bool_decide (length spots1 = 0%nat ∨ length spots2 = 0%nat) then ret []
  else
    let! cost_matrix := padded_cost_matrix spots1 spots2 in
    let! assignment := linear_sum_assignment cost_matrix in
    ret (filter (λ '(i, j), (i < length spots1)%nat ∧ (j < length spots2)%nat)
                assignment).

End CostMatrix.

(** ** Spot detection *)

(** [seq[i]] for [i >= 0]. *)
Definition py_getitem {A} (l : list A) (i : nat) : result A :=
  match l !! i with
  | Some a => ret a
  | None => raise IndexError
  end.

(** [int(x, base)] for a number [x].  Python looks at the base first and
    raises [ValueError] unless it is 0 or lies between 2 and 36; with a base
    it accepts, an explicit base goes with a string only, and a number raises
    [TypeError] ("int() can't convert non-string with explicit base"). *)
Definition py_int_base (x : Q) (base : Z) : result Z :=
  if decide (base = 0 ∨ 2 <= base <= 36) then raise TypeError
  else raise (ValueError "int() base must be >= 2 and <= 36, or 0").

(** A blob as a detector returns it: a row [y, x, sigma] of floats. *)
Definition blob : Type := list Q.

(** [(int(spot[0]), int(spot[1], int(spot[2])))] *)
Definition convert_blob (spot : blob) : result (list Z) :=
  let! s0 := py_getitem spot 0 in
  let a := py_int s0 in
  let! s1 := py_getitem spot 1 in
  let! s2 := py_getitem spot 2 in
  let! b := py_int_base s1 (py_int s2) in
  ret [a; b].

(** [print(f"found x:{s[1]}  y:{s[0]}  s:{s[2]}")] for each spot: only the
    indexing is kept. *)
Definition log_blob_spots (spots : list (list Z)) : result unit :=
  let! _ := mapE (λ s, let! _ := py_getitem s 1 in
                       let! _ := py_getitem s 0 in
                       py_getitem s 2) spots in
  ret ().

(** The names tested by [mode in [...]].  Two adjacent string literals without
    a comma are one literal in Python: ["diffgau" "cur_doh"]. *)
Definition blob_like_names : list string :=
  [ "cur_log"; "lapgau"; "log2_wider"; "shifted_centered_log";
    "cur_dog"; String.append "diffgau" "cur_doh"; "hessian" ].

Section SpotDetection.

(** A frame (YXC), one of its channels (YX) and a mask (YX). *)
Variables Image Image2D Mask : Type.
Variable channel : Image → Z → Image2D.

(** The detectors of [factories/mb_support/detection.py]. *)
Record DetectionModule : Type := {
  current_log : Image2D → list blob;
  current_dog : Image2D → list blob;
  current_doh : Image2D → list blob;
  lapgau : Image2D → list blob;
  log2_wider : Image2D → list blob;
  rshift_log : Image2D → list blob;
  diffgau : Image2D → list blob;
  hessian : Image2D → list blob;
}.

Variable detection : DetectionModule.

(** The positions [(y, x)] the branch ["bigfish"] computes with bigfish, and
    the branch ["h_maxima"] with scikit-image and SciPy. *)
Variable bigfish_spots : Factory → Image2D → Mask → result (list (list Z)).
Variable h_maxima_spots : Factory → Image2D → result (list (list Z)).

(** [smart_cropping(image, margin, x, y, x + 1, y + 1)] of
    [utils/image_tools.py]: the pixels of the crop. *)
Variable smart_cropping : Image2D → Z → Z → Z → Z → Z → list Q.

Variable self : Factory.

Inductive Mode : Type :=
| ModeCallable (f : Image2D → list blob)
| ModeName (name : string).

(** The dictionary [mapping] of the branch of the named blob detectors. *)
Definition mapping : gmap string (Image2D → list blob) :=
  list_to_map
    [ ("cur_log", current_log detection);
      ("cur_dog", current_dog detection);
      ("cur_doh", current_doh detection);
      ("lapgau", lapgau detection);
      ("log2_wider", log2_wider detection);
      ("rshit_log", rshift_log detection);
      ("diffgau", diffgau detection);
      ("hessian", hessian detection) ].

(** [int(np.mean(crop))]: the mean of an empty crop is NaN, which [int]
    refuses. *)
Definition _get_average_intensity (position : list Z) (image : Image2D)
    : result Z :=
  let margin := 1 in
  let! p1 := py_getitem position 1 in
  let! p0 := py_getitem position 0 in
  let crop := smart_cropping image margin p1 p0 (p1 + 1) (p0 + 1) in
  match crop with
  | [] => raise (ValueError "cannot convert float NaN to integer")
  | _ => ret (py_int (fold_right Qplus 0%Q crop / inject_Z (Z.of_nat (length crop))))
  end.

Definition _spot_detection (image : Image) (mask : Mask)
    (mid_body_channel sir_channel : Z) (mode : Mode) (frame : Z)
    (log_blob_spot : bool) : result (list MidBodySpot) :=
  let image_sir := channel image sir_channel in
  let image_mklp := channel image mid_body_channel in
  let! spots :=
    match mode with
    | ModeCallable f =>
        let! spots := mapE convert_blob (f image_mklp) in
        let! _ := if log_blob_spot then log_blob_spots spots else ret () in
        ret spots
    | ModeName name =>
        if bool_decide (name ∈ blob_like_names) then
          match mapping !! name with
          | None => raise (KeyError name)
          | Some detector =>
              let! spots := mapE convert_blob (detector image_mklp) in
              let! _ := if log_blob_spot then log_blob_spots spots else ret () in
              ret spots
          end
        else if String.eqb name "bigfish" then bigfish_spots self image_mklp mask
        else if String.eqb name "h_maxima" then h_maxima_spots self image_mklp
        else raise (ValueError ("Unknown mode: " ++ name))
    end in
  mapE (λ position,
          let! px := py_getitem position 1 in
          let! py := py_getitem position 0 in
          let! i := _get_average_intensity position image_mklp in
          let! s := _get_average_intensity position image_sir in
          ret {| frame := frame; x := px; y := py;
                 intensity := i; sir_intensity := s |})
       spots.

(** [np.ones(shape)] restricted to one frame: the default mask. *)
Variable all_ones : Image → Mask.

(** The loop of [detect_mid_body_spots] from [frame] on: the dictionary
    frame → spots, in the order of its insertions. *)
Fixpoint detect_frames (frame : nat) (frames : list Image)
    (mask_movie : list Mask) (mode : Mode)
    : result (list (Z * list MidBodySpot)) :=
  match frames with
  | [] => ret []
  | mitosis_frame :: rest =>
      let! mask_frame := py_getitem mask_movie frame in
      let! spots :=
        _spot_detection mitosis_frame mask_frame 1 0 mode (Z.of_nat frame) true in
      let! others := detect_frames (S frame) rest mask_movie mode in
      ret ((Z.of_nat frame, spots) :: others)
  end.

(** [mask_movie = None] and [mode = None] are calls that leave the argument
    out. *)
Definition detect_mid_body_spots (mitosis_movie : list Image)
    (mask_movie : option (list Mask)) (mode : option Mode)
    : result (list (Z * list MidBodySpot)) :=
  let mask_movie := default (all_ones <$> mitosis_movie) mask_movie in
  detect_frames 0 mitosis_movie mask_movie (default (ModeName "diffgau") mode).

End SpotDetection.

Arguments ModeCallable {Image2D} f.
Arguments ModeName {Image2D} name.

(** ** Tracks and the mitosis record *)

(** [MidBodyTrack]: [spots] is the dictionary relative frame → spot, in the
    order of its insertions (the keys are distinct). *)
Record MidBodyTrack : Type := {
  track_id : Z;
  spots : list (Z * MidBodySpot);
}.

#[global] Instance MidBodyTrack_eq_dec : EqDecision MidBodyTrack.
Proof. solve_decision. Defined.

(** Modelled from the spec: the property [MidBodyTrack.length]
    (utils/mid_body_track.py) is the count of frames with an assigned spot. *)
Definition track_length (track : MidBodyTrack) : Z :=
  Z.of_nat (length (spots track)).

(** [track.spots[key]] *)
Definition spots_getitem (track : MidBodyTrack) (key : Z) : result MidBodySpot :=
  match list_find (λ kv, kv.1 = key) (spots track) with
  | Some (_, (_, spot)) => ret spot
  | None => raise (KeyError "spots")
  end.

(** [MitosisTrack]: the attributes the factory reads, and [mid_body_spots],
    the one it writes. *)
Record MitosisTrack : Type := {
  mother_track_id : Z;
  daughter_track_ids : list Z;
  min_frame : Z;
  position_min_x : Z;
  position_min_y : Z;
  key_events_frame : gmap string Z;
  mid_body_spots : gmap Z MidBodySpot;
}.

Definition set_mid_body_spot (frame : Z) (spot : MidBodySpot)
    (mitosis_track : MitosisTrack) : MitosisTrack :=
  {| mother_track_id := mother_track_id mitosis_track;
     daughter_track_ids := daughter_track_ids mitosis_track;
     min_frame := min_frame mitosis_track;
     position_min_x := position_min_x mitosis_track;
     position_min_y := position_min_y mitosis_track;
     key_events_frame := key_events_frame mitosis_track;
     mid_body_spots := <[frame := spot]> (mid_body_spots mitosis_track) |}.

(** ** The Track Builder *)

(** The rows of [spots_df].  [spots_df.loc[len(spots_df.index)] = row] puts
    the row behind the rows the data frame has. *)
Definition spots_df_step (spots_df : list (Z * coords))
    (item : Z * list MidBodySpot) : list (Z * coords) :=
  let '(frame, mb_spots) := item in
  if decide (length mb_spots = 0%nat) then spots_df ++ [(frame, Placeholder)]
  else
    fold_left (λ spots_df mb_spot,
                 spots_df ++ [(frame, coords_of_spot mb_spot)])
              mb_spots spots_df.

Definition spots_df_of (spots_candidates : list (Z * list MidBodySpot))
    : list (Z * coords) :=
  fold_left spots_df_step spots_candidates [].

Section GenerateTracks.

Variable euclidean : Q → Q → Q → Q → Q.
Variable self : Factory.

(** [lt.predict_dataframe] of the linking library, followed by the
    conversion of its data frame into [MidBodyTrack]s. *)
Variable predict_tracks :
  Linker → list (Z * coords) → list (Z * list MidBodySpot) →
  result (list MidBodyTrack).

Definition _gen_laptrack_tracking (spots_candidates : list (Z * list MidBodySpot))
    (tracking_method : option string) (use_custom_laptrack : option Linker)
    : result (list MidBodyTrack) :=
  let spots_df := spots_df_of spots_candidates in
  let! lt := linker_in_use euclidean self tracking_method use_custom_laptrack in
  predict_tracks lt spots_df spots_candidates.

Definition generate_tracks_from_spots
    (spots_candidates : list (Z * list MidBodySpot))
    (tracking_method : option string) (use_custom_laptrack : option Linker)
    : result (list MidBodyTrack) :=
  _gen_laptrack_tracking spots_candidates
    (Some (default default_tracking_method tracking_method))
    use_custom_laptrack.

End GenerateTracks.

(** ** The Track Selector *)

(** [range(a, b)] *)
Definition py_range (a b : Z) : list Z := seqZ a (b - a).

(** A loop whose body may raise. *)
Fixpoint foldE {A S} (f : S → A → result S) (l : list A) (s : S) : result S :=
  match l with
  | [] => ret s
  | a :: l' => let! s' := f s a in foldE f l' s'
  end.

(** [l.index(a)] *)
Definition py_index `{EqDecision A} (l : list A) (a : A) : result nat :=
  match list_find (λ b, b = a) l with
  | Some (i, _) => ret i
  | None => raise (ValueError "x not in list")
  end.

(** [sorted(l, key=...)] on the pairs (key, element): a stable sort that
    compares the keys with [<]. *)
Fixpoint insert_by_key {A} (kt : fval * A) (l : list (fval * A))
    : list (fval * A) :=
  match l with
  | [] => [kt]
  | kt' :: l' =>
      if flt kt'.1 kt.1 then kt' :: insert_by_key kt l' else kt :: kt' :: l'
  end.

Definition sorted_by_key {A} (l : list (fval * A)) : list (fval * A) :=
  foldr insert_by_key [] l.

(** ** The expected positions of the mid-body *)

(** The first loop of [_select_best_track]: at every frame of the cytokinesis
    where the mother cell and the first daughter cell both have a spot, the
    closest pairs of points of their outlines give the expected position of
    the mid-body. *)

(** [TrackMateTrack] (utils/trackmate_track.py), by what the loop reads of
    it: the frame where the track starts and, per frame, the points of the
    outline of the cell ([spots[frame].spot_points]). *)
Record TrackMateTrack : Type := {
  start : Z;
  spot_points : gmap Z (list (Q * Q));
}.

Abbreviation position := (Z * Z)%type.

(** [[int(point[0]) - min_x, int(point[1]) - min_y]] *)
Definition relative_position (mitosis_track : MitosisTrack) (point : Q * Q)
    : position :=
  (py_int point.1 - position_min_x mitosis_track,
   py_int point.2 - position_min_y mitosis_track).

(** The mean of a non-empty list of numbers. *)
Definition q_mean (l : list Q) : Q :=
  (foldr Qplus 0 l / inject_Z (Z.of_nat (length l)))%Q.

(** [np.mean(np.mean(closest_points, axis=0), axis=0)]: the mean over the
    pairs, then over the two points of the pair.  Without a pair the first
    mean is nan, a scalar, and the second one has no axis 0 to reduce
    (AxisError, a ValueError). *)
Definition mid_body_position_of (closest_points : list (position * position))
    : result (Q * Q) :=
  match closest_points with
  | [] => raise (ValueError "axis 0 is out of bounds for array of dimension 0")
  | _ =>
      let mother_x := q_mean ((λ p, inject_Z p.1.1) <$> closest_points) in
      let mother_y := q_mean ((λ p, inject_Z p.1.2) <$> closest_points) in
      let daughter_x := q_mean ((λ p, inject_Z p.2.1) <$> closest_points) in
      let daughter_y := q_mean ((λ p, inject_Z p.2.2) <$> closest_points) in
      ret (((mother_x + daughter_x) / 2)%Q, ((mother_y + daughter_y) / 2)%Q)
  end.

Section ExpectedPositions.

Variable euclidean : Q → Q → Q → Q → Q.
Variable self : Factory.
Variable mitosis_track : MitosisTrack.

(** [np.linalg.norm([a - b for a, b in zip(position_mother,
    position_daughter)])] *)
Definition pair_distance (pair : position * position) : Q :=
  euclidean (inject_Z pair.1.1) (inject_Z pair.1.2)
            (inject_Z pair.2.1) (inject_Z pair.2.2).

(** The body of the two loops over the points: [(min_distance,
    closest_points)] after one pair.  The second test is no [elif]: a pair
    that lowers the minimum is put in the list and appended to it. *)
Definition closest_step (state : fval * list (position * position))
    (pair : position * position) : fval * list (position * position) :=
  let '(min_distance, closest_points) := state in
  let distance := Fin (pair_distance pair) in
  let '(min_distance, closest_points) :=
    if flt distance min_distance then (distance, [pair])
    else (min_distance, closest_points) in
  let closest_points :=
    if feqb distance min_distance then closest_points ++ [pair]
    else closest_points in
  (min_distance, closest_points).

(** The two nested loops, from [min_distance = np.inf] and no closest
    point. *)
Definition closest_points_of (mother_points daughter_points : list (Q * Q))
    : fval * list (position * position) :=
  fold_left
    (λ state mother_point,
       let position_mother := relative_position mitosis_track mother_point in
       fold_left
         (λ state daughter_point,
            let position_daughter :=
              relative_position mitosis_track daughter_point in
            closest_step state (position_mother, position_daughter))
         daughter_points state)
    mother_points (PInf, []).

(** The body of the loop over the frames. *)
Definition expected_positions_step
    (mother_spots daughter_spots : gmap Z (list (Q * Q)))
    (expected_positions : gmap Z (Q * Q)) (frame : Z)
    : result (gmap Z (Q * Q)) :=
  match daughter_spots !! frame, mother_spots !! frame with
  | Some daughter_points, Some mother_points =>
      let closest_points :=
        (closest_points_of mother_points daughter_points).2 in
      let! mid_body_position := mid_body_position_of closest_points in
      ret (<[frame - min_frame mitosis_track := mid_body_position]>
             expected_positions)
  | _, _ => ret expected_positions
  end.

(** [expected_positions] at the end of the loop. *)
Definition expected_positions_of
    (mother_spots : gmap Z (list (Q * Q))) (daughter_start : Z)
    (daughter_spots : gmap Z (list (Q * Q))) : result (gmap Z (Q * Q)) :=
  foldE (expected_positions_step mother_spots daughter_spots)
        (py_range daughter_start
                  (daughter_start + cytokinesis_duration self))
        ∅.

End ExpectedPositions.

(** [sir_intensity_track[idx]]: the Python int 0, then a scalar of the
    type of the movie, an unsigned integer of [bits] bits (Python int +
    NumPy scalar is a scalar of the same type under the promotion rules of
    NumPy 2, and the sums of such scalars wrap around); or a float, once the
    entry was set to [-np.inf]. *)
Inductive sir_sum_value : Type :=
| IntSum (n : Z)
| FloatSum (v : fval).

(** [acc += pixel] *)
Definition add_pixel (bits : Z) (acc : sir_sum_value) (pixel : Z)
    : sir_sum_value :=
  match acc with
  | IntSum n => IntSum ((n + pixel) mod 2 ^ bits)
  | FloatSum v => FloatSum (fadd v (Fin (inject_Z pixel)))
  end.

(** The value as a float, for the true division by [frame_count]. *)
Definition float_of_sum (acc : sir_sum_value) : fval :=
  match acc with
  | IntSum n => Fin (inject_Z n)
  | FloatSum v => v
  end.

Section Selector.

Variable self : Factory.

(** The number of bits of the unsigned integer type of the movie (8 for
    uint8, 16 for uint16). *)
Variable bits : Z.

(** [image_sir[t, y, x]] for [image_sir = mitosis_movie[..., sir_channel]];
    the spots of a track lie inside the frames they were detected in. *)
Variable image_sir : Z → Z → Z → Z.

(** [track.get_expected_distance(expected_positions,
    self.mid_body_linking_max_distance)] of [utils/mid_body_track.py], for
    the expected positions the selector has computed. *)
Variable get_expected_distance : MidBodyTrack → fval.

Variable mitosis_track : MitosisTrack.

(** The filter on the length of the tracks. *)
Definition length_filter (mid_body_tracks : list MidBodyTrack)
    : list MidBodyTrack :=
  filter (λ track, minimum_mid_body_track_length self < track_length track)
         mid_body_tracks.

(** [abs_min_frame] and [abs_max_frame]. *)
Definition sir_window : result (Z * Z) :=
  match key_events_frame mitosis_track !! "cytokinesis" with
  | None => raise (KeyError "cytokinesis")
  | Some abs_min_frame =>
      ret (abs_min_frame, abs_min_frame + Z.quot (cytokinesis_duration self) 2)
  end.

(** The body of the loop over the frames of the window; the state is
    [sir_intensity_track[idx]] and [frame_count]. *)
Definition sir_step (track : MidBodyTrack) (abs_track_frames : list Z)
    (st : sir_sum_value * Z) (frame : Z) : result (sir_sum_value * Z) :=
  let '(acc, frame_count) := st in
  if bool_decide (frame ∈ abs_track_frames) then
    let! track_spot := spots_getitem track (frame - min_frame mitosis_track) in
    ret (add_pixel bits acc
           (image_sir (frame - min_frame mitosis_track)
                      (y track_spot) (x track_spot)),
         frame_count + 1)
  else ret st.

(** The final value of [sir_intensity_track[idx]] for one track. *)
Definition sir_intensity_of (track : MidBodyTrack) : result fval :=
  let abs_track_frames :=
    map (λ kv, kv.1 + min_frame mitosis_track) (spots track) in
  let! (abs_min_frame, abs_max_frame) := sir_window in
  let! last_frame :=
    py_getitem abs_track_frames (length abs_track_frames - 1) in
  let! first_frame := py_getitem abs_track_frames 0 in
  let start :=
    if bool_decide (abs_min_frame > last_frame ∨ abs_max_frame < first_frame)
    then FloatSum NInf else IntSum 0 in
  let! (acc, frame_count) :=
    foldE (sir_step track abs_track_frames)
          (py_range abs_min_frame (abs_max_frame + 1)) (start, 0) in
  if flt (Fin (inject_Z frame_count))
         (fdiv (Fin (inject_Z (abs_max_frame - abs_min_frame + 1))) (Fin 2))
  then ret NInf
  else if bool_decide (frame_count = 0) then raise ZeroDivisionError
  else ret (fdiv (float_of_sum acc) (Fin (inject_Z frame_count))).

(** The closure [func_sir_intensity], over the three lists it reads. *)
Definition func_sir_intensity (mid_body_tracks : list MidBodyTrack)
    (expected_distances sir_intensity_track : list fval)
    (track : MidBodyTrack) : result fval :=
  let! ia := py_index mid_body_tracks track in
  let! a := py_getitem expected_distances ia in
  let! ib := py_index mid_body_tracks track in
  let! b := py_getitem sir_intensity_track ib in
  ret (fsub a (fmul (Fin (1 # 2)) b)).

(** [_select_best_track] from the length filter on (the statements that
    follow the loop of the expected positions). *)
Definition select_from_candidates (mid_body_tracks : list MidBodyTrack)
    : result (option MidBodyTrack) :=
  let mid_body_tracks := length_filter mid_body_tracks in
  let! sir_intensity_track := mapE sir_intensity_of mid_body_tracks in
  let expected_distances := map get_expected_distance mid_body_tracks in
  let! fun_values :=
    mapE (func_sir_intensity mid_body_tracks expected_distances
                             sir_intensity_track) mid_body_tracks in
  let final_tracks :=
    filter (λ kt, fneb kt.1 PInf = true) (zip fun_values mid_body_tracks) in
  let sorted_tracks := sorted_by_key final_tracks in
  ret (snd <$> head sorted_tracks).

End Selector.

Section SelectBestTrack.

Variable euclidean : Q → Q → Q → Q → Q.
Variable self : Factory.
Variable bits : Z.
Variable image_sir : Z → Z → Z → Z.

(** [mitosis_track.get_mother_daughters_tracks(trackmate_tracks)] of
    [utils/mitosis_track.py]: the track of the mother cell and the tracks of
    the daughter cells, or an exception. *)
Variable get_mother_daughters_tracks :
  MitosisTrack → list TrackMateTrack →
  result (TrackMateTrack * list TrackMateTrack).

(** [track.get_expected_distance(expected_positions, max_distance)] of
    [utils/mid_body_track.py]. *)
Variable get_expected_distance :
  MidBodyTrack → gmap Z (Q * Q) → Z → fval.

Variable mitosis_track : MitosisTrack.

(** The start of [_select_best_track]: the mother, the first daughter
    ([daughter_tracks[0]]) and the loop of the expected positions. *)
Definition selector_expected_positions
    (trackmate_tracks : list TrackMateTrack) : result (gmap Z (Q * Q)) :=
  let! (mother_track, daughter_tracks) :=
    get_mother_daughters_tracks mitosis_track trackmate_tracks in
  let! daughter_track := py_getitem daughter_tracks 0 in
  expected_positions_of euclidean self mitosis_track
    (spot_points mother_track) (start daughter_track)
    (spot_points daughter_track).

Definition _select_best_track (mid_body_tracks : list MidBodyTrack)
    (trackmate_tracks : list TrackMateTrack)
    : result (option MidBodyTrack) :=
  let! expected_positions := selector_expected_positions trackmate_tracks in
  select_from_candidates self bits image_sir
    (λ track,
       get_expected_distance track expected_positions
         (mid_body_linking_max_distance self))
    mitosis_track mid_body_tracks.

End SelectBestTrack.

(** ** The Assembler *)

(** The body of the loop over [kept_track.spots.items()]. *)
Definition keep_step (mitosis_track : MitosisTrack) (item : Z * MidBodySpot)
    : MitosisTrack :=
  let '(rel_frame, spot) := item in
  let frame := rel_frame + min_frame mitosis_track in
  set_mid_body_spot frame spot mitosis_track.

(** The end of [update_mid_body_spots], from [if kept_track is None] on. *)
Definition keep_spots (kept_track : option MidBodyTrack)
    (mitosis_track : MitosisTrack) : MitosisTrack :=
  match kept_track with
  | None => mitosis_track
  | Some track => fold_left keep_step (spots track) mitosis_track
  end.

Section Assembler.

Variable euclidean : Q → Q → Q → Q → Q.
Variables Image Image2D Mask : Type.
Variable channel : Image → Z → Image2D.
Variable detection : DetectionModule Image2D.
Variable bigfish_spots : Factory → Image2D → Mask → result (list (list Z)).
Variable h_maxima_spots : Factory → Image2D → result (list (list Z)).
Variable smart_cropping : Image2D → Z → Z → Z → Z → Z → list Q.
Variable all_ones : Image → Mask.
Variable predict_tracks :
  Linker → list (Z * coords) → list (Z * list MidBodySpot) →
  result (list MidBodyTrack).

(** The movie is of an unsigned integer type of [bits] bits;
    [sir_pixels mitosis_movie t y x] is [mitosis_movie[t, y, x, 0]]. *)
Variable bits : Z.
Variable sir_pixels : list Image → Z → Z → Z → Z.
Variable get_mother_daughters_tracks :
  MitosisTrack → list TrackMateTrack →
  result (TrackMateTrack * list TrackMateTrack).
Variable get_expected_distance :
  MidBodyTrack → gmap Z (Q * Q) → Z → fval.
Variable self : Factory.

(** [update_mid_body_spots]: the mitosis record after the call, or the
    exception that leaves it as it was. *)
Definition update_mid_body_spots (mitosis_track : MitosisTrack)
    (mitosis_movie : list Image) (mask_movie : list Mask)
    (tracks : list TrackMateTrack)
    (mb_detect_method : option (Mode Image2D))
    (mb_tracking_method : option string) : result MitosisTrack :=
  let! spots_candidates :=
    detect_mid_body_spots Image Image2D Mask channel detection bigfish_spots
      h_maxima_spots smart_cropping self all_ones mitosis_movie
      (Some mask_movie) (Some (default (ModeName "lapgau") mb_detect_method)) in
  let! mid_body_tracks :=
    generate_tracks_from_spots euclidean self predict_tracks spots_candidates
      (Some (default default_tracking_method mb_tracking_method)) None in
  let! kept_track :=
    _select_best_track euclidean self bits (sir_pixels mitosis_movie)
      get_mother_daughters_tracks get_expected_distance mitosis_track
      mid_body_tracks tracks in
  ret (keep_spots kept_track mitosis_track).

End Assembler.

(** ** The quantities the specification names *)

Section SpecCost.

Variable euclidean : Q → Q → Q → Q → Q.
Variable self : Factory.

(** [3 * w1 * |I1a - I1b| / (I1a + I1b)] *)
Definition primary_penalty (spot1 spot2 : MidBodySpot) : Q :=
  (3 * weight_mklp_intensity_factor self
   * Qabs (inject_Z (intensity spot1) - inject_Z (intensity spot2))
   / (inject_Z (intensity spot1) + inject_Z (intensity spot2)))%Q.

(** The analogous term for the secondary intensities, with weight [w2]. *)
Definition secondary_penalty (spot1 spot2 : MidBodySpot) : Q :=
  (3 * weight_sir_intensity_factor self
   * Qabs (inject_Z (sir_intensity spot1) - inject_Z (sir_intensity spot2))
   / (inject_Z (sir_intensity spot1) + inject_Z (sir_intensity spot2)))%Q.

(** [distance * (1 + primary_penalty + secondary_penalty)] *)
Definition penalised_distance (spot1 spot2 : MidBodySpot) : Q :=
  (distance_to euclidean spot1 spot2
   * (1 + primary_penalty spot1 spot2 + secondary_penalty spot1 spot2))%Q.

(** The squared formula, in both code paths, for a pair within the maximum
    linking distance. *)
Definition squared_in_both_paths (spot1 spot2 : MidBodySpot) : Prop :=
  (distance_to euclidean spot1 spot2
   <= inject_Z (mid_body_linking_max_distance self))%Q →
  feq (link_cost euclidean self spot1 spot2)
      (Fin (penalised_distance spot1 spot2 * penalised_distance spot1 spot2)) ∧
  feq (dist_metric euclidean self (coords_of_spot spot1) (coords_of_spot spot2))
      (Fin (penalised_distance spot1 spot2 * penalised_distance spot1 spot2)).

End SpecCost.

(** ** Concrete inputs *)

Definition factory0 : Factory := default_factory 20.

(** Two spots at distance 5 (a 3-4-5 triangle), and one at distance 200 of
    the first. *)
Definition spot_a : MidBodySpot :=
  {| frame := 0; x := 0; y := 0; intensity := 100; sir_intensity := 50 |}.
Definition spot_b : MidBodySpot :=
  {| frame := 1; x := 3; y := 4; intensity := 300; sir_intensity := 50 |}.
Definition spot_far : MidBodySpot :=
  {| frame := 1; x := 200; y := 0; intensity := 100; sir_intensity := 50 |}.

(** A track with twelve spots, one per frame from 0 to 11, a shorter one, and
    a mitosis record whose cytokinesis starts at frame 102. *)
Definition spot_at (f : Z) : MidBodySpot :=
  {| frame := f; x := 5; y := 7; intensity := 100; sir_intensity := 50 |}.

Definition long_track : MidBodyTrack :=
  {| track_id := 0; spots := map (λ f, (f, spot_at f)) (seqZ 0 12) |}.

Definition short_track : MidBodyTrack :=
  {| track_id := 1; spots := map (λ f, (f, spot_at f)) (seqZ 0 3) |}.

Definition mitosis0 : MitosisTrack :=
  {| mother_track_id := 1;
     daughter_track_ids := [2];
     min_frame := 100;
     position_min_x := 0;
     position_min_y := 0;
     key_events_frame := {[ "cytokinesis" := 102 ]};
     mid_body_spots := ∅ |}.


(** ** The cost matrix, as the specification words it *)



(** The intensity sums of the pair are positive. *)
Definition positive_sums (spot1 spot2 : MidBodySpot) : Prop :=
  0 < intensity spot1 + intensity spot2 ∧
  0 < sir_intensity spot1 + sir_intensity spot2.


Section SpecMatrix.

Variable euclidean : Q → Q → Q → Q → Q.
Variable self : Factory.
Variables spots1 spots2 : list MidBodySpot.





End SpecMatrix.

Section MaxCost.

Variable euclidean : Q → Q → Q → Q → Q.
Variable self : Factory.



End MaxCost.


(** Spots without signal (both intensities 0), next to each other and far
    apart, and a spot with signal. *)
Definition dark_a : MidBodySpot :=
  {| frame := 0; x := 0; y := 0; intensity := 0; sir_intensity := 0 |}.
Definition dark_far : MidBodySpot :=
  {| frame := 1; x := 200; y := 0; intensity := 0; sir_intensity := 0 |}.

(** The exclusion of a pair beyond the maximum linking distance, as the
    specification words it: whatever the intensities. *)
Definition excluded_whatever_intensities (euclidean : Q → Q → Q → Q → Q)
    (self : Factory) (spot1 spot2 : MidBodySpot) : Prop :=
  (inject_Z (mid_body_linking_max_distance self)
   < distance_to euclidean spot1 spot2)%Q →
  link_cost euclidean self spot1 spot2 = PInf ∧
  ∀ tracking_method lt,
    select_linker euclidean self tracking_method = inr lt →
    fgt (track_dist_metric lt (coords_of_spot spot1) (coords_of_spot spot2))
        (Fin (inject_Z (track_cost_cutoff lt))) = true ∧
    fgt (gap_closing_dist_metric lt (coords_of_spot spot1)
           (coords_of_spot spot2))
        (Fin (inject_Z (gap_closing_cost_cutoff lt))) = true.
(** ** The score of the Selector *)

(** The value of the closure [func_sir_intensity] at a track: the expected
    distance of the track minus half of what [sir_intensity_of] returns for
    it. *)
Definition selector_score (self : Factory) (bits : Z)
    (image_sir : Z → Z → Z → Z)
    (get_expected_distance : MidBodyTrack → fval)
    (mitosis_track : MitosisTrack) (track : MidBodyTrack) : result fval :=
  let! b := sir_intensity_of self bits image_sir mitosis_track track in
  ret (fsub (get_expected_distance track) (fmul (Fin (1 # 2)) b)).

(** A second long track, two pixels away from [long_track], and expected
    distances that depend on the track id alone. *)
Definition other_track : MidBodyTrack :=
  {| track_id := 2;
     spots := map (λ f, (f, {| frame := f; x := 7; y := 7;
                               intensity := 90; sir_intensity := 40 |}))
                  (seqZ 0 14) |}.

Definition distance_by_id (track : MidBodyTrack) : fval :=
  if decide (track_id track = 0) then Fin 30
  else if decide (track_id track = 2) then Fin 4
  else PInf.

(** ** The secondary-channel score, as the specification words it *)

Section SpecSir.

Variable image_sir : Z → Z → Z → Z.
Variable mitosis_track : MitosisTrack.

(** The spots of the track whose absolute frame lies in the window from [lo]
    to [hi]: one per frame of the window that carries a spot, the frame keys
    of a track being distinct. *)
Definition window_spots (lo hi : Z) (track : MidBodyTrack)
    : list (Z * MidBodySpot) :=
  filter (λ kv, lo <= kv.1 + min_frame mitosis_track <= hi) (spots track).

(** The frames of the window from [lo] to [hi] that carry a spot of the
    track. *)
Definition covered_frames (lo hi : Z) (track : MidBodyTrack) : list Z :=
  filter (λ f, f ∈ map (λ kv, kv.1 + min_frame mitosis_track) (spots track))
         (py_range lo (hi + 1)).

(** The sum of the secondary-channel intensities at the locations of the
    spots. *)
Definition sir_sum (l : list (Z * MidBodySpot)) : Z :=
  fold_right (λ kv acc, image_sir kv.1 (y kv.2) (x kv.2) + acc) 0 l.

Definition sir_mean (l : list (Z * MidBodySpot)) : Q :=
  (inject_Z (sir_sum l) / inject_Z (Z.of_nat (length l)))%Q.

End SpecSir.

(** The last frame of the window: half the cytokinesis duration after the
    start of the cytokinesis. *)
Definition window_stop (self : Factory) (cytokinesis_start : Z) : Z :=
  cytokinesis_start + cytokinesis_duration self ÷ 2.

(** The secondary-channel score of a track: [-inf] when fewer than half of
    the frames of the window carry a spot of the track, the mean of the
    secondary channel at the spots of the track in the window otherwise. *)
Definition secondary_score (self : Factory) (image_sir : Z → Z → Z → Z)
    (mitosis_track : MitosisTrack) (cytokinesis_start : Z)
    (track : MidBodyTrack) : fval :=
  let stop := window_stop self cytokinesis_start in
  if decide (2 * Z.of_nat (length (covered_frames mitosis_track
                                     cytokinesis_start stop track))
             < stop - cytokinesis_start + 1)
  then NInf
  else Fin (sir_mean image_sir
              (window_spots mitosis_track cytokinesis_start stop track)).


(** The secondary channel of a movie whose pixel values grow with the frame
    index. *)
Definition ramp_sir (t yy xx : Z) : Z := 10 * t + yy + xx.
(** ** The ranking of the Selector, as the specification words it *)

(** [expected_distance_deviation - 0.5 * mean_secondary_intensity] *)
Definition spec_score (self : Factory) (image_sir : Z → Z → Z → Z)
    (expected_distance : MidBodyTrack → fval) (mitosis_track : MitosisTrack)
    (cytokinesis_start : Z) (track : MidBodyTrack) : fval :=
  fsub (expected_distance track)
       (fmul (Fin (1 # 2))
             (secondary_score self image_sir mitosis_track cytokinesis_start
                track)).


(** Outlines of a mother cell and of a daughter cell: two points each, two
    pairs at the distance 5; an outline of the daughter with one closest
    point; and the outlines frame by frame. *)
Definition mother_outline : list (Q * Q) := [(10, 10); (20, 10)]%Q.
Definition daughter_outline : list (Q * Q) := [(10, 15); (20, 15)]%Q.
Definition daughter_corner : list (Q * Q) := [(13, 14); (30, 30)]%Q.

Definition mother_outlines : gmap Z (list (Q * Q)) :=
  {[ 100 := mother_outline; 101 := mother_outline; 102 := mother_outline ]}.
Definition daughter_outlines : gmap Z (list (Q * Q)) :=
  {[ 101 := daughter_outline; 102 := daughter_corner;
     103 := daughter_corner ]}.

(** The tracks of a mother cell and of its daughter, a mother whose outline
    at the frame 101 has no point, and a pedigree lookup that takes the
    first track of the list for the mother and the others for the
    daughters. *)
Definition mother_cell : TrackMateTrack :=
  {| start := 90; spot_points := mother_outlines |}.
Definition daughter_cell : TrackMateTrack :=
  {| start := 101; spot_points := daughter_outlines |}.

Definition first_is_mother (mitosis_track : MitosisTrack)
    (trackmate_tracks : list TrackMateTrack)
    : result (TrackMateTrack * list TrackMateTrack) :=
  match trackmate_tracks with
  | mother_track :: daughter_tracks => ret (mother_track, daughter_tracks)
  | [] => raise (ValueError "no track of the mother")
  end.

(** Expected distances that depend on the track id alone, whatever the
    expected positions: the stand-ins for [get_expected_distance]. *)
Definition expected_by_id (track : MidBodyTrack)
    (expected_positions : gmap Z (Q * Q)) (max_distance : Z) : fval :=
  distance_by_id track.




(** The pairs of positions in the order of the two loops. *)
Definition position_pairs (mitosis_track : MitosisTrack)
    (mother_points daughter_points : list (Q * Q))
    : list (position * position) :=
  mother_point ← mother_points;
  daughter_point ← daughter_points;
  [(relative_position mitosis_track mother_point,
    relative_position mitosis_track daughter_point)].

(** ** The colours of the saved tracking *)

(** An RGB colour, [mpl.colormaps[...](i)[:3]] or [(0, 0, 0)]. *)
Abbreviation Color := (Q * Q * Q)%type.

(** [MbTrackColorManager] *)
Record MbTrackColorManager : Type := {
  index : nat;
  color_list : list Color;
  id2color : gmap Z Color;
}.

(** [MbTrackColorManager.__init__], over the colour table "tab10" of
    matplotlib. *)
Definition MbTrackColorManager_init (tab10 : Z → Color)
    : MbTrackColorManager :=
  {| index := 0;
     color_list := tab10 <$> py_range 0 10;
     id2color := ∅ |}.

Definition inc_index (self : MbTrackColorManager) : MbTrackColorManager :=
  let index := S (index self) in
  {| index := if decide (length (color_list self) ≤ index)%nat then 0%nat
              else index;
     color_list := color_list self;
     id2color := id2color self |}.

(** [get_color_for_track]: the colour and the manager after the call. *)
Definition get_color_for_track (self : MbTrackColorManager) (id : Z)
    : result (Color * MbTrackColorManager) :=
  match id2color self !! id with
  | Some color => ret (color, self)
  | None =>
      let! new_color := py_getitem (color_list self) (index self) in
      let self := {| index := index self;
                     color_list := color_list self;
                     id2color := <[id := new_color]> (id2color self) |} in
      ret (new_color, inc_index self)
  end.

(** The colours of the spots of one frame in [save_mid_body_tracking], from
    the track ids of the spots ([spot.track_id], an int or None): black for a
    spot without a track. *)
Fixpoint frame_colors (color_lib : MbTrackColorManager)
    (track_ids : list (option Z))
    : result (list Color * MbTrackColorManager) :=
  match track_ids with
  | [] => ret ([], color_lib)
  | track_id :: rest =>
      let! (color, color_lib) :=
        match track_id with
        | Some id => get_color_for_track color_lib id
        | None => ret ((0, 0, 0)%Q, color_lib)
        end in
      let! (colors, color_lib) := frame_colors color_lib rest in
      ret (color :: colors, color_lib)
  end.

(** The loop over the frames of [save_mid_body_tracking]: the colours given
    to [plot_detection] for each frame, and the manager at the end.
    [spots_candidates] maps a frame to the track ids of its spots. *)
Fixpoint frames_colors (color_lib : MbTrackColorManager)
    (spots_candidates : gmap Z (list (option Z))) (frames : list Z)
    : result (list (list Color) * MbTrackColorManager) :=
  match frames with
  | [] => ret ([], color_lib)
  | frame :: rest =>
      match spots_candidates !! frame with
      | None => raise (KeyError "frame")
      | Some track_ids =>
          let! (colors, color_lib) := frame_colors color_lib track_ids in
          let! (all_colors, color_lib) :=
            frames_colors color_lib spots_candidates rest in
          ret (colors :: all_colors, color_lib)
      end
  end.

Definition save_mid_body_tracking (tab10 : Z → Color)
    (spots_candidates : gmap Z (list (option Z))) (nb_frames : Z)
    : result (list (list Color) * MbTrackColorManager) :=
  frames_colors (MbTrackColorManager_init tab10) spots_candidates
                (py_range 0 nb_frames).

(** The colour a dictionary [id2color] gives a spot: black without a track. *)
Definition color_of (id2color : gmap Z Color) (track_id : option Z)
    : option Color :=
  match track_id with
  | Some id => id2color !! id
  | None => Some (0, 0, 0)%Q
  end.

(** ** More concrete inputs *)

(** [spot_b] moved to twice its distance from [spot_a]. *)
Definition spot_b2 : MidBodySpot :=
  {| frame := 1; x := 6; y := 8; intensity := 300; sir_intensity := 50 |}.

(** An assignment that links every row to the column of the same index. *)
Definition diagonal_assignment (m : matrix) : result (list (nat * nat)) :=
  ret (imap (λ i _, (i, i)) m).

(** Stand-ins for the image types and the external detectors: an image
    without content, detectors that find nothing, a crop of three pixels and
    two positions for the branch "h_maxima". *)
Definition no_detection : DetectionModule unit :=
  {| current_log := λ _, []; current_dog := λ _, []; current_doh := λ _, [];
     lapgau := λ _, []; log2_wider := λ _, []; rshift_log := λ _, [];
     diffgau := λ _, []; hessian := λ _, [] |}.

Definition some_detection : DetectionModule unit :=
  {| current_log := λ _, []; current_dog := λ _, [];
     current_doh := λ _, [[1; 2; 3]%Q];
     lapgau := λ _, []; log2_wider := λ _, [];
     rshift_log := λ _, [[4; 5; 6]%Q];
     diffgau := λ _, [[7; 8; 9]%Q]; hessian := λ _, [] |}.

Definition unit_channel (image : unit) (c : Z) : unit := image.

Definition crop3 (image : unit) (margin x0 y0 x1 y1 : Z) : list Q :=
  [1; 2; 4]%Q.

Definition two_positions (self : Factory) (image : unit)
    : result (list (list Z)) :=
  ret [[3; 4]; [5; 6]].

Definition no_bigfish (self : Factory) (image : unit) (mask : unit)
    : result (list (list Z)) :=
  ret [].

(** The spots the branch "h_maxima" makes of [two_positions] with the crop
    [crop3], at a frame. *)
Definition two_spots (frame_index : Z) : list MidBodySpot :=
  [ {| frame := frame_index; x := 4; y := 3;
       intensity := 2; sir_intensity := 2 |};
    {| frame := frame_index; x := 6; y := 5;
       intensity := 2; sir_intensity := 2 |} ].

(** A mitosis record without the key event "cytokinesis". *)
Definition mitosis_no_event : MitosisTrack :=
  {| mother_track_id := 1;
     daughter_track_ids := [2];
     min_frame := 100;
     position_min_x := 0;
     position_min_y := 0;
     key_events_frame := ∅;
     mid_body_spots := ∅ |}.

(** A copy of [long_track] under another id. *)
Definition twin_track : MidBodyTrack :=
  {| track_id := 5; spots := spots long_track |}.

(** Expected distances that make [long_track] and its twin score the same,
    and [other_track] score worse. *)
Definition distance_tie (track : MidBodyTrack) : fval :=
  if decide (track_id track = 2) then Fin 100 else Fin 30.

(** A colour table of shades of red, and the track ids of the spots of two
    frames: the track 7 has a spot in both. *)
Definition red_shades (i : Z) : Color := (inject_Z i / 10, 0, 0)%Q.

Definition two_frames_ids : gmap Z (list (option Z)) :=
  {[ 0 := [Some 7; None; Some 3]; 1 := [Some 3; Some 7; Some 8] ]}.


(** A track without spot, and a linker that returns [long_track] and
    [short_track] whatever it is given. *)
Definition empty_track : MidBodyTrack := {| track_id := 9; spots := [] |}.

Definition two_tracks_predictor (lt : Linker) (spots_df : list (Z * coords))
    (spots_candidates : list (Z * list MidBodySpot))
    : result (list MidBodyTrack) :=
  ret [long_track; short_track].

(** * Properties *)

(** ** Floats *)

Lemma feq_refl a : feq a a.
Proof. destruct a; simpl; auto; reflexivity. Qed.


Lemma feq_trans a b c : feq a b → feq b c → feq a c.
Proof.
  destruct a, b, c; simpl; auto; try contradiction.
  intros H1 H2. rewrite H1. exact H2.
Qed.

Lemma Qeq_bool_false p q : ¬ (p == q)%Q → Qeq_bool p q = false.
Proof.
  intros H. destruct (Qeq_bool p q) eqn:E; [|reflexivity].
  exfalso. apply H. apply Qeq_bool_iff. exact E.
Qed.

Lemma Qle_bool_false p q : (q < p)%Q → Qle_bool p q = false.
Proof.
  intros H. destruct (Qle_bool p q) eqn:E; [|reflexivity].
  apply Qle_bool_iff in E. lra.
Qed.

Lemma Qle_bool_true p q : (p <= q)%Q → Qle_bool p q = true.
Proof. intros H. apply Qle_bool_iff. exact H. Qed.

Lemma flt_Fin p q : flt (Fin p) (Fin q) = true ↔ (p < q)%Q.
Proof.
  simpl. split.
  - intros H. apply negb_true_iff in H.
    destruct (Qlt_le_dec p q) as [Hlt|Hle]; [exact Hlt|].
    apply Qle_bool_true in Hle. congruence.
  - intros H. apply negb_true_iff. apply Qle_bool_false. exact H.
Qed.

Lemma flt_Fin_false p q : flt (Fin p) (Fin q) = false ↔ (q <= p)%Q.
Proof.
  simpl. rewrite negb_false_iff. apply Qle_bool_iff.
Qed.

Lemma Qeq_bool_feq p q r : (p == q)%Q → Qeq_bool p r = Qeq_bool q r.
Proof.
  intros H. destruct (Qeq_bool q r) eqn:E.
  - apply Qeq_bool_iff. apply Qeq_bool_iff in E. rewrite H. exact E.
  - apply Qeq_bool_false. apply Qeq_bool_neq in E. rewrite H. exact E.
Qed.

Lemma Qle_bool_feq p p' q q' :
  (p == p')%Q → (q == q')%Q → Qle_bool p q = Qle_bool p' q'.
Proof.
  intros Hp Hq. destruct (Qle_bool p' q') eqn:E.
  - apply Qle_bool_iff. apply Qle_bool_iff in E. rewrite Hp, Hq. exact E.
  - destruct (Qle_bool p q) eqn:E'; [|reflexivity].
    apply Qle_bool_iff in E'. rewrite Hp, Hq in E'.
    apply Qle_bool_iff in E'. congruence.
Qed.

Lemma inf_signed_feq s p q : (p == q)%Q → inf_signed s p = inf_signed s q.
Proof. intros H. unfold inf_signed. rewrite H. reflexivity. Qed.

Lemma fadd_feq a a' b b' : feq a a' → feq b b' → feq (fadd a b) (fadd a' b').
Proof.
  destruct a, a', b, b'; simpl; try contradiction; auto.
  intros H1 H2. rewrite H1, H2. reflexivity.
Qed.

Lemma fmul_feq a a' b b' : feq a a' → feq b b' → feq (fmul a b) (fmul a' b').
Proof.
  destruct a, a', b, b'; cbn [feq fmul]; try contradiction; auto;
    try (intros H1 H2; first [rewrite (inf_signed_feq _ _ _ H1)
                             |rewrite (inf_signed_feq _ _ _ H2)];
         apply feq_refl).
  intros H1 H2. rewrite H1, H2. reflexivity.
Qed.

Lemma fdiv_feq a a' b b' : feq a a' → feq b b' → feq (fdiv a b) (fdiv a' b').
Proof.
  destruct a, a', b, b'; cbn [feq fdiv]; try contradiction; auto;
    try reflexivity.
  - intros H1 H2. rewrite (Qeq_bool_feq _ _ _ H2).
    destruct (Qeq_bool q2 0) eqn:E.
    + rewrite (inf_signed_feq _ _ _ H1). apply feq_refl.
    + simpl. rewrite H1, H2. reflexivity.
  - intros _ H. rewrite (Qle_bool_feq 0 0 _ _ (Qeq_refl 0) H).
    destruct (Qle_bool 0 q0); exact I.
  - intros _ H. rewrite (Qle_bool_feq 0 0 _ _ (Qeq_refl 0) H).
    destruct (Qle_bool 0 q0); exact I.
Qed.

Lemma flt_feq a a' b b' : feq a a' → feq b b' → flt a b = flt a' b'.
Proof.
  destruct a, a', b, b'; simpl; try contradiction; auto.
  intros H1 H2. f_equal. apply Qle_bool_feq; assumption.
Qed.

(** ** Link costs *)

Section LinkCostFacts.

Variable euclidean : Q → Q → Q → Q → Q.
Variable self : Factory.

Lemma relative_penalty_defined w a b :
  ¬ (a + b == 0)%Q →
  relative_penalty w a b = Fin (3 * w * Qabs (a - b) / (a + b))%Q.
Proof.
  intros H. unfold relative_penalty, fdiv.
  rewrite (Qeq_bool_false _ _ H). reflexivity.
Qed.

Lemma relative_penalty_nonneg w a b :
  (0 <= w)%Q → (0 < a + b)%Q →
  (0 <= 3 * w * Qabs (a - b) / (a + b))%Q.
Proof.
  intros Hw Hs. apply Qle_shift_div_l; [exact Hs|].
  pose proof (Qabs_nonneg (a - b)) as Ha.
  rewrite Qmult_0_l.
  apply Qmult_le_0_compat; [|exact Ha].
  apply Qmult_le_0_compat; [lra|exact Hw].
Qed.

Lemma inject_Z_sum_nonzero (a b : Z) :
  a + b ≠ 0 → ¬ (inject_Z a + inject_Z b == 0)%Q.
Proof.
  intros H E. rewrite <- inject_Z_plus in E.
  apply H. apply (inject_Z_injective (a + b) 0). exact E.
Qed.

Lemma inject_Z_sum_pos (a b : Z) :
  0 < a + b → (0 < inject_Z a + inject_Z b)%Q.
Proof.
  intros H. rewrite <- inject_Z_plus.
  change 0%Q with (inject_Z 0). rewrite <- Zlt_Qlt. exact H.
Qed.

(** Within the maximum linking distance the cell of the cost matrix holds
    the penalised distance itself. *)
Lemma link_cost_within (spot1 spot2 : MidBodySpot) :
  (distance_to euclidean spot1 spot2
   <= inject_Z (mid_body_linking_max_distance self))%Q →
  intensity spot1 + intensity spot2 ≠ 0 →
  sir_intensity spot1 + sir_intensity spot2 ≠ 0 →
  feq (link_cost euclidean self spot1 spot2)
      (Fin (penalised_distance euclidean self spot1 spot2)).
Proof.
  intros Hd Hi Hs. unfold link_cost, fgt.
  assert (flt (Fin (inject_Z (mid_body_linking_max_distance self)))
              (Fin (distance_to euclidean spot1 spot2)) = false) as ->
    by (apply flt_Fin_false; exact Hd).
  rewrite !relative_penalty_defined by (apply inject_Z_sum_nonzero; assumption).
  cbn [fadd fmul fpow feq].
  unfold penalised_distance, primary_penalty, secondary_penalty. ring.
Qed.

(** Beyond it the cell is infinite, whatever the intensities. *)
Lemma link_cost_beyond (spot1 spot2 : MidBodySpot) :
  (inject_Z (mid_body_linking_max_distance self)
   < distance_to euclidean spot1 spot2)%Q →
  link_cost euclidean self spot1 spot2 = PInf.
Proof.
  intros Hd. unfold link_cost, fgt.
  assert (flt (Fin (inject_Z (mid_body_linking_max_distance self)))
              (Fin (distance_to euclidean spot1 spot2)) = true) as ->
    by (apply flt_Fin; exact Hd).
  reflexivity.
Qed.

(** The metric of the track builder is the square of the penalised distance,
    at every distance. *)
Lemma dist_metric_spots (spot1 spot2 : MidBodySpot) :
  intensity spot1 + intensity spot2 ≠ 0 →
  sir_intensity spot1 + sir_intensity spot2 ≠ 0 →
  feq (dist_metric euclidean self (coords_of_spot spot1) (coords_of_spot spot2))
      (Fin (penalised_distance euclidean self spot1 spot2
            * penalised_distance euclidean self spot1 spot2)).
Proof.
  intros Hi Hs. unfold dist_metric, coords_of_spot.
  rewrite !relative_penalty_defined by (apply inject_Z_sum_nonzero; assumption).
  cbn [fadd fmul fpow feq].
  unfold penalised_distance, primary_penalty, secondary_penalty, distance_to.
  ring.
Qed.

End LinkCostFacts.

(** C1 (as amended): for a pair of spots within the maximum linking distance
    whose intensity sums are not zero, the cell of the frame-to-frame cost
    matrix is [distance * (1 + primary_penalty + secondary_penalty)], not
    squared, and the metric of the track builder is the square of that
    value. *)
Theorem link_cost_of_each_path euclidean self (spot1 spot2 : MidBodySpot) :
  (distance_to euclidean spot1 spot2
   <= inject_Z (mid_body_linking_max_distance self))%Q →
  intensity spot1 + intensity spot2 ≠ 0 →
  sir_intensity spot1 + sir_intensity spot2 ≠ 0 →
  feq (link_cost euclidean self spot1 spot2)
      (Fin (penalised_distance euclidean self spot1 spot2)) ∧
  feq (dist_metric euclidean self (coords_of_spot spot1) (coords_of_spot spot2))
      (Fin (penalised_distance euclidean self spot1 spot2
            * penalised_distance euclidean self spot1 spot2)).
Proof.
  intros Hd Hi Hs. split.
  - apply link_cost_within; assumption.
  - apply dist_metric_spots; assumption.
Qed.

(** C1 (as amended) at the spots [spot_a] and [spot_b], 5 pixels apart. *)
Lemma link_cost_of_each_path_witness :
  feq (link_cost grid_euclidean factory0 spot_a spot_b)
      (Fin (penalised_distance grid_euclidean factory0 spot_a spot_b)) ∧
  feq (dist_metric grid_euclidean factory0
         (coords_of_spot spot_a) (coords_of_spot spot_b))
      (Fin (penalised_distance grid_euclidean factory0 spot_a spot_b
            * penalised_distance grid_euclidean factory0 spot_a spot_b)).
Proof.
  apply (link_cost_of_each_path grid_euclidean factory0 spot_a spot_b).
  - vm_compute. discriminate.
  - vm_compute. discriminate.
  - vm_compute. discriminate.
Defined.

(** C1 (counterexample): at distance 5 with primary intensities 100 and 300
    the cell of the cost matrix is 42.5, and the squared formula would make
    it 1806.25. *)
Lemma link_cost_not_squared :
  feq (link_cost grid_euclidean factory0 spot_a spot_b) (Fin (85 # 2)) ∧
  (penalised_distance grid_euclidean factory0 spot_a spot_b
   * penalised_distance grid_euclidean factory0 spot_a spot_b == 7225 # 4)%Q ∧
  ¬ squared_in_both_paths grid_euclidean factory0 spot_a spot_b.
Proof.
  split; [vm_compute; reflexivity|].
  split; [vm_compute; reflexivity|].
  intros H. destruct H as [H _]; [vm_compute; discriminate|].
  vm_compute in H. discriminate H.
Qed.

(** ** The linking backend *)

(** C3 (as amended): when no linking-method name is given the Track Builder
    takes the method name "laptrack" and builds the basic linker, with the
    squared maximum distance as both cutoffs and gaps of at most 2 frames. *)
Theorem default_linker_is_basic euclidean self :
  default_tracking_method = "laptrack" ∧
  ∃ lt, linker_in_use euclidean self None None = inr lt ∧
        linker_type lt = LapTrack ∧
        track_cost_cutoff lt = mid_body_linking_max_distance self ^ 2 ∧
        gap_closing_cost_cutoff lt = mid_body_linking_max_distance self ^ 2 ∧
        gap_closing_max_frame_count lt = 2.
Proof.
  split; [reflexivity|].
  eexists. split; [reflexivity|]. simpl. auto.
Qed.

(** C3 (counterexample): with the default factory and no method name the
    linker in use is the basic one, so it is not the spatial one. *)
Lemma default_linker_not_spatial :
  (∃ lt, linker_in_use grid_euclidean factory0 None None = inr lt ∧
         linker_type lt = LapTrack) ∧
  ¬ (∃ lt, linker_in_use grid_euclidean factory0 None None = inr lt ∧
           linker_type lt = SpatialLapTrack).
Proof.
  split.
  - eexists. split; reflexivity.
  - intros [lt [H1 H2]]. unfold linker_in_use in H1. simpl in H1.
    injection H1 as <-. discriminate H2.
Qed.

(** The spatial linker is built for its name only. *)
Lemma select_linker_spatial euclidean self name lt :
  select_linker euclidean self name = inr lt →
  linker_type lt = SpatialLapTrack →
  name = "spatial_laptrack".
Proof.
  unfold select_linker.
  destruct (String.eqb name "laptrack") eqn:E1.
  - intros [= <-]. discriminate.
  - destruct (String.eqb name "spatial_laptrack") eqn:E2.
    + intros _ _. apply String.eqb_eq. exact E2.
    + discriminate.
Qed.

Lemma select_linker_cases euclidean self name lt :
  select_linker euclidean self name = inr lt →
  track_dist_metric lt = dist_metric euclidean self ∧
  gap_closing_dist_metric lt = dist_metric euclidean self ∧
  gap_closing_cost_cutoff lt = track_cost_cutoff lt ∧
  (track_cost_cutoff lt = mid_body_linking_max_distance self ^ 2 ∨
   track_cost_cutoff lt = mid_body_linking_max_distance self).
Proof.
  unfold select_linker.
  destruct (String.eqb name "laptrack").
  - intros [= <-]. simpl. auto.
  - destruct (String.eqb name "spatial_laptrack").
    + intros [= <-]. simpl. auto.
    + discriminate.
Qed.

(** An unknown name is refused. *)
Lemma select_linker_unknown euclidean self name :
  name ≠ "laptrack" → name ≠ "spatial_laptrack" →
  select_linker euclidean self name
  = inl (RuntimeError ("Invalid tracking method '" ++ name ++ "'")).
Proof.
  intros H1 H2. unfold select_linker.
  apply String.eqb_neq in H1, H2. rewrite H1, H2. reflexivity.
Qed.

(** ** Pairs beyond the maximum linking distance *)

Section Beyond.

Variable euclidean : Q → Q → Q → Q → Q.
Variable self : Factory.

Lemma dist_metric_value (spot1 spot2 : MidBodySpot) :
  intensity spot1 + intensity spot2 ≠ 0 →
  sir_intensity spot1 + sir_intensity spot2 ≠ 0 →
  dist_metric euclidean self (coords_of_spot spot1) (coords_of_spot spot2)
  = Fin (let v := (distance_to euclidean spot1 spot2
                   * (1 + secondary_penalty self spot1 spot2
                      + primary_penalty self spot1 spot2))%Q in v * v)%Q.
Proof.
  intros Hi Hs. unfold dist_metric, coords_of_spot.
  rewrite !relative_penalty_defined by (apply inject_Z_sum_nonzero; assumption).
  reflexivity.
Qed.

Lemma penalties_nonneg (spot1 spot2 : MidBodySpot) :
  (0 <= weight_mklp_intensity_factor self)%Q →
  (0 <= weight_sir_intensity_factor self)%Q →
  0 < intensity spot1 + intensity spot2 →
  0 < sir_intensity spot1 + sir_intensity spot2 →
  (0 <= primary_penalty self spot1 spot2)%Q ∧
  (0 <= secondary_penalty self spot1 spot2)%Q.
Proof.
  intros Hw1 Hw2 Hi Hs. split.
  - apply relative_penalty_nonneg; [exact Hw1|]. apply inject_Z_sum_pos, Hi.
  - apply relative_penalty_nonneg; [exact Hw2|]. apply inject_Z_sum_pos, Hs.
Qed.

Lemma square_exceeds_cutoffs (m : Z) (d p : Q) :
  0 <= m → (inject_Z m < d)%Q → (1 <= p)%Q →
  (inject_Z (m ^ 2) < d * p * (d * p))%Q ∧ (inject_Z m < d * p * (d * p))%Q.
Proof.
  intros Hm Hd Hp.
  assert (0 <= inject_Z m)%Q as Hm'
    by (change 0%Q with (inject_Z 0); rewrite <- Zle_Qle; exact Hm).
  assert (inject_Z m < d * p)%Q as Hdp by nra.
  split.
  - rewrite Z.pow_2_r, inject_Z_mult. nra.
  - destruct (Z.eq_dec m 0) as [->|Hne].
    + change (inject_Z 0) with 0%Q in *. nra.
    + assert (1 <= inject_Z m)%Q
        by (change 1%Q with (inject_Z 1); rewrite <- Zle_Qle; lia).
      nra.
Qed.

End Beyond.

(** C6 (as amended): a pair of spots whose distance exceeds the maximum
    linking distance has an infinite cell in the frame-to-frame cost matrix,
    whatever the intensities; and when the maximum distance and the weights
    are non-negative and the two intensity sums of the pair are positive, its
    cost under the metric of the track builder exceeds the cutoffs of the
    linker, for either linking method. *)
Theorem beyond_max_distance_excluded euclidean self
    (spot1 spot2 : MidBodySpot) :
  (inject_Z (mid_body_linking_max_distance self)
   < distance_to euclidean spot1 spot2)%Q →
  link_cost euclidean self spot1 spot2 = PInf ∧
  (0 <= mid_body_linking_max_distance self →
   (0 <= weight_mklp_intensity_factor self)%Q →
   (0 <= weight_sir_intensity_factor self)%Q →
   0 < intensity spot1 + intensity spot2 →
   0 < sir_intensity spot1 + sir_intensity spot2 →
   ∀ tracking_method lt,
     select_linker euclidean self tracking_method = inr lt →
     fgt (track_dist_metric lt (coords_of_spot spot1) (coords_of_spot spot2))
         (Fin (inject_Z (track_cost_cutoff lt))) = true ∧
     fgt (gap_closing_dist_metric lt (coords_of_spot spot1)
            (coords_of_spot spot2))
         (Fin (inject_Z (gap_closing_cost_cutoff lt))) = true).
Proof.
  intros Hd. split.
  - apply link_cost_beyond. exact Hd.
  - intros Hm Hw1 Hw2 Hi Hs name lt Hlt.
    destruct (select_linker_cases _ _ _ _ Hlt) as (-> & -> & -> & Hcut).
    destruct (penalties_nonneg self spot1 spot2 Hw1 Hw2 Hi Hs) as [Hp1 Hp2].
    rewrite dist_metric_value by lia. cbv zeta. unfold fgt.
    destruct (square_exceeds_cutoffs (mid_body_linking_max_distance self)
                (distance_to euclidean spot1 spot2)
                (1 + secondary_penalty self spot1 spot2
                 + primary_penalty self spot1 spot2)%Q Hm Hd) as [H2 H1];
      [lra|].
    assert (flt (Fin (inject_Z (track_cost_cutoff lt)))
              (Fin (distance_to euclidean spot1 spot2
                    * (1 + secondary_penalty self spot1 spot2
                       + primary_penalty self spot1 spot2)
                    * (distance_to euclidean spot1 spot2
                       * (1 + secondary_penalty self spot1 spot2
                          + primary_penalty self spot1 spot2)))%Q) = true)
      as Hgoal by (apply flt_Fin; destruct Hcut as [-> | ->]; assumption).
    split; exact Hgoal.
Qed.

(** C6 (as amended) at the spots [spot_a] and [spot_far], 200 pixels apart,
    with the default maximum distance of 175. *)
Lemma beyond_max_distance_excluded_witness :
  link_cost grid_euclidean factory0 spot_a spot_far = PInf ∧
  (0 <= mid_body_linking_max_distance factory0 →
   (0 <= weight_mklp_intensity_factor factory0)%Q →
   (0 <= weight_sir_intensity_factor factory0)%Q →
   0 < intensity spot_a + intensity spot_far →
   0 < sir_intensity spot_a + sir_intensity spot_far →
   ∀ tracking_method lt,
     select_linker grid_euclidean factory0 tracking_method = inr lt →
     fgt (track_dist_metric lt (coords_of_spot spot_a)
            (coords_of_spot spot_far))
         (Fin (inject_Z (track_cost_cutoff lt))) = true ∧
     fgt (gap_closing_dist_metric lt (coords_of_spot spot_a)
            (coords_of_spot spot_far))
         (Fin (inject_Z (gap_closing_cost_cutoff lt))) = true).
Proof.
  apply (beyond_max_distance_excluded grid_euclidean factory0 spot_a spot_far).
  vm_compute. reflexivity.
Defined.

(** The five conditions of C6 hold at [spot_a] and [spot_far], so that its
    second part applies to them. *)
Example beyond_max_distance_conditions :
  0 <= mid_body_linking_max_distance factory0 ∧
  (0 <= weight_mklp_intensity_factor factory0)%Q ∧
  (0 <= weight_sir_intensity_factor factory0)%Q ∧
  0 < intensity spot_a + intensity spot_far ∧
  0 < sir_intensity spot_a + sir_intensity spot_far.
Proof. repeat split; vm_compute; (reflexivity || discriminate). Qed.

(** C6 (counterexample): two spots without signal, 200 pixels apart.  The
    cell of the cost matrix is infinite, but the metric of the track builder
    is NaN (0/0 in the penalty), and NaN exceeds no cutoff. *)
Lemma beyond_max_distance_nan :
  link_cost grid_euclidean factory0 dark_a dark_far = PInf ∧
  dist_metric grid_euclidean factory0 (coords_of_spot dark_a)
    (coords_of_spot dark_far) = NaN ∧
  ¬ excluded_whatever_intensities grid_euclidean factory0 dark_a dark_far.
Proof.
  split; [vm_compute; reflexivity|].
  split; [vm_compute; reflexivity|].
  intros H. destruct H as [_ H]; [vm_compute; reflexivity|].
  destruct (H "laptrack" _ eq_refl) as [H1 _].
  vm_compute in H1. discriminate H1.
Qed.

(** ** Spot detection *)

Lemma convert_blob_raises (spot : blob) : raises (convert_blob spot).
Proof.
  unfold convert_blob, raises, py_getitem, py_int_base.
  destruct spot as [|s0 [|s1 [|s2 rest]]]; simpl; eauto.
  case_decide; simpl; eauto.
Qed.

Lemma mapE_head_raises {A B} (f : A → result B) (a : A) (l : list A) :
  raises (f a) → raises (mapE f (a :: l)).
Proof. intros [e He]. exists e. simpl. rewrite He. reflexivity. Qed.

Lemma mapE_nil {A B} (f : A → result B) : mapE f [] = inr [].
Proof. reflexivity. Qed.

Section SpotDetectionFacts.

Variables Image Image2D Mask : Type.
Variable channel : Image → Z → Image2D.
Variable detection : DetectionModule Image2D.
Variable bigfish_spots : Factory → Image2D → Mask → result (list (list Z)).
Variable h_maxima_spots : Factory → Image2D → result (list (list Z)).
Variable smart_cropping : Image2D → Z → Z → Z → Z → Z → list Q.
Variable self : Factory.

Let spot_detection :=
  _spot_detection Image Image2D Mask channel detection bigfish_spots
    h_maxima_spots smart_cropping self.

(** Whatever a callable strategy returns, one blob is enough to make the
    conversion of its output raise. *)
Lemma callable_with_blob_raises image mask c1 c2 frame log
    (f : Image2D → list blob) :
  f (channel image c1) ≠ [] →
  raises (spot_detection image mask c1 c2 (ModeCallable f) frame log).
Proof.
  intros Hne. unfold spot_detection, _spot_detection.
  destruct (f (channel image c1)) as [|spot rest] eqn:E; [congruence|].
  destruct (mapE_head_raises convert_blob spot rest (convert_blob_raises spot))
    as [e He].
  exists e. rewrite He. reflexivity.
Qed.

(** A callable strategy that finds nothing yields no spot. *)
Lemma callable_without_blob image mask c1 c2 frame log
    (f : Image2D → list blob) :
  f (channel image c1) = [] →
  spot_detection image mask c1 c2 (ModeCallable f) frame log = inr [].
Proof.
  intros E. unfold spot_detection, _spot_detection. rewrite E.
  destruct log; reflexivity.
Qed.

(** The same conversion follows the named blob detectors. *)
Lemma named_blob_detector_raises image mask c1 c2 frame log name detector :
  name ∈ blob_like_names →
  mapping Image2D detection !! name = Some detector →
  detector (channel image c1) ≠ [] →
  raises (spot_detection image mask c1 c2 (ModeName name) frame log).
Proof.
  intros Hin Hmap Hne. unfold spot_detection, _spot_detection.
  rewrite bool_decide_eq_true_2 by exact Hin. rewrite Hmap.
  destruct (detector (channel image c1)) as [|spot rest] eqn:E; [congruence|].
  destruct (mapE_head_raises convert_blob spot rest (convert_blob_raises spot))
    as [e He].
  exists e. rewrite He. reflexivity.
Qed.

(** A name outside the tested list and different from "bigfish" and
    "h_maxima" is an unknown mode. *)
Lemma unknown_mode image mask c1 c2 frame log name :
  name ∉ blob_like_names → name ≠ "bigfish" → name ≠ "h_maxima" →
  spot_detection image mask c1 c2 (ModeName name) frame log
  = inl (ValueError ("Unknown mode: " ++ name)).
Proof.
  intros Hnot Hb Hh. unfold spot_detection, _spot_detection.
  rewrite bool_decide_eq_false_2 by exact Hnot.
  apply String.eqb_neq in Hb, Hh. rewrite Hb, Hh. reflexivity.
Qed.

End SpotDetectionFacts.

(** C2 (the code at the failing input): the built-in names "diffgau" and
    "cur_doh" are refused as unknown modes, and "shifted_centered_log" passes
    the membership test but has no entry in the dictionary of detectors. *)
Theorem built_in_names_refused Image Image2D Mask channel detection
    bigfish_spots h_maxima_spots smart_cropping self
    image mask c1 c2 frame log :
  _spot_detection Image Image2D Mask channel detection bigfish_spots
    h_maxima_spots smart_cropping self image mask c1 c2
    (ModeName "diffgau") frame log
  = inl (ValueError "Unknown mode: diffgau") ∧
  _spot_detection Image Image2D Mask channel detection bigfish_spots
    h_maxima_spots smart_cropping self image mask c1 c2
    (ModeName "cur_doh") frame log
  = inl (ValueError "Unknown mode: cur_doh") ∧
  _spot_detection Image Image2D Mask channel detection bigfish_spots
    h_maxima_spots smart_cropping self image mask c1 c2
    (ModeName "shifted_centered_log") frame log
  = inl (KeyError "shifted_centered_log").
Proof.
  split; [|split].
  - apply unknown_mode; [|discriminate|discriminate].
    intros H. apply (bool_decide_pack _) in H. vm_compute in H. exact H.
  - apply unknown_mode; [|discriminate|discriminate].
    intros H. apply (bool_decide_pack _) in H. vm_compute in H. exact H.
  - unfold _spot_detection.
    rewrite bool_decide_eq_true_2
      by (apply (bool_decide_unpack _); vm_compute; exact I).
    reflexivity.
Qed.

(** C4 (the code at the failing input): with the callable strategy that
    returns the single blob [(3.0, 4.0, 2.0)], spot detection raises
    [TypeError]. *)
Theorem callable_strategy_raises Image Image2D Mask channel detection
    bigfish_spots h_maxima_spots smart_cropping self
    image mask c1 c2 frame log :
  _spot_detection Image Image2D Mask channel detection bigfish_spots
    h_maxima_spots smart_cropping self image mask c1 c2
    (ModeCallable (λ _, [[3; 4; 2]%Q])) frame log
  = inl TypeError.
Proof. reflexivity. Qed.

(** ** The length filter *)

Lemma length_filter_idempotent self tracks :
  length_filter self (length_filter self tracks) = length_filter self tracks.
Proof.
  unfold length_filter. induction tracks as [|t l IH]; [reflexivity|].
  rewrite filter_cons. case_decide as Ht; [|exact IH].
  rewrite filter_cons. rewrite decide_True by exact Ht. f_equal. exact IH.
Qed.

(** ** The Assembler *)

Lemma keep_spots_fold track m :
  keep_spots (Some track) m = fold_left keep_step (spots track) m.
Proof. reflexivity. Qed.

Lemma keep_fold_frame l m :
  let m' := fold_left keep_step l m in
  mother_track_id m' = mother_track_id m ∧
  daughter_track_ids m' = daughter_track_ids m ∧
  min_frame m' = min_frame m ∧
  position_min_x m' = position_min_x m ∧
  position_min_y m' = position_min_y m ∧
  key_events_frame m' = key_events_frame m.
Proof.
  revert m. induction l as [|[r s] l IH]; intros m; simpl; [tauto|].
  specialize (IH (keep_step m (r, s))). simpl in IH. exact IH.
Qed.

Lemma keep_fold_other l m (f : Z) :
  (∀ kv, kv ∈ l → f ≠ kv.1 + min_frame m) →
  mid_body_spots (fold_left keep_step l m) !! f = mid_body_spots m !! f.
Proof.
  revert m. induction l as [|[r s] l IH]; intros m Hf; simpl; [reflexivity|].
  rewrite IH.
  - simpl. apply lookup_insert_ne. intros E. apply (Hf (r, s)); [left|].
    symmetry. exact E.
  - intros kv' Hin. simpl. apply Hf. right. exact Hin.
Qed.

Lemma keep_fold_written l m rel spot :
  NoDup (map fst l) → (rel, spot) ∈ l →
  mid_body_spots (fold_left keep_step l m) !! (rel + min_frame m) = Some spot.
Proof.
  revert m. induction l as [|[r s] l IH]; intros m Hnd Hin; simpl.
  - inversion Hin.
  - simpl in Hnd. apply NoDup_cons in Hnd as [Hfresh Hnd].
    apply elem_of_cons in Hin as [[= <- <-]|Hin].
    + rewrite keep_fold_other.
      * simpl. apply lookup_insert_eq.
      * intros kv' Hin' E. simpl in E. apply Hfresh.
        apply list_elem_of_fmap. exists kv'. split; [|exact Hin']. simpl. lia.
    + specialize (IH (keep_step m (r, s)) Hnd Hin). simpl in IH. exact IH.
Qed.


(** ** The secondary-channel score *)

Lemma filter_none {A} (P : A → Prop) `{!∀ x, Decision (P x)} (l : list A) :
  (∀ x, x ∈ l → ¬ P x) → filter P l = [].
Proof.
  induction l as [|a l IH]; intros Hall; [reflexivity|].
  rewrite filter_cons_False by (apply Hall; left).
  apply IH. intros x Hx. apply Hall. right. exact Hx.
Qed.

Section SirScore.

Variable self : Factory.
Variable bits : Z.
Variable image_sir : Z → Z → Z → Z.
Variable get_expected_distance : MidBodyTrack → fval.
Variable mitosis_track : MitosisTrack.

Let mf := min_frame mitosis_track.
Let abs_frame (kv : Z * MidBodySpot) : Z := kv.1 + mf.

(** With distinct keys, the frame [a] selects the spot the dictionary holds
    for it, and nothing else. *)
Lemma spot_of_frame (l : list (Z * MidBodySpot)) (a : Z) :
  NoDup (map fst l) →
  a ∈ map abs_frame l →
  ∃ i spot, list_find (λ kv, kv.1 = a - mf) l = Some (i, (a - mf, spot)) ∧
            filter (λ kv, abs_frame kv = a) l = [(a - mf, spot)].
Proof.
  induction l as [|[k s] l IH]; intros Hnd Hin; [inversion Hin|].
  simpl in Hnd. apply NoDup_cons in Hnd as [Hfresh Hnd].
  rewrite filter_cons. unfold abs_frame at 1. simpl.
  destruct (decide (k + mf = a)) as [E|E].
  - assert (k = a - mf) as -> by lia.
    rewrite decide_True by reflexivity.
    exists 0%nat, s. split; [reflexivity|]. f_equal.
    apply filter_none. intros [k' s'] Hin' E'.
    apply Hfresh. apply list_elem_of_fmap. exists (k', s').
    split; [|exact Hin'].
    unfold abs_frame in E'. simpl in *. lia.
  - rewrite decide_False by lia.
    simpl in Hin. apply elem_of_cons in Hin as [Hin|Hin];
      [unfold abs_frame in Hin; simpl in Hin; lia|].
    destruct (IH Hnd Hin) as (i & spot & Hfind & Hfilter).
    exists (S i), spot. rewrite Hfind. split; [reflexivity|exact Hfilter].
Qed.

Lemma no_spot_of_frame (l : list (Z * MidBodySpot)) (a : Z) :
  a ∉ map abs_frame l → filter (λ kv, abs_frame kv = a) l = [].
Proof.
  intros Hnot. apply filter_none. intros kv Hin E.
  apply Hnot. apply list_elem_of_fmap. exists kv.
  split; [symmetry; exact E|exact Hin].
Qed.

(** A window of [n + 1] frames is its first frame and the window of the [n]
    frames after it. *)
Lemma window_split (l : list (Z * MidBodySpot)) (a n : Z) :
  0 <= n →
  sir_sum image_sir (filter (λ kv, (a <= abs_frame kv < a + (n + 1))%Z) l)
  = sir_sum image_sir (filter (λ kv, abs_frame kv = a) l)
    + sir_sum image_sir
        (filter (λ kv, (a + 1 <= abs_frame kv < a + 1 + n)%Z) l) ∧
  length (filter (λ kv, (a <= abs_frame kv < a + (n + 1))%Z) l)
  = (length (filter (λ kv, abs_frame kv = a) l)
     + length (filter (λ kv, (a + 1 <= abs_frame kv < a + 1 + n)%Z) l))%nat.
Proof.
  intros Hn. induction l as [|kv l [IHs IHl]]; [split; reflexivity|].
  rewrite !filter_cons.
  destruct (decide (abs_frame kv = a)) as [E|E].
  - rewrite decide_True by lia. rewrite decide_False by lia.
    simpl. rewrite IHs, IHl. split; [lia|reflexivity].
  - destruct (decide (a + 1 <= abs_frame kv < a + 1 + n)) as [E'|E'].
    + rewrite decide_True by lia. simpl. rewrite IHs, IHl.
      split; [lia|lia].
    + rewrite decide_False by lia. split; assumption.
Qed.

Lemma sir_step_covered (track : MidBodyTrack) (a : Z) i spot start count :
  a ∈ map (λ kv, kv.1 + min_frame mitosis_track) (spots track) →
  list_find (λ kv, kv.1 = a - mf) (spots track) = Some (i, (a - mf, spot)) →
  sir_step bits image_sir mitosis_track track
    (map (λ kv, kv.1 + min_frame mitosis_track) (spots track))
    (start, count) a
  = inr (add_pixel bits start (image_sir (a - mf) (y spot) (x spot)),
         count + 1).
Proof.
  intros Hin Hfind. unfold sir_step, spots_getitem.
  rewrite bool_decide_eq_true_2 by exact Hin.
  fold mf. rewrite Hfind. reflexivity.
Qed.

Lemma sir_step_skipped (track : MidBodyTrack) (a : Z) st :
  a ∉ map (λ kv, kv.1 + min_frame mitosis_track) (spots track) →
  sir_step bits image_sir mitosis_track track
    (map (λ kv, kv.1 + min_frame mitosis_track) (spots track)) st a
  = inr st.
Proof.
  intros Hnot. unfold sir_step. destruct st as [acc count].
  rewrite bool_decide_eq_false_2 by exact Hnot. reflexivity.
Qed.

(** The loop over the frames of the window: it counts the spots of the track
    in the window and, started from an integer of the type of the movie, adds
    up their intensities in that type. *)
Lemma sir_loop (track : MidBodyTrack) (n : nat) :
  NoDup (map fst (spots track)) →
  ∀ (a : Z) (start : sir_sum_value) (count : Z),
  ∃ acc,
    foldE (sir_step bits image_sir mitosis_track track
             (map (λ kv, kv.1 + min_frame mitosis_track) (spots track)))
          (seqZ a (Z.of_nat n)) (start, count)
    = inr (acc,
           count + Z.of_nat (length (filter
                     (λ kv, (a <= abs_frame kv < a + Z.of_nat n)%Z) (spots track))))
    ∧ (start = FloatSum NInf → acc = FloatSum NInf)
    ∧ ∀ m, start = IntSum m → m mod 2 ^ bits = m →
        acc = IntSum
                ((m + sir_sum image_sir
                        (filter (λ kv, (a <= abs_frame kv < a + Z.of_nat n)%Z)
                                (spots track)))
                 mod 2 ^ bits).
Proof.
  intros Hnd. induction n as [|n IH]; intros a start count.
  - exists start. simpl.
    assert (filter (λ kv, a <= abs_frame kv < a + Z.of_nat 0) (spots track) = [])
      as -> by (apply filter_none; intros kv _ H; lia).
    simpl. rewrite Z.add_0_r. split; [reflexivity|]. split; [auto|].
    intros m -> Hm. rewrite Z.add_0_r, Hm. reflexivity.
  - rewrite seqZ_cons by lia.
    replace (Z.pred (Z.of_nat (S n))) with (Z.of_nat n) by lia.
    replace (Z.succ a) with (a + 1) by lia.
    replace (a + Z.of_nat (S n)) with (a + (Z.of_nat n + 1)) by lia.
    destruct (window_split (spots track) a (Z.of_nat n)) as [Hsum Hlen];
      [lia|].
    cbn [foldE].
    destruct (decide (a ∈ map (λ kv, kv.1 + min_frame mitosis_track)
                             (spots track))) as [Hin|Hnot].
    + destruct (spot_of_frame (spots track) a Hnd Hin)
        as (i & spot & Hfind & Hfilter).
      rewrite (sir_step_covered track a i spot start count Hin Hfind).
      cbn [bind].
      destruct (IH (a + 1)
                  (add_pixel bits start (image_sir (a - mf) (y spot) (x spot)))
                  (count + 1)) as (acc & Hfold & Hinf & Hfin).
      exists acc. rewrite Hfold. rewrite Hlen, Hfilter. cbn [length].
      split; [f_equal; f_equal; lia|].
      split.
      * intros ->. apply Hinf. reflexivity.
      * intros m -> Hm.
        rewrite (Hfin _ eq_refl (Zmod_mod _ _)).
        rewrite Zplus_mod_idemp_l, Hsum, Hfilter. simpl.
        f_equal. f_equal. lia.
    + rewrite (sir_step_skipped track a (start, count) Hnot). cbn [bind].
      destruct (IH (a + 1) start count) as (acc & Hfold & Hinf & Hfin).
      exists acc. rewrite Hfold. rewrite Hlen.
      rewrite (no_spot_of_frame (spots track) a Hnot). cbn [length].
      split; [f_equal; f_equal; lia|].
      split; [exact Hinf|].
      intros m Hstart Hm. rewrite (Hfin m Hstart Hm).
      rewrite Hsum, (no_spot_of_frame (spots track) a Hnot). reflexivity.
Qed.


End SirScore.




Lemma half_lt (k w : Z) :
  flt (Fin (inject_Z k)) (fdiv (Fin (inject_Z w)) (Fin 2)) = true ↔ 2 * k < w.
Proof.
  change (fdiv (Fin (inject_Z w)) (Fin 2)) with (Fin (inject_Z w / 2)).
  rewrite flt_Fin. rewrite Zlt_Qlt, inject_Z_mult.
  change (inject_Z 2) with 2%Q. unfold Qdiv. change (/ 2)%Q with (1 # 2)%Q.
  split; intros H; lra.
Qed.

Lemma half_ge (k w : Z) :
  flt (Fin (inject_Z k)) (fdiv (Fin (inject_Z w)) (Fin 2)) = false ↔ w <= 2 * k.
Proof.
  pose proof (half_lt k w) as H.
  destruct (flt _ _); split; intros; try discriminate; try reflexivity.
  - assert (2 * k < w) by (apply H; reflexivity). lia.
  - destruct (Z_lt_le_dec (2 * k) w) as [Hlt|Hle]; [|lia].
    apply H in Hlt. discriminate.
Qed.

(** The value of [sir_intensity_of] once its loop has run: [acc] is what the
    loop accumulated from the value the test on the first and last frames
    of the track chose. *)
Lemma sir_intensity_shape self bits image_sir mitosis_track
    (track : MidBodyTrack) (cytokinesis_start : Z) :
  key_events_frame mitosis_track !! "cytokinesis" = Some cytokinesis_start →
  0 <= cytokinesis_duration self →
  spots track ≠ [] →
  NoDup (map fst (spots track)) →
  ∃ first last acc,
    map (λ kv, kv.1 + min_frame mitosis_track) (spots track) !! 0%nat
    = Some first ∧
    map (λ kv, kv.1 + min_frame mitosis_track) (spots track)
      !! (length (spots track) - 1)%nat = Some last ∧
    ((cytokinesis_start > last ∨ window_stop self cytokinesis_start < first) →
     acc = FloatSum NInf) ∧
    (¬ (cytokinesis_start > last ∨ window_stop self cytokinesis_start < first) →
     acc = IntSum
             (sir_sum image_sir
                (window_spots mitosis_track cytokinesis_start
                   (window_stop self cytokinesis_start) track)
              mod 2 ^ bits)) ∧
    sir_intensity_of self bits image_sir mitosis_track track
    = if flt (Fin (inject_Z (Z.of_nat (length
                (window_spots mitosis_track cytokinesis_start
                   (window_stop self cytokinesis_start) track)))))
             (fdiv (Fin (inject_Z (window_stop self cytokinesis_start
                                   - cytokinesis_start + 1))) (Fin 2))
      then inr NInf
      else if bool_decide (Z.of_nat (length
                (window_spots mitosis_track cytokinesis_start
                   (window_stop self cytokinesis_start) track)) = 0)
           then inl ZeroDivisionError
           else inr (fdiv (float_of_sum acc) (Fin (inject_Z (Z.of_nat (length
                  (window_spots mitosis_track cytokinesis_start
                     (window_stop self cytokinesis_start) track)))))).
Proof.
  intros Hkey Hdur Hne Hnd.
  set (stop := window_stop self cytokinesis_start).
  set (inside := window_spots mitosis_track cytokinesis_start stop track).
  set (mf := min_frame mitosis_track).
  set (frames := map (λ kv, kv.1 + mf) (spots track)).
  assert (0 <= cytokinesis_duration self ÷ 2) as Hhalf
    by (apply Z.quot_pos; lia).
  assert (stop = cytokinesis_start + cytokinesis_duration self ÷ 2) as Hstop
    by reflexivity.
  assert (∃ first, frames !! 0%nat = Some first) as [first Hfirst].
  { unfold frames. destruct (spots track); [congruence|]. simpl. eauto. }
  assert (∃ last, frames !! (length (spots track) - 1)%nat = Some last)
    as [last Hlast].
  { apply lookup_lt_is_Some. unfold frames. rewrite length_map.
    destruct (spots track); [congruence|]. simpl. lia. }
  destruct (sir_loop bits image_sir mitosis_track track
              (Z.to_nat (cytokinesis_duration self ÷ 2 + 1)) Hnd
              cytokinesis_start
              (if bool_decide (cytokinesis_start > last ∨ stop < first)
               then FloatSum NInf else IntSum 0) 0) as (acc & Hloop & Hinf & Hfin).
  rewrite Z2Nat.id in Hloop, Hfin by lia.
  assert (filter (λ kv, cytokinesis_start <= kv.1 + min_frame mitosis_track
                        < cytokinesis_start
                          + (cytokinesis_duration self ÷ 2 + 1))
                 (spots track) = inside) as Hwin.
  { unfold inside, window_spots. apply list_filter_iff. intros kv. lia. }
  rewrite Hwin in Hloop, Hfin. rewrite Z.add_0_l in Hloop.
  fold mf in Hloop. fold frames in Hloop.
  exists first, last, acc.
  split; [exact Hfirst|]. split; [exact Hlast|].
  split; [intros Hout; apply Hinf; rewrite bool_decide_eq_true_2 by exact Hout;
          reflexivity|].
  split.
  { intros Hout. rewrite bool_decide_eq_false_2 in Hfin by exact Hout.
    rewrite (Hfin 0 eq_refl (Zmod_0_l _)). rewrite Z.add_0_l. reflexivity. }
  unfold sir_intensity_of, sir_window, py_range. rewrite Hkey. cbn [bind ret].
  fold mf. fold frames. unfold py_getitem.
  assert (length frames = length (spots track)) as ->
    by (unfold frames; apply length_map).
  rewrite Hlast, Hfirst.
  cbn [bind ret]. rewrite <- !Hstop.
  replace (stop + 1 - cytokinesis_start)
    with (cytokinesis_duration self ÷ 2 + 1) by lia.
  rewrite Hloop. reflexivity.
Qed.




Example sir_score_long_track :
  feq (match sir_intensity_of factory0 16 ramp_sir mitosis0 long_track with
       | inr v => v
       | inl _ => NaN
       end) (Fin 77).
Proof. vm_compute. reflexivity. Qed.

Example sir_score_short_track :
  sir_intensity_of factory0 16 ramp_sir mitosis0 short_track = inr NInf.
Proof. vm_compute. reflexivity. Qed.



(** ** The ranking of the Selector *)

Lemma mapE_inr {A B} (f : A → result B) (l : list A) (bs : list B) :
  mapE f l = inr bs → Forall2 (λ a b, f a = inr b) l bs.
Proof.
  revert bs. induction l as [|a l IH]; intros bs H; simpl in H.
  - injection H as <-. constructor.
  - destruct (f a) as [e|b] eqn:Ea; [discriminate|]. simpl in H.
    destruct (mapE f l) as [e|bs'] eqn:El; [discriminate|]. simpl in H.
    injection H as <-. constructor; [exact Ea|]. apply IH. reflexivity.
Qed.

Lemma mapE_total {A B} (f : A → result B) (l : list A) :
  (∀ a, a ∈ l → ∃ b, f a = inr b) → ∃ bs, mapE f l = inr bs.
Proof.
  induction l as [|a l IH]; intros H; simpl; [eauto|].
  destruct (H a) as [b Hb]; [left|]. rewrite Hb.
  destruct IH as [bs Hbs]; [intros a' Ha'; apply H; right; exact Ha'|].
  rewrite Hbs. simpl. eauto.
Qed.

Lemma mapE_ext_in {A B} (f g : A → result B) (l : list A) :
  (∀ a, a ∈ l → f a = g a) → mapE f l = mapE g l.
Proof.
  induction l as [|a l IH]; intros H; [reflexivity|]. simpl.
  rewrite (H a) by left. rewrite IH; [reflexivity|].
  intros a' Ha'. apply H. right. exact Ha'.
Qed.

Lemma mapE_zip {A B} (f : A → result B) (l : list A) (bs : list B) :
  mapE f l = inr bs →
  ∀ b a, (b, a) ∈ zip bs l ↔ a ∈ l ∧ f a = inr b.
Proof.
  intros H. apply mapE_inr in H.
  induction H as [|a b l bs Hab Hrest IH]; intros b' a'; simpl.
  - split; [intros Hin; inversion Hin|intros [Hin _]; inversion Hin].
  - rewrite !elem_of_cons, IH. split.
    + intros [[= -> ->]|[Hin Hf]]; [split; [left; reflexivity|exact Hab]|].
      split; [right; exact Hin|exact Hf].
    + intros [[->|Hin] Hf]; [left; congruence|right; split; assumption].
Qed.


Section Ranking.

Variable self : Factory.
Variable bits : Z.
Variable image_sir : Z → Z → Z → Z.
Variable get_expected_distance : MidBodyTrack → fval.
Variable mitosis_track : MitosisTrack.

Let score :=
  selector_score self bits image_sir get_expected_distance mitosis_track.

(** The closure reads, at the first index of the track, what
    [selector_score] computes for the track. *)
Lemma func_sir_intensity_score (tracks : list MidBodyTrack) (bs : list fval)
    (track : MidBodyTrack) :
  mapE (sir_intensity_of self bits image_sir mitosis_track) tracks = inr bs →
  track ∈ tracks →
  func_sir_intensity tracks (map get_expected_distance tracks) bs track
  = score track.
Proof.
  intros Hbs Hin. apply mapE_inr in Hbs.
  unfold func_sir_intensity, py_index, py_getitem.
  destruct (list_find_elem_of (λ b, b = track) tracks track Hin eq_refl)
    as [[i t] Hfind].
  rewrite Hfind. cbn [bind ret].
  apply list_find_Some in Hfind as (Hi & -> & _).
  rewrite list_lookup_fmap, Hi. cbn [fmap option_fmap option_map bind ret].
  destruct (Forall2_lookup_l _ _ _ _ _ Hbs Hi) as (b & Hb & Hsir).
  rewrite Hb. cbn [bind ret]. unfold score, selector_score. rewrite Hsir.
  reflexivity.
Qed.

(** [select_from_candidates] in terms of the scores of the filtered
    tracks. *)
Lemma select_best_track_scores (mid_body_tracks : list MidBodyTrack)
    (vs : list fval) :
  mapE score (length_filter self mid_body_tracks) = inr vs →
  select_from_candidates self bits image_sir get_expected_distance
    mitosis_track mid_body_tracks
  = inr (snd <$> head (sorted_by_key
           (filter (λ kt, fneb kt.1 PInf = true)
                   (zip vs (length_filter self mid_body_tracks))))).
Proof.
  intros Hvs. unfold select_from_candidates.
  set (tracks := length_filter self mid_body_tracks) in *.
  assert (∃ bs, mapE (sir_intensity_of self bits image_sir mitosis_track) tracks
                = inr bs) as [bs Hbs].
  { apply mapE_total. intros t Ht.
    pose proof (mapE_inr _ _ _ Hvs) as Hall.
    apply list_elem_of_lookup in Ht as [i Hi].
    destruct (Forall2_lookup_l _ _ _ _ _ Hall Hi) as (v & _ & Hv).
    unfold score, selector_score in Hv.
    destruct (sir_intensity_of self bits image_sir mitosis_track t) as [e|b];
      [discriminate|]. eauto. }
  rewrite Hbs. cbn [bind ret].
  rewrite (mapE_ext_in _ score tracks)
    by (intros t Ht; apply func_sir_intensity_score; assumption).
  rewrite Hvs. reflexivity.
Qed.

End Ranking.

Section RankingTheorem.

Variable self : Factory.
Variable bits : Z.
Variable image_sir : Z → Z → Z → Z.
Variable get_expected_distance : MidBodyTrack → fval.
Variable mitosis_track : MitosisTrack.

Let score :=
  selector_score self bits image_sir get_expected_distance mitosis_track.

(** The secondary-channel score is [-inf] or finite, never an exception. *)
Lemma sir_intensity_kind (track : MidBodyTrack) (cytokinesis_start : Z) :
  key_events_frame mitosis_track !! "cytokinesis" = Some cytokinesis_start →
  0 <= cytokinesis_duration self →
  spots track ≠ [] →
  NoDup (map fst (spots track)) →
  ∃ b, sir_intensity_of self bits image_sir mitosis_track track = inr b ∧
       (b = NInf ∨ ∃ q, b = Fin q).
Proof.
  intros Hkey Hdur Hne Hnd.
  destruct (sir_intensity_shape self bits image_sir mitosis_track track
              cytokinesis_start Hkey Hdur Hne Hnd)
    as (first & last & acc & _ & _ & Hinf & Hfin & ->).
  set (inside := window_spots mitosis_track cytokinesis_start
                   (window_stop self cytokinesis_start) track) in *.
  destruct (flt _ _) eqn:Hflt; [eauto|].
  apply half_ge in Hflt.
  assert (0 <= cytokinesis_duration self ÷ 2) by (apply Z.quot_pos; lia).
  unfold window_stop in Hflt.
  rewrite bool_decide_eq_false_2 by lia.
  eexists. split; [reflexivity|].
  destruct (decide (cytokinesis_start > last
                    ∨ window_stop self cytokinesis_start < first)) as [Ho|Ho].
  - rewrite (Hinf Ho). left. cbn [float_of_sum]. unfold fdiv.
    rewrite Qle_bool_true; [reflexivity|].
    change 0%Q with (inject_Z 0). rewrite <- Zle_Qle. lia.
  - rewrite (Hfin Ho). right. cbn [float_of_sum]. unfold fdiv.
    rewrite Qeq_bool_false; [eauto|].
    intros E. change 0%Q with (inject_Z 0) in E.
    apply (proj1 (inject_Z_injective _ _)) in E. lia.
Qed.

Lemma selector_score_kind (track : MidBodyTrack) (cytokinesis_start : Z) :
  key_events_frame mitosis_track !! "cytokinesis" = Some cytokinesis_start →
  0 <= cytokinesis_duration self →
  spots track ≠ [] →
  NoDup (map fst (spots track)) →
  (get_expected_distance track = PInf
   ∨ ∃ q, get_expected_distance track = Fin q) →
  ∃ v, score track = inr v ∧ (v = PInf ∨ ∃ q, v = Fin q).
Proof.
  intros Hkey Hdur Hne Hnd Hdist.
  destruct (sir_intensity_kind track cytokinesis_start Hkey Hdur Hne Hnd)
    as (b & Hb & Hkind).
  unfold score, selector_score. rewrite Hb. cbn [bind ret].
  eexists. split; [reflexivity|].
  destruct Hdist as [->|[d ->]], Hkind as [->|[q ->]]; simpl; eauto.
Qed.

End RankingTheorem.


(** ** Matrices *)











(** ** The two loops of the cost matrix *)

Section CostLoops.

Variable euclidean : Q → Q → Q → Q → Q.
Variable self : Factory.






End CostLoops.

(** Two lists of which one is empty are left unlinked, whatever the solver. *)
Lemma update_spots_hereditary_empty euclidean self linear_sum_assignment
    (spots1 spots2 : list MidBodySpot) :
  spots1 = [] ∨ spots2 = [] →
  _update_spots_hereditary euclidean self linear_sum_assignment spots1 spots2
  = inr [].
Proof.
  intros H. unfold _update_spots_hereditary.
  rewrite bool_decide_eq_true_2; [reflexivity|].
  destruct H as [-> | ->]; auto.
Qed.

(** ** The order of the costs *)











(** ** The padded cost matrix *)

Section CostMatrixFacts.

Variable euclidean : Q → Q → Q → Q → Q.
Variable self : Factory.

Hypothesis euclidean_nonneg : ∀ x1 y1 x2 y2, (0 <= euclidean x1 y1 x2 y2)%Q.
Hypothesis weight_mklp_nonneg : (0 <= weight_mklp_intensity_factor self)%Q.
Hypothesis weight_sir_nonneg : (0 <= weight_sir_intensity_factor self)%Q.








End CostMatrixFacts.


Lemma feqb_zero_feq v : feqb v (Fin 0) = true → feq v (Fin 0).
Proof.
  destruct v; simpl; try discriminate. intros H. apply Qeq_bool_iff. exact H.
Qed.




(** ** The concrete inputs *)


Lemma grid_euclidean_exact :
  (grid_euclidean 0 0 3 4 * grid_euclidean 0 0 3 4 == 3 * 3 + 4 * 4)%Q ∧
  (grid_euclidean 0 0 200 0 * grid_euclidean 0 0 200 0 == 200 * 200)%Q.
Proof. split; vm_compute; reflexivity. Qed.


Example padded_cost_matrix_example :
  match padded_cost_matrix grid_euclidean factory0 [spot_a] [spot_b; spot_a] with
  | inr [[c00; c01; c02]; [c10; c11; c12]; [c20; c21; c22]] =>
      feq c00 (Fin (85 # 2)) ∧ feq c01 (Fin 0) ∧ feq c02 (Fin (357 # 8)) ∧
      feq c10 (Fin (357 # 8)) ∧ feq c11 (Fin (357 # 8)) ∧
      feq c12 (Fin (85 # 2)) ∧
      feq c20 (Fin (357 # 8)) ∧ feq c21 (Fin (357 # 8)) ∧
      feq c22 (Fin (85 # 2))
  | _ => False
  end.
Proof. vm_compute. repeat split. Qed.

Example padded_cost_matrix_far :
  match padded_cost_matrix grid_euclidean factory0 [spot_a] [spot_far] with
  | inr [[c00; c01]; [c10; c11]] =>
      c00 = PInf ∧ feq c01 (Fin 0) ∧ feq c10 (Fin 0) ∧ c11 = PInf
  | _ => False
  end.
Proof. vm_compute. repeat split. Qed.




(** ** The ranking of the Selector *)




Section RankingSpec.

Variable self : Factory.
Variable bits : Z.
Variable image_sir : Z → Z → Z → Z.
Variable expected_distance : MidBodyTrack → fval.
Variable mitosis_track : MitosisTrack.
Variable cytokinesis_start : Z.

Hypothesis Hkey :
  key_events_frame mitosis_track !! "cytokinesis" = Some cytokinesis_start.
Hypothesis Hduration : 0 <= cytokinesis_duration self.
Hypothesis Hminimum : 0 <= minimum_mid_body_track_length self.
Hypothesis Hdistance :
  ∀ track, expected_distance track = PInf
           ∨ ∃ q, expected_distance track = Fin q.

Let score :=
  spec_score self image_sir expected_distance mitosis_track cytokinesis_start.




End RankingSpec.


Example select_best_track_example :
  _select_best_track grid_euclidean factory0 16 ramp_sir first_is_mother
    expected_by_id mitosis0 [long_track; short_track; other_track]
    [mother_cell; daughter_cell] = inr (Some other_track).
Proof. vm_compute. reflexivity. Qed.

Example select_best_track_none :
  _select_best_track grid_euclidean factory0 16 ramp_sir first_is_mother
    (λ _ _ _, PInf) mitosis0 [long_track; short_track; other_track]
    [mother_cell; daughter_cell] = inr None.
Proof. vm_compute. reflexivity. Qed.

(** Without a daughter the Selector raises [IndexError], whatever the
    candidates. *)
Example select_best_track_no_daughter :
  _select_best_track grid_euclidean factory0 16 ramp_sir first_is_mother
    expected_by_id mitosis0 [long_track] [mother_cell] = inl IndexError.
Proof. vm_compute. reflexivity. Qed.




(** ** The length filter in the Selector *)

Lemma elem_of_insert_by_key {A} (kt x : fval * A) (l : list (fval * A)) :
  x ∈ insert_by_key kt l → x = kt ∨ x ∈ l.
Proof.
  induction l as [|kt' l IH]; simpl.
  - intros H. apply list_elem_of_singleton in H. auto.
  - destruct (flt kt'.1 kt.1).
    + intros H. apply elem_of_cons in H as [->|H]; [right; left|].
      destruct (IH H) as [->|Hin]; [auto|right; right; exact Hin].
    + intros H. apply elem_of_cons in H as [->|H]; auto.
Qed.

Lemma elem_of_sorted_by_key {A} (x : fval * A) (l : list (fval * A)) :
  x ∈ sorted_by_key l → x ∈ l.
Proof.
  induction l as [|kt l IH]; simpl; [auto|].
  intros H. apply elem_of_insert_by_key in H as [->|H]; [left|].
  right. apply IH, H.
Qed.

Lemma insert_by_key_not_nil {A} (kt : fval * A) (l : list (fval * A)) :
  insert_by_key kt l ≠ [].
Proof. destruct l as [|kt' l]; simpl; [|destruct (flt _ _)]; discriminate. Qed.

Lemma sorted_by_key_nil {A} (l : list (fval * A)) :
  sorted_by_key l = [] → l = [].
Proof.
  destruct l as [|kt l]; [reflexivity|]. simpl. intros H.
  exfalso. exact (insert_by_key_not_nil _ _ H).
Qed.

Section LengthFilterFacts.

Variable self : Factory.
Variable bits : Z.
Variable image_sir : Z → Z → Z → Z.
Variable get_expected_distance : MidBodyTrack → fval.
Variable mitosis_track : MitosisTrack.

Let select :=
  select_from_candidates self bits image_sir get_expected_distance
    mitosis_track.
Let score :=
  selector_score self bits image_sir get_expected_distance mitosis_track.

(** When the ranking returns, every filtered track has been scored. *)
Lemma select_scores (mid_body_tracks : list MidBodyTrack) kept :
  select mid_body_tracks = inr kept →
  ∃ vs, mapE score (length_filter self mid_body_tracks) = inr vs.
Proof.
  unfold select, select_from_candidates. intros H.
  set (tracks := length_filter self mid_body_tracks) in *.
  destruct (mapE (sir_intensity_of self bits image_sir mitosis_track) tracks)
    as [e|bs] eqn:Hbs; [discriminate|].
  cbn [bind] in H.
  rewrite (mapE_ext_in _ score tracks) in H
    by (intros t Ht;
        apply (func_sir_intensity_score self bits image_sir
                 get_expected_distance mitosis_track tracks bs t Hbs Ht)).
  destruct (mapE score tracks) as [e|vs]; [discriminate|]. eauto.
Qed.

Lemma select_returns_filtered (mid_body_tracks : list MidBodyTrack) track :
  select mid_body_tracks = inr (Some track) →
  track ∈ length_filter self mid_body_tracks.
Proof.
  intros H. destruct (select_scores _ _ H) as [vs Hvs].
  unfold select in H.
  rewrite (select_best_track_scores self bits image_sir
             get_expected_distance mitosis_track mid_body_tracks vs Hvs)
    in H.
  injection H as H.
  destruct (head _) as [[v t]|] eqn:Hhead; [|discriminate].
  simpl in H. injection H as ->.
  apply head_Some_elem_of, elem_of_sorted_by_key in Hhead.
  apply list_elem_of_filter in Hhead as [_ Hzip].
  apply elem_of_zip_r in Hzip. exact Hzip.
Qed.

Lemma select_none_scores (mid_body_tracks : list MidBodyTrack) kept track :
  select mid_body_tracks = inr kept →
  track ∈ length_filter self mid_body_tracks →
  ∃ v, score track = inr v ∧ (kept = None → v = PInf).
Proof.
  intros H Hin. destruct (select_scores _ _ H) as [vs Hvs].
  unfold select in H.
  rewrite (select_best_track_scores self bits image_sir
             get_expected_distance mitosis_track mid_body_tracks vs Hvs)
    in H.
  injection H as H.
  pose proof (mapE_inr _ _ _ Hvs) as Hall.
  pose proof Hin as Hin'. apply list_elem_of_lookup in Hin' as [i Hi].
  destruct (Forall2_lookup_l _ _ _ _ _ Hall Hi) as (v & _ & Hv).
  exists v. split; [exact Hv|]. intros ->.
  destruct (head _) as [h|] eqn:Hhead; [discriminate|].
  apply head_None, sorted_by_key_nil in Hhead.
  assert ((v, track) ∈ zip vs (length_filter self mid_body_tracks)) as Hzip
    by (apply (mapE_zip score _ vs Hvs); auto).
  destruct (fneb v PInf) eqn:Hne.
  - assert ((v, track)
            ∈ filter (λ kt : fval * MidBodyTrack, fneb kt.1 PInf = true)
                     (zip vs (length_filter self mid_body_tracks))) as Hf
      by (apply list_elem_of_filter; auto).
    rewrite Hhead in Hf. inversion Hf.
  - unfold fneb in Hne. apply negb_false_iff in Hne.
    destruct v; try discriminate. reflexivity.
Qed.

Lemma select_ignores_short (l1 l2 : list MidBodyTrack) track :
  track_length track <= minimum_mid_body_track_length self →
  select (l1 ++ track :: l2) = select (l1 ++ l2).
Proof.
  intros Hshort. unfold select, select_from_candidates.
  assert (length_filter self (l1 ++ track :: l2)
          = length_filter self (l1 ++ l2)) as ->; [|reflexivity].
  unfold length_filter. rewrite !filter_app.
  rewrite filter_cons_False by lia. reflexivity.
Qed.

End LengthFilterFacts.

(** C9: the Selector discards exactly the candidates whose length is [<=]
    the minimum track length (10 by default), before any scoring.  It never
    returns such a track; such a track has no influence on the outcome, the
    exceptions included, wherever it stands in the list and however it would
    score; and every longer candidate passes: whenever the Selector returns,
    the score of each longer candidate has been computed without an
    exception, and the Selector returns [None] only if that score is
    [+inf]. *)
Theorem length_filter_exact euclidean self bits image_sir
    get_mother_daughters_tracks get_expected_distance mitosis_track
    (mid_body_tracks : list MidBodyTrack)
    (trackmate_tracks : list TrackMateTrack) :
  (∀ track,
     _select_best_track euclidean self bits image_sir
       get_mother_daughters_tracks get_expected_distance mitosis_track
       mid_body_tracks trackmate_tracks = inr (Some track) →
     track ∈ mid_body_tracks ∧
     ¬ track_length track <= minimum_mid_body_track_length self) ∧
  (∀ l1 track l2,
     track_length track <= minimum_mid_body_track_length self →
     _select_best_track euclidean self bits image_sir
       get_mother_daughters_tracks get_expected_distance mitosis_track
       (l1 ++ track :: l2) trackmate_tracks
     = _select_best_track euclidean self bits image_sir
         get_mother_daughters_tracks get_expected_distance mitosis_track
         (l1 ++ l2) trackmate_tracks) ∧
  (∀ kept,
     _select_best_track euclidean self bits image_sir
       get_mother_daughters_tracks get_expected_distance mitosis_track
       mid_body_tracks trackmate_tracks = inr kept →
     ∃ expected_positions,
       selector_expected_positions euclidean self
         get_mother_daughters_tracks mitosis_track trackmate_tracks
       = inr expected_positions ∧
       ∀ track,
         track ∈ mid_body_tracks →
         ¬ track_length track <= minimum_mid_body_track_length self →
         ∃ v,
           selector_score self bits image_sir
             (λ track, get_expected_distance track expected_positions
                         (mid_body_linking_max_distance self))
             mitosis_track track = inr v ∧
           (kept = None → v = PInf)) ∧
  (∀ duration, minimum_mid_body_track_length (default_factory duration) = 10).
Proof.
  unfold _select_best_track.
  destruct (selector_expected_positions euclidean self
              get_mother_daughters_tracks mitosis_track trackmate_tracks)
    as [e|expected_positions]; cbn [bind].
  - split; [intros track H; discriminate H|].
    split; [reflexivity|].
    split; [intros kept H; discriminate H|reflexivity].
  - split.
    { intros track H. apply select_returns_filtered in H.
      apply list_elem_of_filter in H as [Hlen Hin]. split; [exact Hin|lia]. }
    split; [intros l1 track l2 Hshort; apply select_ignores_short, Hshort|].
    split; [|reflexivity].
    intros kept H. exists expected_positions. split; [reflexivity|].
    intros track Hin Hlen.
    apply (select_none_scores self bits image_sir _ mitosis_track
             mid_body_tracks kept track H).
    apply list_elem_of_filter. split; [lia|exact Hin].
Qed.

(** A track without spot could not be scored ([IndexError]); being too
    short, it is discarded before, wherever it stands. *)
Example short_track_not_scored :
  sir_intensity_of factory0 16 ramp_sir mitosis0 empty_track = inl IndexError ∧
  _select_best_track grid_euclidean factory0 16 ramp_sir first_is_mother
    expected_by_id mitosis0 [empty_track; long_track; short_track; other_track]
    [mother_cell; daughter_cell] = inr (Some other_track) ∧
  _select_best_track grid_euclidean factory0 16 ramp_sir first_is_mother
    expected_by_id mitosis0 [long_track; other_track]
    [mother_cell; daughter_cell] = inr (Some other_track).
Proof. repeat split; vm_compute; reflexivity. Qed.

(** ** The Assembler *)

(** C10: [update_mid_body_spots] writes the track that the Selector returned
    for the tracks built from the spots detected in this movie, and nothing
    else.  When the three steps return, the call returns a record [m'];
    without a selected track [m'] is the record as it was; with one (its
    frame keys being distinct), every spot of the track is found in
    [mid_body_spots] at its relative frame plus the starting frame of the
    mitosis, every other key of [mid_body_spots] keeps its value; and in
    both cases every other field of the record keeps its value. *)
Theorem keep_spots_frame euclidean (Image Image2D Mask : Type) channel
    detection bigfish_spots h_maxima_spots smart_cropping all_ones
    predict_tracks bits sir_pixels get_mother_daughters_tracks
    get_expected_distance self (m : MitosisTrack)
    (mitosis_movie : list Image) (mask_movie : list Mask)
    (tracks : list TrackMateTrack) (mb_detect_method : option (Mode Image2D))
    (mb_tracking_method : option string)
    (spots_candidates : list (Z * list MidBodySpot))
    (mid_body_tracks : list MidBodyTrack)
    (kept_track : option MidBodyTrack) :
  detect_mid_body_spots Image Image2D Mask channel detection bigfish_spots
    h_maxima_spots smart_cropping self all_ones mitosis_movie
    (Some mask_movie) (Some (default (ModeName "lapgau") mb_detect_method))
  = inr spots_candidates →
  generate_tracks_from_spots euclidean self predict_tracks spots_candidates
    (Some (default default_tracking_method mb_tracking_method)) None
  = inr mid_body_tracks →
  _select_best_track euclidean self bits (sir_pixels mitosis_movie)
    get_mother_daughters_tracks get_expected_distance m mid_body_tracks
    tracks = inr kept_track →
  (∀ track, kept_track = Some track → NoDup (map fst (spots track))) →
  ∃ m',
    update_mid_body_spots euclidean Image Image2D Mask channel detection
      bigfish_spots h_maxima_spots smart_cropping all_ones predict_tracks
      bits sir_pixels get_mother_daughters_tracks get_expected_distance self
      m mitosis_movie mask_movie tracks mb_detect_method mb_tracking_method
    = inr m' ∧
    (kept_track = None → m' = m) ∧
    (∀ track, kept_track = Some track →
       (∀ rel spot, (rel, spot) ∈ spots track →
          mid_body_spots m' !! (rel + min_frame m) = Some spot) ∧
       (∀ f, (∀ kv, kv ∈ spots track → f ≠ kv.1 + min_frame m) →
          mid_body_spots m' !! f = mid_body_spots m !! f)) ∧
    mother_track_id m' = mother_track_id m ∧
    daughter_track_ids m' = daughter_track_ids m ∧
    min_frame m' = min_frame m ∧
    position_min_x m' = position_min_x m ∧
    position_min_y m' = position_min_y m ∧
    key_events_frame m' = key_events_frame m.
Proof.
  intros Hdetect Hgenerate Hselect Hnd.
  exists (keep_spots kept_track m).
  split.
  { unfold update_mid_body_spots. rewrite Hdetect. cbn [bind].
    rewrite Hgenerate. cbn [bind]. rewrite Hselect. reflexivity. }
  split; [intros ->; reflexivity|].
  split.
  { intros track ->. rewrite keep_spots_fold. split.
    - intros rel spot Hin. apply keep_fold_written; [|exact Hin].
      apply (Hnd track eq_refl).
    - intros f Hf. apply keep_fold_other. exact Hf. }
  destruct kept_track as [track|]; [|repeat split].
  rewrite keep_spots_fold.
  exact (keep_fold_frame (spots track) m).
Qed.

(** The three steps in an exception: the record is not written (the call
    raises the exception of the step). *)
Lemma update_mid_body_spots_raises euclidean (Image Image2D Mask : Type)
    channel detection bigfish_spots h_maxima_spots smart_cropping all_ones
    predict_tracks bits sir_pixels get_mother_daughters_tracks
    get_expected_distance self (m : MitosisTrack)
    (mitosis_movie : list Image) (mask_movie : list Mask)
    (tracks : list TrackMateTrack) (mb_detect_method : option (Mode Image2D))
    (mb_tracking_method : option string) (e : exn) :
  detect_mid_body_spots Image Image2D Mask channel detection bigfish_spots
    h_maxima_spots smart_cropping self all_ones mitosis_movie
    (Some mask_movie) (Some (default (ModeName "lapgau") mb_detect_method))
  = inl e
  ∨ (∃ spots_candidates,
       detect_mid_body_spots Image Image2D Mask channel detection
         bigfish_spots h_maxima_spots smart_cropping self all_ones
         mitosis_movie (Some mask_movie)
         (Some (default (ModeName "lapgau") mb_detect_method))
       = inr spots_candidates ∧
       (generate_tracks_from_spots euclidean self predict_tracks
          spots_candidates
          (Some (default default_tracking_method mb_tracking_method)) None
        = inl e
        ∨ ∃ mid_body_tracks,
            generate_tracks_from_spots euclidean self predict_tracks
              spots_candidates
              (Some (default default_tracking_method mb_tracking_method))
              None = inr mid_body_tracks ∧
            _select_best_track euclidean self bits (sir_pixels mitosis_movie)
              get_mother_daughters_tracks get_expected_distance m
              mid_body_tracks tracks = inl e)) →
  update_mid_body_spots euclidean Image Image2D Mask channel detection
    bigfish_spots h_maxima_spots smart_cropping all_ones predict_tracks
    bits sir_pixels get_mother_daughters_tracks get_expected_distance self
    m mitosis_movie mask_movie tracks mb_detect_method mb_tracking_method
  = inl e.
Proof.
  unfold update_mid_body_spots.
  intros [H|(sc & Hsc & [H|(tr & Htr & H)])].
  - rewrite H. reflexivity.
  - rewrite Hsc. cbn [bind]. rewrite H. reflexivity.
  - rewrite Hsc. cbn [bind]. rewrite Htr. cbn [bind]. rewrite H. reflexivity.
Qed.

(** C10 at a movie of two frames, with the mode "h_maxima", a linker that
    returns [long_track] and [short_track], and the record [mitosis0]: the
    Selector returns [long_track]. *)
Lemma keep_spots_frame_witness :
  ∃ m',
    update_mid_body_spots grid_euclidean unit unit unit unit_channel
      no_detection no_bigfish two_positions crop3 (λ _, ())
      two_tracks_predictor 16 (λ _, ramp_sir) first_is_mother expected_by_id
      factory0 mitosis0 [(); ()] [(); ()] [mother_cell; daughter_cell]
      (Some (ModeName "h_maxima")) None
    = inr m' ∧
    (Some long_track = None → m' = mitosis0) ∧
    (∀ track, Some long_track = Some track →
       (∀ rel spot, (rel, spot) ∈ spots track →
          mid_body_spots m' !! (rel + min_frame mitosis0) = Some spot) ∧
       (∀ f, (∀ kv, kv ∈ spots track → f ≠ kv.1 + min_frame mitosis0) →
          mid_body_spots m' !! f = mid_body_spots mitosis0 !! f)) ∧
    mother_track_id m' = mother_track_id mitosis0 ∧
    daughter_track_ids m' = daughter_track_ids mitosis0 ∧
    min_frame m' = min_frame mitosis0 ∧
    position_min_x m' = position_min_x mitosis0 ∧
    position_min_y m' = position_min_y mitosis0 ∧
    key_events_frame m' = key_events_frame mitosis0.
Proof.
  apply (keep_spots_frame grid_euclidean unit unit unit unit_channel
           no_detection no_bigfish two_positions crop3 (λ _, ())
           two_tracks_predictor 16 (λ _, ramp_sir) first_is_mother
           expected_by_id factory0 mitosis0 [(); ()] [(); ()]
           [mother_cell; daughter_cell] (Some (ModeName "h_maxima")) None
           [(0, two_spots 0); (1, two_spots 1)] [long_track; short_track]
           (Some long_track)).
  - vm_compute. reflexivity.
  - vm_compute. reflexivity.
  - vm_compute. reflexivity.
  - intros track [= <-]. apply (bool_decide_unpack _). vm_compute. exact I.
Defined.

(** * Further properties of the code *)

(** ** The arithmetic of costs respects equal values *)

Lemma relative_penalty_sym w a b :
  feq (relative_penalty w a b) (relative_penalty w b a).
Proof.
  unfold relative_penalty. apply fdiv_feq; cbn [feq].
  - rewrite (Qabs_Qminus a b). reflexivity.
  - ring.
Qed.

(** ** The link costs as a metric *)

(** X1: when the distance is symmetric, so are the two link costs: the cell
    of the cost matrix and the metric of the track builder have the same
    value for a pair and for the swapped pair, the NaN and infinite cases
    included. *)
Theorem link_costs_symmetric euclidean self (spot1 spot2 : MidBodySpot)
    (c1 c2 : coords) :
  (∀ x1 y1 x2 y2, (euclidean x1 y1 x2 y2 == euclidean x2 y2 x1 y1)%Q) →
  feq (link_cost euclidean self spot1 spot2)
      (link_cost euclidean self spot2 spot1) ∧
  feq (dist_metric euclidean self c1 c2) (dist_metric euclidean self c2 c1).
Proof.
  intros Hsym. split.
  - unfold link_cost, fgt.
    rewrite (flt_feq _ (Fin (inject_Z (mid_body_linking_max_distance self)))
               (Fin (distance_to euclidean spot1 spot2))
               (Fin (distance_to euclidean spot2 spot1)))
      by (try apply feq_refl; apply Hsym).
    destruct (flt _ _); [exact I|].
    cbn [fpow]. apply fmul_feq; [|apply Hsym].
    apply fadd_feq; [apply fadd_feq; [apply feq_refl|]|];
      apply relative_penalty_sym.
  - destruct c1, c2; try apply feq_refl.
    unfold dist_metric. cbn [fpow].
    assert (feq (fmul (Fin (euclidean cx cy cx0 cy0))
                   (fadd (fadd (Fin 1)
                      (relative_penalty (weight_sir_intensity_factor self)
                         sir sir0))
                      (relative_penalty (weight_mklp_intensity_factor self)
                         mlkp mlkp0)))
                (fmul (Fin (euclidean cx0 cy0 cx cy))
                   (fadd (fadd (Fin 1)
                      (relative_penalty (weight_sir_intensity_factor self)
                         sir0 sir))
                      (relative_penalty (weight_mklp_intensity_factor self)
                         mlkp0 mlkp)))) as H.
    { apply fmul_feq; [apply Hsym|].
      apply fadd_feq; [apply fadd_feq; [apply feq_refl|]|];
        apply relative_penalty_sym. }
    apply fmul_feq; exact H.
Qed.

Lemma grid_euclidean_sym x1 y1 x2 y2 :
  (grid_euclidean x1 y1 x2 y2 == grid_euclidean x2 y2 x1 y1)%Q.
Proof.
  unfold grid_euclidean.
  assert ((x1 - x2) * (x1 - x2) + (y1 - y2) * (y1 - y2)
          == (x2 - x1) * (x2 - x1) + (y2 - y1) * (y2 - y1))%Q as H by ring.
  rewrite H. reflexivity.
Qed.

(** X1 at the spots [spot_a] and [spot_b]. *)
Lemma link_costs_symmetric_witness :
  feq (link_cost grid_euclidean factory0 spot_a spot_b)
      (link_cost grid_euclidean factory0 spot_b spot_a) ∧
  feq (dist_metric grid_euclidean factory0
         (coords_of_spot spot_a) Placeholder)
      (dist_metric grid_euclidean factory0
         Placeholder (coords_of_spot spot_a)).
Proof.
  apply (link_costs_symmetric grid_euclidean factory0 spot_a spot_b
           (coords_of_spot spot_a) Placeholder).
  apply grid_euclidean_sym.
Defined.

(** X2: within the maximum linking distance the cell of the cost matrix is a
    finite number that grows with the distance: of two pairs with the same
    intensities (positive sums, non-negative weights), the closer one never
    costs more. *)
Theorem link_cost_monotone euclidean self
    (spot1 spot2 spot1' spot2' : MidBodySpot) :
  (0 <= weight_mklp_intensity_factor self)%Q →
  (0 <= weight_sir_intensity_factor self)%Q →
  positive_sums spot1 spot2 →
  intensity spot1' = intensity spot1 → intensity spot2' = intensity spot2 →
  sir_intensity spot1' = sir_intensity spot1 →
  sir_intensity spot2' = sir_intensity spot2 →
  (distance_to euclidean spot1 spot2
   <= distance_to euclidean spot1' spot2')%Q →
  (distance_to euclidean spot1' spot2'
   <= inject_Z (mid_body_linking_max_distance self))%Q →
  ∃ c c', link_cost euclidean self spot1 spot2 = Fin c ∧
          link_cost euclidean self spot1' spot2' = Fin c' ∧ (c <= c')%Q.
Proof.
  intros Hw1 Hw2 [Hi Hs] Ei1 Ei2 Es1 Es2 Hd Hmax.
  unfold link_cost, fgt.
  rewrite (proj2 (flt_Fin_false _ _) Hmax).
  rewrite (proj2 (flt_Fin_false (inject_Z (mid_body_linking_max_distance self))
                    (distance_to euclidean spot1 spot2))) by lra.
  rewrite Ei1, Ei2, Es1, Es2.
  rewrite !relative_penalty_defined by (apply inject_Z_sum_nonzero; lia).
  cbn [fadd fmul fpow]. eexists. eexists.
  split; [reflexivity|]. split; [reflexivity|].
  pose proof (relative_penalty_nonneg (weight_mklp_intensity_factor self)
                (inject_Z (intensity spot1)) (inject_Z (intensity spot2))
                Hw1 (inject_Z_sum_pos _ _ Hi)) as H1.
  pose proof (relative_penalty_nonneg (weight_sir_intensity_factor self)
                (inject_Z (sir_intensity spot1))
                (inject_Z (sir_intensity spot2))
                Hw2 (inject_Z_sum_pos _ _ Hs)) as H2.
  apply Qmult_le_l; [lra|exact Hd].
Qed.

(** X2 at the pair [spot_a], [spot_b] (distance 5) and the pair [spot_a],
    [spot_b2] (distance 10, same intensities). *)
Lemma link_cost_monotone_witness :
  ∃ c c', link_cost grid_euclidean factory0 spot_a spot_b = Fin c ∧
          link_cost grid_euclidean factory0 spot_a spot_b2 = Fin c' ∧
          (c <= c')%Q.
Proof.
  apply (link_cost_monotone grid_euclidean factory0 spot_a spot_b
           spot_a spot_b2).
  - vm_compute. discriminate.
  - vm_compute. discriminate.
  - split; reflexivity.
  - reflexivity.
  - reflexivity.
  - reflexivity.
  - reflexivity.
  - vm_compute. discriminate.
  - vm_compute. discriminate.
Defined.

(** X3: for a pair that involves the placeholder row of a frame without
    spots, the metric of the track builder returns twice the maximum linking
    distance.  That value exceeds the cutoff of the "spatial_laptrack"
    linker (the maximum distance) when the maximum distance is positive, but
    lies below the cutoff of the "laptrack" linker (its square) as soon as
    the maximum distance exceeds 2. *)
Theorem placeholder_cost euclidean self (c : coords) :
  dist_metric euclidean self Placeholder c
  = Fin (inject_Z (mid_body_linking_max_distance self * 2)) ∧
  dist_metric euclidean self c Placeholder
  = Fin (inject_Z (mid_body_linking_max_distance self * 2)) ∧
  (∀ lt, select_linker euclidean self "spatial_laptrack" = inr lt →
         0 < mid_body_linking_max_distance self →
         fgt (track_dist_metric lt Placeholder c)
             (Fin (inject_Z (track_cost_cutoff lt))) = true) ∧
  (∀ lt, select_linker euclidean self "laptrack" = inr lt →
         2 < mid_body_linking_max_distance self →
         flt (track_dist_metric lt Placeholder c)
             (Fin (inject_Z (track_cost_cutoff lt))) = true).
Proof.
  split; [reflexivity|]. split; [destruct c; reflexivity|]. split.
  - intros lt [= <-] Hmax. cbn [track_dist_metric track_cost_cutoff].
    unfold fgt. cbn [dist_metric]. apply flt_Fin. rewrite <- Zlt_Qlt. lia.
  - intros lt [= <-] Hmax. cbn [track_dist_metric track_cost_cutoff].
    cbn [dist_metric]. apply flt_Fin. rewrite <- Zlt_Qlt. nia.
Qed.

(** X4: the method name is checked before a custom linker is looked at: an
    unknown name raises [RuntimeError] even when a custom linker is given,
    and with one of the two known names the custom linker replaces the
    linker of that name. *)
Theorem custom_linker_override euclidean self (name : string)
    (custom : Linker) :
  (name ≠ "laptrack" → name ≠ "spatial_laptrack" →
   linker_in_use euclidean self (Some name) (Some custom)
   = inl (RuntimeError ("Invalid tracking method '" ++ name ++ "'")) ∧
   linker_in_use euclidean self (Some name) None
   = inl (RuntimeError ("Invalid tracking method '" ++ name ++ "'"))) ∧
  (name = "laptrack" ∨ name = "spatial_laptrack" →
   linker_in_use euclidean self (Some name) (Some custom) = inr custom ∧
   linker_in_use euclidean self (Some name) None
   = select_linker euclidean self name).
Proof.
  split.
  - intros H1 H2. unfold linker_in_use. simpl.
    rewrite (select_linker_unknown euclidean self name H1 H2). split; reflexivity.
  - intros [-> | ->]; split; reflexivity.
Qed.

(** ** The data frame of the spots *)

Lemma spots_df_rows_of_frame (frame : Z) (mb_spots : list MidBodySpot)
    (spots_df : list (Z * coords)) :
  fold_left (λ spots_df mb_spot,
               spots_df ++ [(frame, coords_of_spot mb_spot)])
            mb_spots spots_df
  = spots_df ++ map (λ mb_spot, (frame, coords_of_spot mb_spot)) mb_spots.
Proof.
  revert spots_df. induction mb_spots as [|s l IH]; intros spots_df; simpl.
  - symmetry. apply app_nil_r.
  - rewrite IH, <- app_assoc. reflexivity.
Qed.

Lemma spots_df_fold (spots_candidates : list (Z * list MidBodySpot))
    (spots_df : list (Z * coords)) :
  fold_left spots_df_step spots_candidates spots_df
  = spots_df
    ++ flat_map (λ '(frame, mb_spots),
                   match mb_spots with
                   | [] => [(frame, Placeholder)]
                   | _ => map (λ mb_spot, (frame, coords_of_spot mb_spot))
                              mb_spots
                   end)
                spots_candidates.
Proof.
  revert spots_df.
  induction spots_candidates as [|[frame mb_spots] rest IH]; intros spots_df.
  - simpl. symmetry. apply app_nil_r.
  - cbn [fold_left flat_map]. rewrite IH, app_assoc. f_equal.
    unfold spots_df_step. destruct mb_spots as [|s l].
    + reflexivity.
    + rewrite decide_False by (simpl; lia). apply spots_df_rows_of_frame.
Qed.

(** X5: the data frame handed to the linker holds, frame after frame in the
    order of the dictionary, one placeholder row for a frame without spot
    and, for any other frame, one row per spot in the order of the spots;
    nothing else, nothing twice: a frame without spots is kept, never
    dropped. *)
Theorem spots_df_rows (spots_candidates : list (Z * list MidBodySpot)) :
  spots_df_of spots_candidates
  = flat_map (λ '(frame, mb_spots),
                match mb_spots with
                | [] => [(frame, Placeholder)]
                | _ => map (λ mb_spot, (frame, coords_of_spot mb_spot)) mb_spots
                end)
             spots_candidates.
Proof.
  unfold spots_df_of. rewrite spots_df_fold. reflexivity.
Qed.

Example spots_df_rows_example :
  spots_df_of [(0, []); (1, [spot_b; spot_far]); (2, [])]
  = [(0, Placeholder); (1, coords_of_spot spot_b);
     (1, coords_of_spot spot_far); (2, Placeholder)].
Proof. reflexivity. Qed.

(** ** The links of two frames *)

(** X6: whatever assignment the solver returns, [_update_spots_hereditary]
    links only a spot of the first list to a spot of the second: every link
    [(i, j)] is a pair of the assignment with [i] and [j] inside the two
    lists; pairs that involve a padding row or column are dropped. *)
Theorem hereditary_links_in_range euclidean self linear_sum_assignment
    (spots1 spots2 : list MidBodySpot) (links : list (nat * nat)) :
  _update_spots_hereditary euclidean self linear_sum_assignment spots1 spots2
  = inr links →
  Forall (λ link,
            is_Some (spots1 !! link.1) ∧ is_Some (spots2 !! link.2) ∧
            ∃ m assignment,
              padded_cost_matrix euclidean self spots1 spots2 = inr m ∧
              linear_sum_assignment m = inr assignment ∧ link ∈ assignment)
         links.
Proof.
  unfold _update_spots_hereditary. intros H.
  apply Forall_forall. intros [i j] Hin.
  case_bool_decide as Hempty.
  - injection H as <-. inversion Hin.
  - destruct (padded_cost_matrix euclidean self spots1 spots2) as [e|m] eqn:Em;
      [discriminate|].
    cbn [bind] in H.
    destruct (linear_sum_assignment m) as [e|assignment] eqn:Ea;
      [discriminate|].
    cbn [bind ret] in H. injection H as <-.
    apply list_elem_of_filter in Hin as [[Hi Hj] Hin].
    split; [apply lookup_lt_is_Some_2; exact Hi|].
    split; [apply lookup_lt_is_Some_2; exact Hj|].
    exists m, assignment.
    split; [reflexivity|]. split; [exact Ea|exact Hin].
Qed.

(** X6 with the diagonal assignment on two lists of two spots: of the four
    pairs of the assignment, the two inside the lists are kept. *)
Lemma hereditary_links_in_range_witness :
  Forall (λ link,
            is_Some ([spot_a; spot_b] !! link.1) ∧
            is_Some ([spot_b; spot_far] !! link.2) ∧
            ∃ m assignment,
              padded_cost_matrix grid_euclidean factory0 [spot_a; spot_b]
                [spot_b; spot_far] = inr m ∧
              diagonal_assignment m = inr assignment ∧ link ∈ assignment)
         [(0%nat, 0%nat); (1%nat, 1%nat)].
Proof.
  apply (hereditary_links_in_range grid_euclidean factory0
           diagonal_assignment [spot_a; spot_b] [spot_b; spot_far]).
  vm_compute. reflexivity.
Defined.

(** ** Spot detection *)

Lemma py_int_between (lo hi : Z) (q : Q) :
  (inject_Z lo <= q)%Q → (q <= inject_Z hi)%Q → lo <= py_int q <= hi.
Proof.
  destruct q as [n d]. unfold Qle, py_int. simpl. intros Hlo Hhi.
  rewrite Z.mul_1_r in *. split.
  - rewrite <- (Z.quot_mul lo (Z.pos d)) by lia.
    apply Z.quot_le_mono; lia.
  - rewrite <- (Z.quot_mul hi (Z.pos d)) by lia.
    apply Z.quot_le_mono; lia.
Qed.

Lemma sum_between (lo hi : Q) (l : list Q) :
  Forall (λ p, lo <= p <= hi)%Q l →
  (inject_Z (Z.of_nat (length l)) * lo <= fold_right Qplus 0 l
   <= inject_Z (Z.of_nat (length l)) * hi)%Q.
Proof.
  induction 1 as [|p l [Hlo Hhi] _ [IHlo IHhi]]; simpl fold_right.
  - cbn [length]. change (inject_Z (Z.of_nat 0)) with 0%Q. lra.
  - cbn [length]. rewrite Nat2Z.inj_succ. unfold Z.succ.
    rewrite inject_Z_plus. change (inject_Z 1) with 1%Q. split; lra.
Qed.

Section SpotDetectionMore.

Variables Image Image2D Mask : Type.
Variable channel : Image → Z → Image2D.
Variable bigfish_spots : Factory → Image2D → Mask → result (list (list Z)).
Variable h_maxima_spots : Factory → Image2D → result (list (list Z)).
Variable smart_cropping : Image2D → Z → Z → Z → Z → Z → list Q.
Variable self : Factory.

Lemma convert_blob_error (spot : blob) :
  convert_blob spot
  = match spot with
    | _ :: _ :: sigma :: _ =>
        if decide (py_int sigma = 0 ∨ 2 <= py_int sigma <= 36)
        then inl TypeError
        else inl (ValueError "int() base must be >= 2 and <= 36, or 0")
    | _ => inl IndexError
    end.
Proof.
  destruct spot as [|s0 [|s1 [|s2 rest]]]; try reflexivity.
  unfold convert_blob, py_int_base. simpl. case_decide; reflexivity.
Qed.

Lemma mapping_lookup (detection : DetectionModule Image2D) (name : string) :
  name ∈ blob_like_names →
  mapping Image2D detection !! name
  = if decide (name = "cur_log") then Some (current_log Image2D detection)
    else if decide (name = "lapgau") then Some (lapgau Image2D detection)
    else if decide (name = "log2_wider") then Some (log2_wider Image2D detection)
    else if decide (name = "cur_dog") then Some (current_dog Image2D detection)
    else if decide (name = "hessian") then Some (hessian Image2D detection)
    else None.
Proof.
  intros Hin. unfold blob_like_names in Hin.
  repeat (apply elem_of_cons in Hin as [->|Hin]); [..|inversion Hin];
    reflexivity.
Qed.

End SpotDetectionMore.

Section SpotDetectionExtras.

Variables Image Image2D Mask : Type.
Variable channel : Image → Z → Image2D.
Variable detection : DetectionModule Image2D.
Variable bigfish_spots : Factory → Image2D → Mask → result (list (list Z)).
Variable h_maxima_spots : Factory → Image2D → result (list (list Z)).
Variable smart_cropping : Image2D → Z → Z → Z → Z → Z → list Q.
Variable self : Factory.
Variable all_ones : Image → Mask.

(** X7: the outcome of a blob strategy, given as a callable or reached by
    its name, is decided by what the detector returns on the mid-body
    channel: no blob gives no spot and no error; otherwise the conversion of
    the first blob raises: [IndexError] when the blob has fewer than three
    values, [TypeError] when its third value, truncated to an integer, is a
    base Python accepts (0 or 2 to 36), and [ValueError] for any other
    base. *)
Theorem blob_strategy_outcome (image : Image) (mask : Mask)
    (mid_body_channel sir_channel frame_index : Z) (log_blob_spot : bool)
    (f : Image2D → list blob) (name : string) :
  let outcome (blobs : list blob) : result (list MidBodySpot) :=
    match blobs with
    | [] => inr []
    | (_ :: _ :: sigma :: _) :: _ =>
        if decide (py_int sigma = 0 ∨ 2 <= py_int sigma <= 36)
        then inl TypeError
        else inl (ValueError "int() base must be >= 2 and <= 36, or 0")
    | _ :: _ => inl IndexError
    end in
  _spot_detection Image Image2D Mask channel detection bigfish_spots
    h_maxima_spots smart_cropping self image mask mid_body_channel
    sir_channel (ModeCallable f) frame_index log_blob_spot
  = outcome (f (channel image mid_body_channel)) ∧
  (name ∈ blob_like_names →
   mapping Image2D detection !! name = Some f →
   _spot_detection Image Image2D Mask channel detection bigfish_spots
     h_maxima_spots smart_cropping self image mask mid_body_channel
     sir_channel (ModeName name) frame_index log_blob_spot
   = outcome (f (channel image mid_body_channel))).
Proof.
  cbv zeta. split.
  - unfold _spot_detection.
    destruct (f (channel image mid_body_channel)) as [|spot rest].
    + destruct log_blob_spot; reflexivity.
    + cbn [mapE]. rewrite convert_blob_error.
      destruct spot as [|s0 [|s1 [|s2 tail]]]; try reflexivity.
      case_decide; reflexivity.
  - intros Hin Hmap. unfold _spot_detection.
    rewrite bool_decide_eq_true_2 by exact Hin. rewrite Hmap.
    destruct (f (channel image mid_body_channel)) as [|spot rest].
    + destruct log_blob_spot; reflexivity.
    + cbn [mapE]. rewrite convert_blob_error.
      destruct spot as [|s0 [|s1 [|s2 tail]]]; try reflexivity.
      case_decide; reflexivity.
Qed.

(** X8: no mode name reaches the detectors [current_doh], [rshift_log] and
    [diffgau]: two detection modules that agree on the five other detectors
    give the same result for every mode. *)
Theorem unreachable_detectors (detection' : DetectionModule Image2D)
    (image : Image) (mask : Mask) (mid_body_channel sir_channel : Z)
    (mode : Mode Image2D) (frame_index : Z) (log_blob_spot : bool) :
  current_log Image2D detection = current_log Image2D detection' →
  lapgau Image2D detection = lapgau Image2D detection' →
  log2_wider Image2D detection = log2_wider Image2D detection' →
  current_dog Image2D detection = current_dog Image2D detection' →
  hessian Image2D detection = hessian Image2D detection' →
  _spot_detection Image Image2D Mask channel detection bigfish_spots
    h_maxima_spots smart_cropping self image mask mid_body_channel
    sir_channel mode frame_index log_blob_spot
  = _spot_detection Image Image2D Mask channel detection' bigfish_spots
      h_maxima_spots smart_cropping self image mask mid_body_channel
      sir_channel mode frame_index log_blob_spot.
Proof.
  intros H1 H2 H3 H4 H5. unfold _spot_detection.
  destruct mode as [f|name]; [reflexivity|].
  case_bool_decide as Hin; [|reflexivity].
  rewrite !mapping_lookup by exact Hin. rewrite H1, H2, H3, H4, H5.
  reflexivity.
Qed.

(** X9: every call of [detect_mid_body_spots] that leaves the mode and the
    mask out raises [ValueError] on a movie with at least one frame: the
    default mode "diffgau" is refused as an unknown mode at the first
    frame. *)
Theorem default_mode_refused (mitosis_movie : list Image) :
  mitosis_movie ≠ [] →
  detect_mid_body_spots Image Image2D Mask channel detection bigfish_spots
    h_maxima_spots smart_cropping self all_ones mitosis_movie None None
  = inl (ValueError "Unknown mode: diffgau").
Proof.
  intros Hne. destruct mitosis_movie as [|image rest]; [congruence|].
  unfold detect_mid_body_spots. cbn [default fmap list_fmap detect_frames].
  unfold py_getitem. cbn [lookup list_lookup bind ret].
  rewrite (unknown_mode Image Image2D Mask channel detection bigfish_spots
             h_maxima_spots smart_cropping self image (all_ones image) 1 0
             (Z.of_nat 0) true "diffgau");
    [reflexivity| |discriminate|discriminate].
  intros H. apply (bool_decide_pack _) in H. vm_compute in H. exact H.
Qed.

Lemma detect_frames_keys (frames : list Image) (mask_movie : list Mask)
    (mode : Mode Image2D) :
  ∀ (start : nat) spots_dictionary,
    detect_frames Image Image2D Mask channel detection bigfish_spots
      h_maxima_spots smart_cropping self start frames mask_movie mode
    = inr spots_dictionary →
    map fst spots_dictionary = map Z.of_nat (seq start (length frames)) ∧
    (frames = [] ∨ (start + length frames <= length mask_movie)%nat) ∧
    ∀ i image spots,
      frames !! i = Some image →
      spots_dictionary !! i = Some (Z.of_nat (start + i), spots) →
      ∃ mask, mask_movie !! (start + i)%nat = Some mask ∧
              _spot_detection Image Image2D Mask channel detection
                bigfish_spots h_maxima_spots smart_cropping self image mask
                1 0 mode (Z.of_nat (start + i)) true = inr spots.
Proof.
  induction frames as [|image rest IH]; intros start d H.
  - injection H as <-. split; [reflexivity|]. split; [left; reflexivity|].
    intros i image spots Hi. rewrite lookup_nil in Hi. discriminate.
  - cbn [detect_frames] in H. unfold py_getitem in H.
    destruct (mask_movie !! start) as [mask|] eqn:Hmask; [|discriminate].
    cbn [bind ret] in H.
    destruct (_spot_detection _ _ _ _ _ _ _ _ _ image mask 1 0 mode
                (Z.of_nat start) true) as [e|spots0] eqn:Hspots;
      [discriminate|].
    cbn [bind ret] in H.
    destruct (detect_frames _ _ _ _ _ _ _ _ _ (S start) rest mask_movie mode)
      as [e|others] eqn:Hrest; [discriminate|].
    cbn [bind ret] in H. injection H as <-.
    destruct (IH (S start) others Hrest) as (Hkeys & Hlen & Hall).
    split; [simpl; f_equal; exact Hkeys|].
    split; [right; simpl; apply lookup_lt_Some in Hmask;
            destruct Hlen as [-> |Hlen]; simpl; lia|].
    intros [|i] img spots Hi Hd.
    + simpl in Hi, Hd. injection Hi as <-. injection Hd as _ <-.
      exists mask. rewrite Nat.add_0_r. auto.
    + simpl in Hi, Hd.
      replace (start + S i)%nat with (S start + i)%nat in * by lia.
      apply (Hall i img spots Hi Hd).
Qed.

(** X10: when [detect_mid_body_spots] returns, its dictionary has exactly
    one entry per frame of the movie, keyed 0, 1, 2, ... in this order, the
    mask movie has at least as many frames, and the entry of a frame is what
    [_spot_detection] returns for that frame, its mask, the channels 1 and
    0 and the frame index. *)
Theorem detected_frames (mitosis_movie : list Image) (mask_movie : list Mask)
    (mode : Mode Image2D) spots_dictionary :
  detect_mid_body_spots Image Image2D Mask channel detection bigfish_spots
    h_maxima_spots smart_cropping self all_ones mitosis_movie
    (Some mask_movie) (Some mode) = inr spots_dictionary →
  map fst spots_dictionary
  = map Z.of_nat (seq 0 (length mitosis_movie)) ∧
  (length mitosis_movie <= length mask_movie)%nat ∧
  Forall2 (λ image_mask entry,
             _spot_detection Image Image2D Mask channel detection
               bigfish_spots h_maxima_spots smart_cropping self
               image_mask.1 image_mask.2 1 0 mode entry.1 true
             = inr entry.2)
          (zip mitosis_movie mask_movie) spots_dictionary.
Proof.
  unfold detect_mid_body_spots. cbn [default]. intros H.
  destruct (detect_frames_keys mitosis_movie mask_movie mode 0
              spots_dictionary H) as (Hkeys & Hlen & Hall).
  assert (length mitosis_movie <= length mask_movie)%nat as Hlen0
    by (destruct Hlen as [-> |Hlen]; simpl in *; lia).
  split; [exact Hkeys|]. split; [exact Hlen0|].
  assert (length spots_dictionary = length mitosis_movie) as Hlen'.
  { rewrite <- (length_map fst spots_dictionary), Hkeys, length_map.
    apply length_seq. }
  apply Forall2_same_length_lookup_2.
  - rewrite length_zip_with. lia.
  - intros i [image mask] [k spots] Hzip Hd.
    apply lookup_zip_with_Some in Hzip as (im & ma & [= <- <-] & Him & Hma).
    assert (k = Z.of_nat i) as ->.
    { assert (map fst spots_dictionary !! i = Some k) as Hk
        by (rewrite list_lookup_fmap, Hd; reflexivity).
      rewrite Hkeys, list_lookup_fmap in Hk.
      rewrite lookup_seq_lt in Hk
        by (apply lookup_lt_Some in Him; exact Him).
      simpl in Hk. congruence. }
    destruct (Hall i image spots Him Hd) as (mask' & Hmask' & Hspots).
    simpl in Hmask'. rewrite Hma in Hmask'. injection Hmask' as <-.
    exact Hspots.
Qed.

End SpotDetectionExtras.

(** X8 at two detection modules that differ on the three detectors. *)
Lemma unreachable_detectors_witness :
  _spot_detection unit unit unit unit_channel no_detection no_bigfish
    two_positions crop3 factory0 () () 1 0 (ModeName "cur_doh") 0 true
  = _spot_detection unit unit unit unit_channel some_detection no_bigfish
      two_positions crop3 factory0 () () 1 0 (ModeName "cur_doh") 0 true.
Proof.
  apply (unreachable_detectors unit unit unit unit_channel no_detection
           no_bigfish two_positions crop3 factory0 some_detection);
    reflexivity.
Defined.

(** X9 at a movie of one frame. *)
Lemma default_mode_refused_witness :
  detect_mid_body_spots unit unit unit unit_channel no_detection no_bigfish
    two_positions crop3 factory0 (λ _, ()) [()] None None
  = inl (ValueError "Unknown mode: diffgau").
Proof.
  apply (default_mode_refused unit unit unit unit_channel no_detection
           no_bigfish two_positions crop3 factory0 (λ _, ()) [()]).
  discriminate.
Defined.

(** X10 at a movie of two frames, with the mode "h_maxima". *)
Lemma detected_frames_witness :
  map fst [(0, two_spots 0); (1, two_spots 1)]
  = map Z.of_nat (seq 0 (length [(); ()])) ∧
  (length [(); ()] <= length [(); ()])%nat ∧
  Forall2 (λ image_mask entry,
             _spot_detection unit unit unit unit_channel no_detection
               no_bigfish two_positions crop3 factory0
               image_mask.1 image_mask.2 1 0 (ModeName "h_maxima") entry.1
               true
             = inr entry.2)
          (zip [(); ()] [(); ()]) [(0, two_spots 0); (1, two_spots 1)].
Proof.
  apply (detected_frames unit unit unit unit_channel no_detection no_bigfish
           two_positions crop3 factory0 (λ _, ()) [(); ()] [(); ()]
           (ModeName "h_maxima") [(0, two_spots 0); (1, two_spots 1)]).
  vm_compute. reflexivity.
Defined.

(** X11: the intensity of a spot is an integer between the smallest and the
    largest pixel of its crop: if every pixel of the crop lies between the
    integers [lo] and [hi], so does [_get_average_intensity]. *)
Theorem average_intensity_bounds (Image2D : Type)
    (smart_cropping : Image2D → Z → Z → Z → Z → Z → list Q)
    (position : list Z) (image : Image2D) (p0 p1 lo hi v : Z) :
  position !! 0%nat = Some p0 → position !! 1%nat = Some p1 →
  Forall (λ p, inject_Z lo <= p <= inject_Z hi)%Q
         (smart_cropping image 1 p1 p0 (p1 + 1) (p0 + 1)) →
  _get_average_intensity Image2D smart_cropping position image = inr v →
  lo <= v <= hi.
Proof.
  intros H0 H1 Hcrop. unfold _get_average_intensity, py_getitem.
  rewrite H1, H0. cbn [bind ret].
  destruct (smart_cropping image 1 p1 p0 (p1 + 1) (p0 + 1)) as [|p crop] eqn:E;
    [discriminate|].
  intros [= <-]. destruct (sum_between _ _ _ Hcrop) as [Hlo Hhi].
  assert (0 < inject_Z (Z.of_nat (length (p :: crop))))%Q as Hn
    by (change 0%Q with (inject_Z 0); rewrite <- Zlt_Qlt; simpl; lia).
  change (p + foldr Qplus 0 crop)%Q with (foldr Qplus 0%Q (p :: crop)).
  change (S (length crop)) with (length (p :: crop)).
  apply py_int_between.
  - apply Qle_shift_div_l; [exact Hn|]. lra.
  - apply Qle_shift_div_r; [exact Hn|]. lra.
Qed.

(** X11 at the crop [crop3] of pixels 1, 2 and 4. *)
Lemma average_intensity_bounds_witness :
  _get_average_intensity unit crop3 [3; 4] () = inr 2 ∧ 1 <= 2 <= 4.
Proof.
  split; [vm_compute; reflexivity|].
  apply (average_intensity_bounds unit crop3 [3; 4] () 3 4 1 4 2).
  - reflexivity.
  - reflexivity.
  - repeat constructor; vm_compute; discriminate.
  - vm_compute. reflexivity.
Defined.

(** X12: the branches "h_maxima" and "bigfish" turn each position [(y, x)]
    into one spot, in the same order: the spot has [x = position[1]] and
    [y = position[0]] (the two coordinates are swapped), the frame index of
    the call, and as intensities what [_get_average_intensity] returns on
    the mid-body channel and on the secondary channel. *)
Theorem positions_to_spots (Image Image2D Mask : Type)
    (channel : Image → Z → Image2D) (detection : DetectionModule Image2D)
    (bigfish_spots : Factory → Image2D → Mask → result (list (list Z)))
    (h_maxima_spots : Factory → Image2D → result (list (list Z)))
    (smart_cropping : Image2D → Z → Z → Z → Z → Z → list Q)
    (self : Factory) (image : Image) (mask : Mask)
    (mid_body_channel sir_channel frame_index : Z) (log_blob_spot : bool)
    (name : string) (positions : list (list Z)) (spots : list MidBodySpot) :
  (name = "h_maxima" ∧
   h_maxima_spots self (channel image mid_body_channel) = inr positions)
  ∨ (name = "bigfish" ∧
     bigfish_spots self (channel image mid_body_channel) mask
     = inr positions) →
  _spot_detection Image Image2D Mask channel detection bigfish_spots
    h_maxima_spots smart_cropping self image mask mid_body_channel
    sir_channel (ModeName name) frame_index log_blob_spot = inr spots →
  Forall2 (λ position spot,
             position !! 1%nat = Some (x spot) ∧
             position !! 0%nat = Some (y spot) ∧
             frame spot = frame_index ∧
             _get_average_intensity Image2D smart_cropping position
               (channel image mid_body_channel) = inr (intensity spot) ∧
             _get_average_intensity Image2D smart_cropping position
               (channel image sir_channel) = inr (sir_intensity spot))
          positions spots.
Proof.
  intros Hpos. unfold _spot_detection.
  assert (name ∉ blob_like_names) as Hnot.
  { intros H. apply (bool_decide_pack _) in H.
    destruct Hpos as [[-> _]|[-> _]]; vm_compute in H; exact H. }
  rewrite bool_decide_eq_false_2 by exact Hnot.
  assert ((if (name =? "bigfish")%string
           then bigfish_spots self (channel image mid_body_channel) mask
           else if (name =? "h_maxima")%string
                then h_maxima_spots self (channel image mid_body_channel)
                else raise (ValueError ("Unknown mode: " ++ name)))
          = inr positions) as ->
    by (destruct Hpos as [[-> H]|[-> H]]; exact H).
  cbn [bind]. intros H. apply mapE_inr in H.
  eapply Forall2_impl; [exact H|].
  intros position spot Hs. cbv beta in Hs. unfold py_getitem in Hs.
  destruct (position !! 1%nat) as [px|]; [|discriminate].
  destruct (position !! 0%nat) as [py|]; [|discriminate].
  cbn [bind ret] in Hs.
  destruct (_get_average_intensity Image2D smart_cropping position
              (channel image mid_body_channel)) as [e|i]; [discriminate|].
  cbn [bind] in Hs.
  destruct (_get_average_intensity Image2D smart_cropping position
              (channel image sir_channel)) as [e|s]; [discriminate|].
  cbn [bind ret] in Hs. injection Hs as <-. simpl. auto.
Qed.

(** X12 at the two positions (3, 4) and (5, 6). *)
Lemma positions_to_spots_witness :
  Forall2 (λ position spot,
             position !! 1%nat = Some (x spot) ∧
             position !! 0%nat = Some (y spot) ∧
             frame spot = 7 ∧
             _get_average_intensity unit crop3 position (unit_channel () 1)
             = inr (intensity spot) ∧
             _get_average_intensity unit crop3 position (unit_channel () 0)
             = inr (sir_intensity spot))
          [[3; 4]; [5; 6]] (two_spots 7).
Proof.
  apply (positions_to_spots unit unit unit unit_channel no_detection
           no_bigfish two_positions crop3 factory0 () () 1 0 7 true
           "h_maxima" [[3; 4]; [5; 6]] (two_spots 7)).
  - left. split; reflexivity.
  - vm_compute. reflexivity.
Defined.

(** ** The Selector at its edges *)

Lemma mapE_first_raises {A B} (f : A → result B) (a : A) (l : list A) e :
  f a = inl e → mapE f (a :: l) = inl e.
Proof. intros H. simpl. rewrite H. reflexivity. Qed.

(** X13: in the part of the Selector that starts at the length filter, the
    filter runs before anything else is read.  When no candidate is longer
    than the minimum, that part returns [None] without consulting the key
    events; when a candidate is, and the mitosis record has no key event
    "cytokinesis", it raises [KeyError]. *)
Theorem selector_without_candidates self bits image_sir get_expected_distance
    mitosis_track (mid_body_tracks : list MidBodyTrack) :
  (length_filter self mid_body_tracks = [] →
   select_from_candidates self bits image_sir get_expected_distance
     mitosis_track mid_body_tracks = inr None) ∧
  (length_filter self mid_body_tracks ≠ [] →
   key_events_frame mitosis_track !! "cytokinesis" = None →
   select_from_candidates self bits image_sir get_expected_distance
     mitosis_track mid_body_tracks = inl (KeyError "cytokinesis")).
Proof.
  split.
  - intros H. unfold select_from_candidates. rewrite H. reflexivity.
  - intros Hne Hkey. unfold select_from_candidates.
    destruct (length_filter self mid_body_tracks) as [|t l]; [congruence|].
    rewrite (mapE_first_raises _ t l (KeyError "cytokinesis"));
      [reflexivity|].
    unfold sir_intensity_of, sir_window. rewrite Hkey. reflexivity.
Qed.

Example selector_no_event :
  select_from_candidates factory0 16 ramp_sir distance_by_id mitosis_no_event
    [short_track] = inr None ∧
  select_from_candidates factory0 16 ramp_sir distance_by_id mitosis_no_event
    [short_track; long_track] = inl (KeyError "cytokinesis").
Proof. split; vm_compute; reflexivity. Qed.

(** The head of the sorted list is the first of the elements with the
    smallest key: every element before it has a strictly larger key. *)
Lemma sorted_by_key_first {A} (l : list (fval * A)) (h : fval * A) :
  Forall (λ kt, is_finite kt.1 = true) l →
  head (sorted_by_key l) = Some h →
  ∃ l1 l2, l = l1 ++ h :: l2 ∧ Forall (λ e, flt h.1 e.1 = true) l1.
Proof.
  revert h. induction l as [|x l IH]; intros h Hfin Hhead; [discriminate|].
  apply Forall_cons in Hfin as [Hx Hfin].
  simpl in Hhead. destruct (sorted_by_key l) as [|y s] eqn:Es.
  - simpl in Hhead. injection Hhead as <-. exists [], l. split; [reflexivity|].
    constructor.
  - simpl in Hhead. destruct (flt y.1 x.1) eqn:E.
    + simpl in Hhead. injection Hhead as <-.
      destruct (IH y Hfin eq_refl) as (l1 & l2 & -> & Hl1).
      exists (x :: l1), l2. split; [reflexivity|].
      constructor; [exact E|exact Hl1].
    + simpl in Hhead. injection Hhead as <-. exists [], l.
      split; [reflexivity|constructor].
Qed.

Lemma first_occurrence_unique {A} (x : A) (a b a' b' : list A) :
  x ∉ a → x ∉ a' → a ++ x :: b = a' ++ x :: b' → a = a'.
Proof.
  revert a'. induction a as [|y a IH]; intros a' Ha Ha' E.
  - destruct a' as [|y' a']; [reflexivity|].
    simpl in E. injection E as <- _. exfalso. apply Ha'. left.
  - destruct a' as [|y' a'].
    + simpl in E. injection E as -> _. exfalso. apply Ha. left.
    + simpl in E. injection E as <- E. f_equal.
      apply IH; [|  |exact E].
      * intros H. apply Ha. right. exact H.
      * intros H. apply Ha'. right. exact H.
Qed.

Lemma mapE_app_inv {A B} (f : A → result B) (l1 l2 : list A) (bs : list B) :
  mapE f (l1 ++ l2) = inr bs →
  ∃ bs1 bs2, bs = bs1 ++ bs2 ∧ mapE f l1 = inr bs1 ∧ mapE f l2 = inr bs2.
Proof.
  revert bs. induction l1 as [|a l1 IH]; intros bs H.
  - exists [], bs. auto.
  - simpl in H. destruct (f a) as [e|b] eqn:Ea; [discriminate|].
    cbn [bind] in H.
    destruct (mapE f (l1 ++ l2)) as [e|bs'] eqn:E; [discriminate|].
    cbn [bind ret] in H. injection H as <-.
    destruct (IH bs' eq_refl) as (bs1 & bs2 & -> & H1 & H2).
    exists (b :: bs1), bs2. split; [reflexivity|].
    split; [simpl; rewrite Ea; cbn [bind]; rewrite H1; reflexivity|exact H2].
Qed.

(** X14: ties go to the earliest candidate.  Under the conditions of the
    ranking (distinct frame keys, a recorded start of the cytokinesis,
    non-negative duration and minimum length, expected distances finite or
    [+inf]), every candidate that stands before the selected track in the
    filtered list has an infinite score or a strictly larger score than the
    selected one. *)
Theorem earliest_candidate_wins self bits image_sir get_expected_distance
    mitosis_track (mid_body_tracks l1 l2 : list MidBodyTrack)
    (track : MidBodyTrack) (cytokinesis_start : Z) :
  key_events_frame mitosis_track !! "cytokinesis" = Some cytokinesis_start →
  0 <= cytokinesis_duration self →
  0 <= minimum_mid_body_track_length self →
  Forall (λ track, NoDup (map fst (spots track))) mid_body_tracks →
  (∀ track, get_expected_distance track = PInf
            ∨ ∃ q, get_expected_distance track = Fin q) →
  length_filter self mid_body_tracks = l1 ++ track :: l2 →
  track ∉ l1 →
  select_from_candidates self bits image_sir get_expected_distance
    mitosis_track mid_body_tracks = inr (Some track) →
  Forall (λ earlier,
            ∃ v v',
              selector_score self bits image_sir get_expected_distance
                mitosis_track track = inr v ∧
              selector_score self bits image_sir get_expected_distance
                mitosis_track earlier = inr v' ∧
              (v' = PInf ∨ flt v v' = true))
         l1.
Proof.
  intros Hkey Hdur Hmin Hnd Hdist Hsplit Hfresh Hsel.
  set (score := selector_score self bits image_sir get_expected_distance
                  mitosis_track) in *.
  assert (∀ t, t ∈ l1 ++ track :: l2 →
               ∃ v, score t = inr v ∧ (v = PInf ∨ ∃ q, v = Fin q)) as Hkind.
  { intros t Ht. rewrite <- Hsplit in Ht.
    apply list_elem_of_filter in Ht as [Hlen Ht].
    rewrite Forall_forall in Hnd.
    apply (selector_score_kind self bits image_sir get_expected_distance
             mitosis_track t cytokinesis_start Hkey Hdur);
      [|apply Hnd; exact Ht|apply Hdist].
    intros E. unfold track_length in Hlen. rewrite E in Hlen. simpl in Hlen.
    lia. }
  destruct (mapE_total score (l1 ++ track :: l2)) as [vs Hvs].
  { intros t Ht. destruct (Hkind t Ht) as (v & Hv & _). eauto. }
  pose proof Hvs as Hvs0. rewrite <- Hsplit in Hvs0.
  rewrite (select_best_track_scores self bits image_sir get_expected_distance
             mitosis_track mid_body_tracks vs Hvs0) in Hsel.
  rewrite Hsplit in Hsel.
  destruct (mapE_app_inv score l1 (track :: l2) vs Hvs)
    as (vs1 & vs2' & -> & Hvs1 & Hvs2').
  simpl in Hvs2'. destruct (score track) as [e|v] eqn:Hv; [discriminate|].
  cbn [bind] in Hvs2'.
  destruct (mapE score l2) as [e|vs2] eqn:Hvs2; [discriminate|].
  cbn [bind ret] in Hvs2'. injection Hvs2' as <-.
  assert (length vs1 = length l1) as Hlen1
    by (symmetry; eapply Forall2_length, mapE_inr, Hvs1).
  rewrite zip_with_app in Hsel by exact Hlen1.
  rewrite filter_app in Hsel. cbn [zip_with] in Hsel.
  pose proof (mapE_zip score l1 vs1 Hvs1) as Hzip1.
  pose proof (mapE_zip score (l1 ++ track :: l2) (vs1 ++ v :: vs2) Hvs)
    as Hzip.
  rewrite zip_with_app in Hzip by exact Hlen1. cbn [zip_with] in Hzip.
  set (keep := λ kt : fval * MidBodyTrack, fneb kt.1 PInf = true) in *.
  set (final := filter keep (zip vs1 l1)
                ++ filter keep ((v, track) :: zip vs2 l2)) in *.
  assert (Forall (λ kt, is_finite kt.1 = true) final) as Hfinite.
  { apply Forall_forall. intros [v' t'] Hin.
    assert ((v', t') ∈ filter keep
              (zip vs1 l1 ++ (v, track) :: zip vs2 l2)) as Hin'
      by (rewrite filter_app; exact Hin).
    apply list_elem_of_filter in Hin' as [Hne Hin'].
    apply Hzip in Hin' as [Ht' Hv'].
    destruct (Hkind t' Ht') as (v0 & Hv0 & [->|[q ->]]);
      rewrite Hv' in Hv0; injection Hv0 as ->; [discriminate Hne|reflexivity]. }
  destruct (head (sorted_by_key final)) as [h|] eqn:Hhead; [|discriminate].
  simpl in Hsel. injection Hsel as Hh.
  assert (h ∈ final) as Hhin.
  { destruct (sorted_by_key_first final h Hfinite Hhead) as (f1 & f2 & E & _).
    rewrite E. apply elem_of_app. right. left. }
  assert (h = (v, track)) as ->.
  { destruct h as [v' t']. simpl in Hh. subst t'. f_equal.
    assert ((v', track) ∈ filter keep
              (zip vs1 l1 ++ (v, track) :: zip vs2 l2)) as Hin'
      by (rewrite filter_app; exact Hhin).
    apply list_elem_of_filter in Hin' as [_ Hin'].
    apply Hzip in Hin' as [_ Hv']. fold score in Hv'. congruence. }
  assert (keep (v, track)) as Hkeep.
  { unfold final in Hhin. rewrite <- filter_app in Hhin.
    apply list_elem_of_filter in Hhin as [Hk _]. exact Hk. }
  destruct (sorted_by_key_first final (v, track) Hfinite Hhead)
    as (f1 & f2 & E & Hf1).
  unfold final in E. rewrite filter_cons_True in E by exact Hkeep.
  assert (filter keep (zip vs1 l1) = f1) as HA.
  { eapply first_occurrence_unique; [| |exact E].
    - intros Hin. apply list_elem_of_filter in Hin as [_ Hin].
      apply Hzip1 in Hin as [Hin _]. contradiction.
    - intros Hin. rewrite Forall_forall in Hf1. specialize (Hf1 _ Hin).
      simpl in Hf1. rewrite Forall_forall in Hfinite.
      specialize (Hfinite _ Hhin). simpl in Hfinite.
      destruct v; try discriminate. apply flt_Fin in Hf1. lra. }
  apply Forall_forall. intros t' Ht'.
  destruct (Hkind t') as (v' & Hv' & Hk);
    [apply elem_of_app; left; exact Ht'|].
  exists v, v'. split; [reflexivity|]. split; [exact Hv'|].
  destruct Hk as [->|[q ->]]; [left; reflexivity|right].
  assert ((Fin q, t') ∈ filter keep (zip vs1 l1)) as Hin.
  { apply list_elem_of_filter. split; [reflexivity|].
    apply Hzip1. split; assumption. }
  rewrite HA in Hin. rewrite Forall_forall in Hf1.
  apply (Hf1 _ Hin).
Qed.

Lemma distance_tie_kind (track : MidBodyTrack) :
  distance_tie track = PInf ∨ ∃ q, distance_tie track = Fin q.
Proof. unfold distance_tie. case_decide; eauto. Qed.

(** X14 at three candidates of which the last two score the same: the first
    of the two is selected. *)
Lemma earliest_candidate_wins_witness :
  Forall (λ earlier,
            ∃ v v',
              selector_score factory0 16 ramp_sir distance_tie mitosis0
                long_track = inr v ∧
              selector_score factory0 16 ramp_sir distance_tie mitosis0
                earlier = inr v' ∧
              (v' = PInf ∨ flt v v' = true))
         [other_track].
Proof.
  apply (earliest_candidate_wins factory0 16 ramp_sir distance_tie mitosis0
           [other_track; short_track; long_track; twin_track]
           [other_track] [twin_track] long_track 102).
  - reflexivity.
  - vm_compute. discriminate.
  - vm_compute. discriminate.
  - apply (bool_decide_unpack _). vm_compute. exact I.
  - apply distance_tie_kind.
  - vm_compute. reflexivity.
  - intros H. apply (bool_decide_pack _) in H. vm_compute in H. exact H.
  - vm_compute. reflexivity.
Defined.

Lemma MitosisTrack_eq (m1 m2 : MitosisTrack) :
  mother_track_id m1 = mother_track_id m2 →
  daughter_track_ids m1 = daughter_track_ids m2 →
  min_frame m1 = min_frame m2 →
  position_min_x m1 = position_min_x m2 →
  position_min_y m1 = position_min_y m2 →
  key_events_frame m1 = key_events_frame m2 →
  mid_body_spots m1 = mid_body_spots m2 →
  m1 = m2.
Proof.
  destruct m1, m2. simpl. intros. subst. reflexivity.
Qed.

(** What the loop of the Assembler leaves at one key: a spot that the loop
    writes whatever the record held, or the value the record held. *)
Lemma keep_fold_at (l : list (Z * MidBodySpot)) (f start : Z) :
  (∃ spot, ∀ m, min_frame m = start →
      mid_body_spots (fold_left keep_step l m) !! f = Some spot) ∨
  (∀ m, min_frame m = start →
      mid_body_spots (fold_left keep_step l m) !! f = mid_body_spots m !! f).
Proof.
  induction l as [|[r s] l IH].
  - right. reflexivity.
  - destruct IH as [[spot IH]|IH].
    + left. exists spot. intros m Hm. simpl. apply IH. simpl. exact Hm.
    + destruct (decide (f = r + start)) as [->|Hne].
      * left. exists s. intros m Hm. simpl. rewrite IH by (simpl; exact Hm).
        simpl. rewrite Hm. apply lookup_insert_eq.
      * right. intros m Hm. simpl. rewrite IH by (simpl; exact Hm).
        simpl. rewrite Hm. apply lookup_insert_ne. congruence.
Qed.

(** X15: the Assembler is idempotent.  Writing the spots of the selected
    track into a record that already received them changes nothing, also
    when the track lists a frame twice. *)
Theorem keep_spots_idempotent (kept_track : option MidBodyTrack)
    (mitosis_track : MitosisTrack) :
  keep_spots kept_track (keep_spots kept_track mitosis_track)
  = keep_spots kept_track mitosis_track.
Proof.
  destruct kept_track as [track|]; [|reflexivity].
  rewrite !keep_spots_fold.
  set (l := spots track).
  set (m' := fold_left keep_step l mitosis_track).
  pose proof (keep_fold_frame l m') as H'. simpl in H'.
  destruct H' as (H1 & H2 & H3 & H4 & H5 & H6).
  apply MitosisTrack_eq; try assumption.
  apply map_eq. intros f.
  pose proof (keep_fold_frame l mitosis_track) as H0. simpl in H0.
  destruct H0 as (_ & _ & Hstart & _).
  destruct (keep_fold_at l f (min_frame mitosis_track)) as [[spot Hw]|Hk].
  - rewrite (Hw m' Hstart). symmetry. apply Hw. reflexivity.
  - apply Hk. exact Hstart.
Qed.

(** ** The colours of the saved tracking *)

Lemma color_list_length (tab10 : Z → Color) :
  length (color_list (MbTrackColorManager_init tab10)) = 10%nat.
Proof. reflexivity. Qed.

Lemma inc_index_bound (lib : MbTrackColorManager) :
  (index lib < length (color_list lib))%nat →
  (index (inc_index lib) < length (color_list (inc_index lib)))%nat.
Proof.
  intros H. unfold inc_index. simpl. case_decide; lia.
Qed.

(** A call of [get_color_for_track] leaves the colour it returns under the
    id, and keeps every colour that was assigned before. *)
Lemma get_color_spec (lib lib' : MbTrackColorManager) (id : Z) (c : Color) :
  get_color_for_track lib id = inr (c, lib') →
  id2color lib' !! id = Some c ∧
  (∀ k v, id2color lib !! k = Some v → id2color lib' !! k = Some v) ∧
  color_list lib' = color_list lib.
Proof.
  unfold get_color_for_track.
  destruct (id2color lib !! id) as [c0|] eqn:Hget.
  - intros [= <- <-]. auto.
  - unfold py_getitem.
    destruct (color_list lib !! index lib) as [c0|]; [|discriminate].
    cbn [bind ret]. intros [= <- <-]. simpl.
    split; [apply lookup_insert_eq|]. split; [|reflexivity].
    intros k v Hk. rewrite lookup_insert_ne; [exact Hk|congruence].
Qed.

Lemma get_color_total (lib : MbTrackColorManager) (id : Z) :
  (index lib < length (color_list lib))%nat →
  ∃ c lib', get_color_for_track lib id = inr (c, lib') ∧
            (index lib' < length (color_list lib'))%nat.
Proof.
  intros Hwf. unfold get_color_for_track.
  destruct (id2color lib !! id) as [c0|]; [eauto|].
  unfold py_getitem.
  destruct (lookup_lt_is_Some_2 _ _ Hwf) as [c0 ->].
  cbn [bind ret]. eexists _, _. split; [reflexivity|].
  apply inc_index_bound. exact Hwf.
Qed.

Lemma color_of_mono (m1 m2 : gmap Z Color) (t : option Z) (c : Color) :
  (∀ k v, m1 !! k = Some v → m2 !! k = Some v) →
  color_of m1 t = Some c → color_of m2 t = Some c.
Proof. destruct t; simpl; auto. Qed.

Lemma frame_colors_spec (track_ids : list (option Z)) :
  ∀ lib cs lib',
    frame_colors lib track_ids = inr (cs, lib') →
    (∀ k v, id2color lib !! k = Some v → id2color lib' !! k = Some v) ∧
    Forall2 (λ t c, color_of (id2color lib') t = Some c) track_ids cs.
Proof.
  induction track_ids as [|t rest IH]; intros lib cs lib' H; simpl in H.
  - injection H as <- <-. split; [auto|constructor].
  - destruct t as [id|].
    + destruct (get_color_for_track lib id) as [e|[c lib1]] eqn:Hget;
        [discriminate|].
      cbn [bind] in H.
      destruct (frame_colors lib1 rest) as [e|[cs1 lib2]] eqn:Hrest;
        [discriminate|].
      cbn [bind ret] in H. injection H as <- <-.
      destruct (get_color_spec _ _ _ _ Hget) as (Hid & Hmono & _).
      destruct (IH _ _ _ Hrest) as [Hmono' Hall].
      split; [auto|]. constructor; [|exact Hall].
      simpl. apply Hmono'. exact Hid.
    + cbn [bind ret] in H.
      destruct (frame_colors lib rest) as [e|[cs1 lib2]] eqn:Hrest;
        [discriminate|].
      cbn [bind ret] in H. injection H as <- <-.
      destruct (IH _ _ _ Hrest) as [Hmono' Hall].
      split; [auto|]. constructor; [reflexivity|exact Hall].
Qed.

Lemma frame_colors_total (track_ids : list (option Z)) :
  ∀ lib, (index lib < length (color_list lib))%nat →
    ∃ cs lib', frame_colors lib track_ids = inr (cs, lib') ∧
               (index lib' < length (color_list lib'))%nat.
Proof.
  induction track_ids as [|t rest IH]; intros lib Hwf; simpl.
  - eauto.
  - destruct t as [id|].
    + destruct (get_color_total lib id Hwf) as (c & lib1 & -> & Hwf1).
      cbn [bind]. destruct (IH lib1 Hwf1) as (cs & lib2 & -> & Hwf2).
      cbn [bind ret]. eauto.
    + cbn [bind ret]. destruct (IH lib Hwf) as (cs & lib2 & -> & Hwf2).
      cbn [bind ret]. eauto.
Qed.

Lemma frames_colors_spec (spots_candidates : gmap Z (list (option Z)))
    (frames : list Z) :
  ∀ lib,
    (index lib < length (color_list lib))%nat →
    Forall (λ frame, is_Some (spots_candidates !! frame)) frames →
    ∃ all_colors lib',
      frames_colors lib spots_candidates frames = inr (all_colors, lib') ∧
      (∀ k v, id2color lib !! k = Some v → id2color lib' !! k = Some v) ∧
      Forall2
        (λ frame colors,
           ∃ track_ids,
             spots_candidates !! frame = Some track_ids ∧
             Forall2 (λ t c, color_of (id2color lib') t = Some c)
                     track_ids colors)
        frames all_colors.
Proof.
  induction frames as [|frame rest IH]; intros lib Hwf Hall; simpl.
  - eexists _, _. split; [reflexivity|]. split; [auto|constructor].
  - apply Forall_cons in Hall as [[track_ids Hframe] Hall].
    rewrite Hframe.
    destruct (frame_colors_total track_ids lib Hwf)
      as (cs & lib1 & Hcs & Hwf1).
    rewrite Hcs. cbn [bind].
    destruct (IH lib1 Hwf1 Hall) as (css & lib2 & -> & Hmono2 & Hrest).
    cbn [bind ret]. eexists _, _. split; [reflexivity|].
    destruct (frame_colors_spec _ _ _ _ Hcs) as [Hmono1 Hcs1].
    split; [auto|]. constructor; [|exact Hrest].
    exists track_ids. split; [exact Hframe|].
    eapply Forall2_impl; [exact Hcs1|].
    intros t c Hc. eapply color_of_mono; eauto.
Qed.

(** X16: the colours of the saved tracking.  When [spots_candidates] has
    every frame of the movie, the colouring never fails (the index of the
    manager never leaves the colour list), and one dictionary, the final
    [id2color], gives the colour of every spot of every frame: a track keeps
    its colour from frame to frame, and a spot without a track is black. *)
Theorem saved_colors_consistent (tab10 : Z → Color)
    (spots_candidates : gmap Z (list (option Z))) (nb_frames : Z) :
  (∀ frame, 0 <= frame < nb_frames → is_Some (spots_candidates !! frame)) →
  ∃ all_colors color_lib,
    save_mid_body_tracking tab10 spots_candidates nb_frames
    = inr (all_colors, color_lib) ∧
    Forall2
      (λ frame colors,
         ∃ track_ids,
           spots_candidates !! frame = Some track_ids ∧
           Forall2 (λ t c, color_of (id2color color_lib) t = Some c)
                   track_ids colors)
      (py_range 0 nb_frames) all_colors.
Proof.
  intros Hall. unfold save_mid_body_tracking.
  destruct (frames_colors_spec spots_candidates (py_range 0 nb_frames)
              (MbTrackColorManager_init tab10))
    as (css & lib & Hrun & _ & Hcs).
  - rewrite color_list_length. simpl. lia.
  - apply Forall_forall. intros frame Hin. apply Hall.
    unfold py_range in Hin. apply elem_of_seqZ in Hin. lia.
  - eauto.
Qed.

Lemma saved_colors_consistent_witness :
  ∃ all_colors color_lib,
    save_mid_body_tracking red_shades two_frames_ids 2
    = inr (all_colors, color_lib) ∧
    Forall2
      (λ frame colors,
         ∃ track_ids,
           two_frames_ids !! frame = Some track_ids ∧
           Forall2 (λ t c, color_of (id2color color_lib) t = Some c)
                   track_ids colors)
      (py_range 0 2) all_colors.
Proof.
  apply (saved_colors_consistent red_shades two_frames_ids 2).
  intros frame Hframe.
  assert (frame = 0 ∨ frame = 1) as [-> | ->] by lia;
    vm_compute; eauto.
Defined.

Lemma mod_succ (n : nat) :
  (S n `mod` 10)%nat
  = if decide (10 ≤ S (n `mod` 10))%nat then 0%nat else S (n `mod` 10).
Proof.
  pose proof (Nat.div_mod_eq n 10) as Hn.
  pose proof (Nat.mod_upper_bound n 10 ltac:(lia)) as Hr.
  case_decide.
  - symmetry. apply (Nat.mod_unique (S n) 10 (S (n / 10)) 0); lia.
  - symmetry. apply (Nat.mod_unique (S n) 10 (n / 10) (S (n `mod` 10))); lia.
Qed.

Lemma tab10_lookup (tab10 : Z → Color) (n : nat) :
  (tab10 <$> py_range 0 10) !! (n `mod` 10)%nat
  = Some (tab10 (Z.of_nat n `mod` 10)).
Proof.
  pose proof (Nat.mod_upper_bound n 10 ltac:(lia)) as Hr.
  rewrite list_lookup_fmap. unfold py_range.
  rewrite lookup_seqZ_lt by lia. cbn [fmap option_fmap option_map].
  rewrite Z.add_0_l, Nat2Z.inj_mod. reflexivity.
Qed.

Lemma fresh_colors_cycle (tab10 : Z → Color) (ids : list Z) :
  ∀ lib n,
    color_list lib = tab10 <$> py_range 0 10 →
    index lib = (n `mod` 10)%nat →
    NoDup ids →
    (∀ id, id ∈ ids → id2color lib !! id = None) →
    ∃ lib',
      frame_colors lib (Some <$> ids)
      = inr ((λ k, tab10 (Z.of_nat k `mod` 10)) <$> seq n (length ids), lib').
Proof.
  induction ids as [|id ids IH]; intros lib n Hlist Hindex Hnd Hfresh.
  - simpl. eauto.
  - apply NoDup_cons in Hnd as [Hid Hnd].
    rewrite fmap_cons. cbn [frame_colors length seq]. rewrite fmap_cons.
    unfold get_color_for_track, py_getitem.
    rewrite (Hfresh id) by left.
    rewrite Hlist, Hindex, tab10_lookup. cbn [bind ret].
    edestruct (IH (inc_index
                     {| index := (n `mod` 10)%nat;
                        color_list := tab10 <$> py_range 0 10;
                        id2color :=
                          <[id := tab10 (Z.of_nat n `mod` 10)]>
                            (id2color lib) |}) (S n))
      as [lib' Hrun].
    + reflexivity.
    + unfold inc_index. cbn [index color_list]. rewrite mod_succ.
      reflexivity.
    + exact Hnd.
    + intros id' Hin. simpl. rewrite lookup_insert_ne.
      * apply Hfresh. right. exact Hin.
      * intros ->. contradiction.
    + rewrite Hrun. cbn [bind ret]. eauto.
Qed.

(** X17: the colours are given in the order of the table and start over
    after ten tracks.  From a new manager, the spots of distinct tracks get
    the colours 0, 1, ..., 9, 0, 1, ... of the table: the eleventh track has
    the colour of the first. *)
Theorem colors_cycle (tab10 : Z → Color) (ids : list Z) :
  NoDup ids →
  ∃ color_lib,
    frame_colors (MbTrackColorManager_init tab10) (Some <$> ids)
    = inr ((λ k, tab10 (Z.of_nat k `mod` 10)) <$> seq 0 (length ids),
           color_lib).
Proof.
  intros Hnd.
  apply (fresh_colors_cycle tab10 ids (MbTrackColorManager_init tab10) 0%nat);
    [reflexivity|reflexivity|exact Hnd|].
  intros id _. apply lookup_empty.
Qed.

Lemma colors_cycle_witness :
  ∃ color_lib,
    frame_colors (MbTrackColorManager_init red_shades)
                 (Some <$> [20; 21; 22; 23; 24; 25; 26; 27; 28; 29; 30])
    = inr ((λ k, red_shades (Z.of_nat k `mod` 10))
             <$> seq 0 (length [20; 21; 22; 23; 24; 25; 26; 27; 28; 29; 30]),
           color_lib).
Proof.
  apply (colors_cycle red_shades).
  apply (bool_decide_unpack _). vm_compute. exact I.
Defined.

(** ** The expected positions of the mid-body *)

Section ExpectedPositionsFacts.

Variable euclidean : Q → Q → Q → Q → Q.
Variable mitosis_track : MitosisTrack.

Lemma closest_points_flat (mother_points daughter_points : list (Q * Q)) :
  closest_points_of euclidean mitosis_track mother_points daughter_points
  = fold_left (closest_step euclidean)
      (position_pairs mitosis_track mother_points daughter_points) (PInf, []).
Proof.
  unfold closest_points_of, position_pairs.
  generalize (PInf, @nil (position * position)).
  induction mother_points as [|m mother_points IH]; intros state;
    [reflexivity|].
  rewrite bind_cons, fold_left_app. cbn [fold_left]. rewrite IH. f_equal.
  clear IH. revert state.
  induction daughter_points as [|d daughter_points IH]; intros state;
    [reflexivity|].
  rewrite bind_cons. cbn [fold_left app]. apply IH.
Qed.

Lemma position_pairs_nonempty (mother_points daughter_points : list (Q * Q)) :
  mother_points ≠ [] → daughter_points ≠ [] →
  position_pairs mitosis_track mother_points daughter_points ≠ [].
Proof.
  destruct mother_points as [|m ms]; [congruence|].
  destruct daughter_points as [|d ds]; [congruence|].
  intros _ _. unfold position_pairs. rewrite bind_cons. rewrite bind_cons.
  discriminate.
Qed.

(** After the two loops: the minimum of the distances, and every pair at
    that distance in the order of the loops, behind a second copy of the
    first of them. *)
Lemma closest_fold_inv (pairs : list (position * position)) :
  pairs ≠ [] →
  ∃ q p0 rest,
    fold_left (closest_step euclidean) pairs (PInf, [])
    = (Fin q, p0 :: p0 :: rest) ∧
    filter (λ p, Qeq_bool (pair_distance euclidean p) q = true) pairs
    = p0 :: rest ∧
    Forall (λ p, (q <= pair_distance euclidean p)%Q) pairs.
Proof.
  induction pairs as [|p pairs IH] using rev_ind; [congruence|].
  intros _. rewrite fold_left_app. cbn [fold_left].
  destruct pairs as [|p1 pairs1].
  - exists (pair_distance euclidean p), p, []. simpl.
    rewrite Qeq_bool_refl. split; [reflexivity|].
    split.
    + rewrite filter_cons_True by apply Qeq_bool_refl. reflexivity.
    + constructor; [apply Qle_refl|constructor].
  - destruct IH as (q & p0 & rest & -> & Hfilter & Hmin); [discriminate|].
    set (pairs := p1 :: pairs1) in *.
    unfold closest_step. cbn [flt].
    destruct (Qle_bool q (pair_distance euclidean p)) eqn:Hle; cbn [negb].
    + apply Qle_bool_iff in Hle. cbn [feqb].
      destruct (Qeq_bool (pair_distance euclidean p) q) eqn:Heq.
      * exists q, p0, (rest ++ [p]). split; [reflexivity|].
        split.
        -- rewrite filter_app, Hfilter.
           rewrite filter_cons_True by exact Heq. reflexivity.
        -- apply Forall_app. split; [exact Hmin|].
           constructor; [exact Hle|constructor].
      * exists q, p0, rest. split; [reflexivity|].
        split.
        -- rewrite filter_app, Hfilter.
           rewrite filter_cons_False by (rewrite Heq; discriminate).
           rewrite filter_nil. apply app_nil_r.
        -- apply Forall_app. split; [exact Hmin|].
           constructor; [exact Hle|constructor].
    + assert (pair_distance euclidean p < q)%Q as Hlt.
      { destruct (Qlt_le_dec (pair_distance euclidean p) q) as [Hlt|Hge];
          [exact Hlt|].
        apply Qle_bool_true in Hge. congruence. }
      clear Hle. cbn [feqb]. rewrite Qeq_bool_refl.
      exists (pair_distance euclidean p), p, []. split; [reflexivity|].
      split.
      * rewrite filter_app.
        rewrite filter_cons_True by apply Qeq_bool_refl.
        rewrite filter_nil.
        rewrite (filter_none _ pairs); [reflexivity|].
        intros p' Hin Heq. apply Qeq_bool_iff in Heq.
        rewrite Forall_forall in Hmin. specialize (Hmin p' Hin). lra.
      * apply Forall_app. split.
        -- eapply Forall_impl; [exact Hmin|]. intros p' Hp'. simpl in Hp'.
           lra.
        -- constructor; [apply Qle_refl|constructor].
Qed.

(** X18: the closest pair is recorded twice.  For two outlines with at
    least one point each, the loops end with the minimum of the distances
    between the pairs of points and with the list of all pairs at that
    distance, in the order of the loops, in which the first of them stands
    twice. *)
Theorem closest_points_first_twice
    (mother_points daughter_points : list (Q * Q)) :
  mother_points ≠ [] → daughter_points ≠ [] →
  ∃ q first others,
    closest_points_of euclidean mitosis_track mother_points daughter_points
    = (Fin q, first :: first :: others) ∧
    filter (λ p, Qeq_bool (pair_distance euclidean p) q = true)
           (position_pairs mitosis_track mother_points daughter_points)
    = first :: others ∧
    Forall (λ p, (q <= pair_distance euclidean p)%Q)
           (position_pairs mitosis_track mother_points daughter_points).
Proof.
  intros Hm Hd. rewrite closest_points_flat.
  apply closest_fold_inv, position_pairs_nonempty; assumption.
Qed.

Lemma q_mean_twice (a : Q) : (q_mean [a; a] == a)%Q.
Proof.
  unfold q_mean. cbn [foldr length].
  change (inject_Z (Z.of_nat 2)) with 2%Q.
  unfold Qdiv. change (/ 2)%Q with (1 # 2)%Q. lra.
Qed.

(** X19: with one closest pair, the expected position is its midpoint.
    When a pair of points is the only one whose distance does not exceed its
    own, the position computed from the two outlines is the middle of the
    two points of that pair. *)
Theorem unique_closest_pair_midpoint
    (mother_points daughter_points : list (Q * Q))
    (pair : position * position) :
  filter (λ p, Qle_bool (pair_distance euclidean p)
                        (pair_distance euclidean pair) = true)
         (position_pairs mitosis_track mother_points daughter_points)
  = [pair] →
  ∃ mid_body_position,
    mid_body_position_of
      (closest_points_of euclidean mitosis_track mother_points
                         daughter_points).2
    = inr mid_body_position ∧
    (mid_body_position.1
     == (inject_Z pair.1.1 + inject_Z pair.2.1) / 2)%Q ∧
    (mid_body_position.2
     == (inject_Z pair.1.2 + inject_Z pair.2.2) / 2)%Q.
Proof.
  intros Hunique. rewrite closest_points_flat.
  set (pairs := position_pairs mitosis_track mother_points daughter_points)
    in *.
  assert (pair ∈ pairs) as Hin.
  { assert (pair ∈ [pair]) as H by left. rewrite <- Hunique in H.
    apply list_elem_of_filter in H as [_ H]. exact H. }
  destruct (closest_fold_inv pairs) as (q & p0 & rest & -> & Hfilter & Hmin).
  { intros E. rewrite E in Hin. inversion Hin. }
  assert (p0 ∈ filter (λ p, Qeq_bool (pair_distance euclidean p) q = true)
                      pairs) as Hp0 by (rewrite Hfilter; left).
  apply list_elem_of_filter in Hp0 as [Hq0 Hp0].
  apply Qeq_bool_iff in Hq0.
  rewrite Forall_forall in Hmin.
  pose proof (Hmin pair Hin) as Hle.
  assert (p0 = pair) as ->.
  { assert (p0 ∈ [pair]) as H.
    { rewrite <- Hunique. apply list_elem_of_filter. split; [|exact Hp0].
      apply Qle_bool_iff. lra. }
    apply list_elem_of_singleton in H. exact H. }
  assert (rest = []) as ->.
  { assert (filter (λ p, Qeq_bool (pair_distance euclidean p) q = true)
                   (filter (λ p, Qle_bool (pair_distance euclidean p)
                                   (pair_distance euclidean pair) = true)
                           pairs)
            = pair :: rest) as H.
    { rewrite list_filter_filter. rewrite <- Hfilter.
      apply list_filter_iff. intros p. split; [tauto|].
      intros Hp. split; [exact Hp|].
      apply Qeq_bool_iff in Hp. apply Qle_bool_iff. lra. }
    rewrite Hunique in H.
    rewrite filter_cons_True in H by (apply Qeq_bool_iff; exact Hq0).
    rewrite filter_nil in H. congruence. }
  cbn [snd mid_body_position_of fmap list_fmap ret].
  eexists. split; [reflexivity|]. cbn [fst snd].
  rewrite !q_mean_twice.
  unfold Qdiv. change (/ 2)%Q with (1 # 2)%Q. split; lra.
Qed.

Lemma mid_body_position_defined
    (mother_points daughter_points : list (Q * Q)) :
  mother_points ≠ [] → daughter_points ≠ [] →
  ∃ mid_body_position,
    mid_body_position_of
      (closest_points_of euclidean mitosis_track mother_points
                         daughter_points).2
    = inr mid_body_position.
Proof.
  intros Hm Hd. rewrite closest_points_flat.
  destruct (closest_fold_inv
              (position_pairs mitosis_track mother_points daughter_points))
    as (q & p0 & rest & -> & _).
  - apply position_pairs_nonempty; assumption.
  - simpl. eauto.
Qed.

Lemma expected_positions_fold
    (mother_spots daughter_spots : gmap Z (list (Q * Q))) (frames : list Z) :
  map_Forall (λ _ points, points ≠ []) mother_spots →
  map_Forall (λ _ points, points ≠ []) daughter_spots →
  ∀ expected_positions,
  ∃ expected_positions',
    foldE (expected_positions_step euclidean mitosis_track mother_spots
                                   daughter_spots)
          frames expected_positions
    = inr expected_positions' ∧
    dom expected_positions'
    =@{gset Z}
      dom expected_positions ∪
      list_to_set
        ((λ frame, frame - min_frame mitosis_track)
           <$> filter (λ frame, is_Some (mother_spots !! frame)
                                ∧ is_Some (daughter_spots !! frame))
                      frames).
Proof.
  intros Hmother Hdaughter.
  induction frames as [|frame frames IH]; intros ep.
  - exists ep. split; [reflexivity|]. rewrite filter_nil.
    cbn [fmap list_fmap list_to_set]. symmetry. apply (right_id_L ∅ (∪)).
  - cbn [foldE]. unfold expected_positions_step at 1.
    destruct (daughter_spots !! frame) as [dpoints|] eqn:Hd;
      [destruct (mother_spots !! frame) as [mpoints|] eqn:Hm|].
    + destruct (mid_body_position_defined mpoints dpoints) as [pos ->].
      { exact (Hmother _ _ Hm). }
      { exact (Hdaughter _ _ Hd). }
      cbn [bind ret].
      destruct (IH (<[frame - min_frame mitosis_track := pos]> ep))
        as (ep' & -> & Hdom).
      exists ep'. split; [reflexivity|]. rewrite Hdom.
      rewrite filter_cons_True by (rewrite Hm, Hd; split; eauto).
      rewrite fmap_cons. cbn [list_to_set]. rewrite dom_insert_L.
      rewrite (comm_L (∪) {[frame - min_frame mitosis_track]} (dom ep)).
      symmetry. apply (assoc_L (∪)).
    + cbn [bind ret]. destruct (IH ep) as (ep' & -> & Hdom).
      exists ep'. split; [reflexivity|]. rewrite Hdom.
      rewrite filter_cons_False; [reflexivity|].
      rewrite Hm. intros [[? [=]] _].
    + cbn [bind ret]. destruct (IH ep) as (ep' & -> & Hdom).
      exists ep'. split; [reflexivity|]. rewrite Hdom.
      rewrite filter_cons_False; [reflexivity|].
      rewrite Hd. intros [_ [? [=]]].
Qed.

End ExpectedPositionsFacts.

(** X20: the frames with an expected position.  When no outline is empty,
    the loop over the frames of the cytokinesis ends without an exception,
    and the dictionary it builds has exactly one key per frame of the range
    [daughter start, daughter start + cytokinesis duration) at which the
    mother and the daughter both have a spot: that frame, counted from the
    first frame of the mitosis.  A frame where one of the two cells is
    missing is passed over; the loop does not stop there. *)
Theorem expected_positions_keys (euclidean : Q → Q → Q → Q → Q)
    (self : Factory) (mitosis_track : MitosisTrack)
    (mother_spots : gmap Z (list (Q * Q))) (daughter_start : Z)
    (daughter_spots : gmap Z (list (Q * Q))) :
  map_Forall (λ _ points, points ≠ []) mother_spots →
  map_Forall (λ _ points, points ≠ []) daughter_spots →
  ∃ expected_positions,
    expected_positions_of euclidean self mitosis_track mother_spots
                          daughter_start daughter_spots
    = inr expected_positions ∧
    dom expected_positions
    =@{gset Z}
      list_to_set
        ((λ frame, frame - min_frame mitosis_track)
           <$> filter (λ frame, is_Some (mother_spots !! frame)
                                ∧ is_Some (daughter_spots !! frame))
                      (py_range daughter_start
                         (daughter_start + cytokinesis_duration self))).
Proof.
  intros Hmother Hdaughter. unfold expected_positions_of.
  destruct (expected_positions_fold euclidean mitosis_track mother_spots
              daughter_spots
              (py_range daughter_start
                 (daughter_start + cytokinesis_duration self))
              Hmother Hdaughter ∅) as (ep & Hrun & Hdom).
  exists ep. split; [exact Hrun|]. rewrite Hdom, dom_empty_L.
  apply (left_id_L ∅ (∪)).
Qed.

(** X18 at two outlines with two closest pairs. *)
Lemma closest_points_first_twice_witness :
  ∃ q first others,
    closest_points_of grid_euclidean mitosis0 mother_outline daughter_outline
    = (Fin q, first :: first :: others) ∧
    filter (λ p, Qeq_bool (pair_distance grid_euclidean p) q = true)
           (position_pairs mitosis0 mother_outline daughter_outline)
    = first :: others ∧
    Forall (λ p, (q <= pair_distance grid_euclidean p)%Q)
           (position_pairs mitosis0 mother_outline daughter_outline).
Proof.
  apply (closest_points_first_twice grid_euclidean mitosis0 mother_outline
           daughter_outline); discriminate.
Defined.

(** With two closest pairs the first weighs twice: the expected position is
    not the centre of the four points, (15, 12.5), but (40/3, 12.5), nearer
    to the first pair. *)
Example closest_pairs_weighted :
  (closest_points_of grid_euclidean mitosis0 mother_outline
                     daughter_outline).2
  = [((10, 10), (10, 15)); ((10, 10), (10, 15)); ((20, 10), (20, 15))] ∧
  ∃ mid_body_position,
    mid_body_position_of
      (closest_points_of grid_euclidean mitosis0 mother_outline
                         daughter_outline).2
    = inr mid_body_position ∧
    (mid_body_position.1 == 40 # 3)%Q ∧
    (mid_body_position.2 == 25 # 2)%Q.
Proof.
  split; [vm_compute; reflexivity|].
  eexists. split; [vm_compute; reflexivity|].
  split; reflexivity.
Qed.

(** X19 at the outlines whose closest pair is (10, 10), (13, 14). *)
Lemma unique_closest_pair_midpoint_witness :
  ∃ mid_body_position,
    mid_body_position_of
      (closest_points_of grid_euclidean mitosis0 mother_outline
                         daughter_corner).2
    = inr mid_body_position ∧
    (mid_body_position.1 == (inject_Z 10 + inject_Z 13) / 2)%Q ∧
    (mid_body_position.2 == (inject_Z 10 + inject_Z 14) / 2)%Q.
Proof.
  apply (unique_closest_pair_midpoint grid_euclidean mitosis0 mother_outline
           daughter_corner ((10, 10), (13, 14))).
  vm_compute. reflexivity.
Defined.

(** X20 at three frames of the mother and three of the daughter, two of them
    shared. *)
Lemma expected_positions_keys_witness :
  ∃ expected_positions,
    expected_positions_of grid_euclidean factory0 mitosis0 mother_outlines
                          101 daughter_outlines
    = inr expected_positions ∧
    dom expected_positions
    =@{gset Z}
      list_to_set
        ((λ frame, frame - min_frame mitosis0)
           <$> filter (λ frame, is_Some (mother_outlines !! frame)
                                ∧ is_Some (daughter_outlines !! frame))
                      (py_range 101 (101 + cytokinesis_duration factory0))).
Proof.
  apply (expected_positions_keys grid_euclidean factory0 mitosis0
           mother_outlines 101 daughter_outlines).
  - unfold mother_outlines.
    repeat (apply map_Forall_insert_2; [discriminate|]).
    apply map_Forall_empty.
  - unfold daughter_outlines.
    repeat (apply map_Forall_insert_2; [discriminate|]).
    apply map_Forall_empty.
Defined.

(** The keys of X20 at these outlines: the frames 101 and 102, counted from
    the frame 100. *)
Example expected_positions_keys_example :
  list_to_set
    ((λ frame, frame - min_frame mitosis0)
       <$> filter (λ frame, is_Some (mother_outlines !! frame)
                            ∧ is_Some (daughter_outlines !! frame))
                  (py_range 101 (101 + cytokinesis_duration factory0)))
  =@{gset Z} {[1; 2]}.
Proof.
  apply (bool_decide_unpack _). vm_compute. exact I.
Qed.
